(** * YUView statistics file: position indexer, header reader and loader

    A shallow embedding of [playlistItemStatisticsFile.cpp]
    (readFrameAndTypePositionsFromFile, readHeaderFromFile,
    loadStatisticToCache and parseCSVLine) together with the properties
    the specification states about them.

    Conventions
    - A [QString] and a [QByteArray] are lists of 8-bit characters.
    - C++ [int] and [qint64] values are [Z]; the conversions that wrap
      ([unsigned char], [toUInt] stored in an [int]) are written out.
    - [QMap]/[QHash] are stdpp [gmap]s.
    - A C++ [throw] of a string literal is [Throw]; an out-of-range
      [QList::operator[]] or a null dereference is [Crash]: Qt does not
      raise a C++ exception there (an assertion aborts a debug build and
      the behaviour is undefined otherwise), so no [catch] clause of the
      program sees it.
    - Signals to the user interface and the floating point progress
      percentage are left out: no modelled function reads them. *)

From Stdlib Require Import ZArith List Ascii String Lia Bool.
From stdpp Require Import base option list gmap strings.

Local Open Scope Z_scope.

(* ================================================================== *)
(** ** Qt strings *)
(* ================================================================== *)

Abbreviation QString := (list ascii).
Abbreviation QStringList := (list (list ascii)).

Definition qs (s : string) : QString := list_ascii_of_string s.

Definition code (c : ascii) : Z := Z.of_N (N_of_ascii c).

Definition LF : ascii := "010"%char.

(** [QChar::isSpace] on the Latin-1 range. *)
Definition isSpace (c : ascii) : bool :=
  let n := code c in
  ((9 <=? n) && (n <=? 13)) || (n =? 32) || (n =? 133) || (n =? 160).

Fixpoint dropSpaces (s : QString) : QString :=
  match s with
  | c :: s' => if isSpace c then dropSpaces s' else s
  | [] => []
  end.

(** [QString::trimmed]: whitespace removed from both ends. *)
Definition trimmed (s : QString) : QString :=
  rev (dropSpaces (rev (dropSpaces s))).

(** [QString::remove(QChar)]: every occurrence removed. *)
Definition remove (c : ascii) (s : QString) : QString :=
  List.filter (fun x => negb (Ascii.eqb x c)) s.

(** [QString::split(QChar)] with the default [KeepEmptyParts]. *)
Fixpoint split (d : ascii) (s : QString) : QStringList :=
  match s with
  | [] => [[]]
  | c :: s' =>
      if Ascii.eqb c d then [] :: split d s'
      else match split d s' with
           | f :: fs => (c :: f) :: fs
           | [] => [[c]]
           end
  end.

Definition INT_MIN : Z := -2147483648.
Definition INT_MAX : Z := 2147483647.
Definition UINT_MAX : Z := 4294967295.
Definition INT64_MAX : Z := 9223372036854775807.

Definition digitVal (c : ascii) : option Z :=
  let n := code c in
  if (48 <=? n) && (n <=? 57) then Some (n - 48) else None.

Fixpoint parseDigits (acc : Z) (s : QString) : option Z :=
  match s with
  | [] => Some acc
  | c :: s' =>
      match digitVal c with
      | Some d => parseDigits (acc * 10 + d) s'
      | None => None
      end
  end.

(** Decimal integer syntax accepted by [QString::toInt] in the C locale:
    surrounding whitespace, an optional sign, at least one digit. *)
Definition parseInteger (s : QString) : option Z :=
  match trimmed s with
  | [] => None
  | c :: ds =>
      if Ascii.eqb c "-"%char then
        match ds with [] => None | _ => Z.opp <$> parseDigits 0 ds end
      else if Ascii.eqb c "+"%char then
        match ds with [] => None | _ => parseDigits 0 ds end
      else parseDigits 0 (c :: ds)
  end.

(** [QString::toInt]: 0 when the text is no number or does not fit an
    [int]. *)
Definition toInt (s : QString) : Z :=
  match parseInteger s with
  | Some v => if (INT_MIN <=? v) && (v <=? INT_MAX) then v else 0
  | None => 0
  end.

(** [QString::toUInt]: 0 when the text is no number or does not fit an
    [unsigned int]. *)
Definition toUInt (s : QString) : Z :=
  match parseInteger s with
  | Some v => if (0 <=? v) && (v <=? UINT_MAX) then v else 0
  | None => 0
  end.

(** Conversion of an [unsigned int] to [int]. *)
Definition uintToInt (v : Z) : Z :=
  if v <=? INT_MAX then v else v - 4294967296.

(** Conversion of an [int] to [unsigned char]. *)
Definition toUChar (v : Z) : Z := v mod 256.

(** [rowItemList[0][0] != '%'] for a non-empty first field. *)
Definition startsWithPercent (s : QString) : bool :=
  match s with
  | c :: _ => Ascii.eqb c "%"%char
  | [] => false
  end.

Definition isEmpty (s : QString) : bool :=
  match s with [] => true | _ => false end.

Definition qeq (a b : QString) : bool := bool_decide (a = b).

(** [playlistItemStatisticsFile::parseCSVLine] *)
Definition parseCSVLine (srcLine : QString) (delimiter : ascii) : QStringList :=
  let line := remove " "%char (trimmed srcLine) in
  split delimiter line.

(* ================================================================== *)
(** ** Outcomes of a piece of code *)
(* ================================================================== *)

Inductive outcome (S : Type) : Type :=
| Ok (s : S)
| Throw (msg : QString) (s : S)
| Crash.
Arguments Ok {S} s.
Arguments Throw {S} msg s.
Arguments Crash {S}.

Definition bind {S : Type} (r : outcome S) (k : S -> outcome S) : outcome S :=
  match r with
  | Ok s => k s
  | Throw m s => Throw m s
  | Crash => Crash
  end.

Notation "r >>> k" := (bind r k) (at level 61, left associativity).

(** The object state an outcome leaves behind, if the program survives. *)
Definition survivor {S : Type} (r : outcome S) : option S :=
  match r with
  | Ok s => Some s
  | Throw _ s => Some s
  | Crash => None
  end.

(* ================================================================== *)
(** ** Data model *)
(* ================================================================== *)

Definition INT_INVALID : Z := -1.

Inductive arrowHead_t := arrowHead_arrow | arrowHead_circle | arrowHead_none.

Inductive mappingType := mapping_gradient | mapping_map | mapping_complex | mapping_none.

Definition QColor : Type := Z * Z * Z * Z.

(** Modelled from the spec: the colour mapping of a type ("discrete
    id->RGBA" for [mapColor], "numeric range->gradient colour mapping"
    for [range] and [defaultRange]); the class [colorMapper] is declared
    outside this file. *)
Record colorMapper := {
  cm_type : mappingType;
  colorMap : gmap Z QColor;
  rangeMin : Z;
  rangeMax : Z;
  minColor : QColor;
  maxColor : QColor;
  rangeName : QString;
}.

Definition black : QColor := (0, 0, 0, 255).

Definition defaultMapper : colorMapper :=
  {| cm_type := mapping_none; colorMap := ∅; rangeMin := 0; rangeMax := 0;
     minColor := black; maxColor := black; rangeName := [] |}.

Definition gradientMapper (mn : Z) (cmin : QColor) (mx : Z) (cmax : QColor) : colorMapper :=
  {| cm_type := mapping_gradient; colorMap := ∅; rangeMin := mn; rangeMax := mx;
     minColor := cmin; maxColor := cmax; rangeName := [] |}.

Definition namedMapper (name : QString) (mn mx : Z) : colorMapper :=
  {| cm_type := mapping_complex; colorMap := ∅; rangeMin := mn; rangeMax := mx;
     minColor := black; maxColor := black; rangeName := name |}.

Definition mapInsert (cm : colorMapper) (id : Z) (c : QColor) : colorMapper :=
  {| cm_type := mapping_map; colorMap := <[id := c]> (colorMap cm);
     rangeMin := rangeMin cm; rangeMax := rangeMax cm;
     minColor := minColor cm; maxColor := maxColor cm;
     rangeName := rangeName cm |}.

(** The fields of [StatisticsType] this file writes. *)
Record StatisticsType := {
  typeID : Z;
  typeName : QString;
  hasValueData : bool;
  renderValueData : bool;
  hasVectorData : bool;
  renderVectorData : bool;
  arrowHead : arrowHead_t;
  colMapper : colorMapper;
  vectorPenColor : QColor;
  gridPenColor : QColor;
  vectorScale : Z;
  scaleValueToBlockSize : bool;
}.

(** Modelled from the spec: the decoded payloads ("position (x,y), size
    (w,h), and either one scalar, a 2-component vector, or a 4-component
    line") that [addBlockValue], [addBlockVector] and [addLine] append to
    a per-type cache entry; [statisticsData] is declared outside this
    file. *)
Inductive statItem :=
| BlockValue (x y w h : Z) (v : Z)
| BlockVector (x y w h : Z) (vx vy : Z)
| Line (x y w h : Z) (x1 y1 x2 y2 : Z).

Abbreviation statisticsData := (list statItem).

Definition addBlockValue (d : statisticsData) x y w h v : statisticsData :=
  d ++ [BlockValue x y w h v].
Definition addBlockVector (d : statisticsData) x y w h vx vy : statisticsData :=
  d ++ [BlockVector x y w h vx vy].
Definition addLine (d : statisticsData) x y w h x1 y1 x2 y2 : statisticsData :=
  d ++ [Line x y w h x1 y1 x2 y2].

(** Modelled from the spec: the type registry ("owned by a registry
    keyed by typeID (last declaration with a given ID wins)",
    [getType(id) -> TypeDescriptor?]); [statisticHandler] is declared
    outside this file. *)
Record statisticHandler := {
  statsTypeList : gmap Z StatisticsType;
  statFrameSize : Z * Z;
  statsCache : gmap Z statisticsData;
}.

Definition getStatisticsType (h : statisticHandler) (t : Z) : option StatisticsType :=
  statsTypeList h !! t.

Definition addStatType (h : statisticHandler) (ty : StatisticsType) : statisticHandler :=
  {| statsTypeList := <[typeID ty := ty]> (statsTypeList h);
     statFrameSize := statFrameSize h; statsCache := statsCache h |}.

Definition clearStatTypes (h : statisticHandler) : statisticHandler :=
  {| statsTypeList := ∅;
     statFrameSize := statFrameSize h; statsCache := statsCache h |}.

Definition setFrameSize (h : statisticHandler) (sz : Z * Z) : statisticHandler :=
  {| statsTypeList := statsTypeList h;
     statFrameSize := sz; statsCache := statsCache h |}.

Definition setCache (h : statisticHandler) (c : gmap Z statisticsData) : statisticHandler :=
  {| statsTypeList := statsTypeList h;
     statFrameSize := statFrameSize h; statsCache := c |}.

(** The members of [playlistItemStatisticsFile] the three functions use. *)
Record playlistItemStatisticsFile := {
  pocTypeStartList : gmap Z (gmap Z Z);
  fileSortedByPOC : bool;
  maxPOC : Z;
  blockOutsideOfFrame_idx : Z;
  parsingError : QString;
  statSource : statisticHandler;
  chartStatSource : statisticHandler;
  frameRate : option QString;
}.

Abbreviation item := playlistItemStatisticsFile.

Definition setIndex (it : item) (m : gmap Z (gmap Z Z)) : item :=
  {| pocTypeStartList := m; fileSortedByPOC := fileSortedByPOC it;
     maxPOC := maxPOC it; blockOutsideOfFrame_idx := blockOutsideOfFrame_idx it;
     parsingError := parsingError it; statSource := statSource it;
     chartStatSource := chartStatSource it; frameRate := frameRate it |}.

Definition setSorted (it : item) (b : bool) : item :=
  {| pocTypeStartList := pocTypeStartList it; fileSortedByPOC := b;
     maxPOC := maxPOC it; blockOutsideOfFrame_idx := blockOutsideOfFrame_idx it;
     parsingError := parsingError it; statSource := statSource it;
     chartStatSource := chartStatSource it; frameRate := frameRate it |}.

Definition setMaxPOC (it : item) (p : Z) : item :=
  {| pocTypeStartList := pocTypeStartList it; fileSortedByPOC := fileSortedByPOC it;
     maxPOC := p; blockOutsideOfFrame_idx := blockOutsideOfFrame_idx it;
     parsingError := parsingError it; statSource := statSource it;
     chartStatSource := chartStatSource it; frameRate := frameRate it |}.

Definition setOutside (it : item) (p : Z) : item :=
  {| pocTypeStartList := pocTypeStartList it; fileSortedByPOC := fileSortedByPOC it;
     maxPOC := maxPOC it; blockOutsideOfFrame_idx := p;
     parsingError := parsingError it; statSource := statSource it;
     chartStatSource := chartStatSource it; frameRate := frameRate it |}.

Definition setError (it : item) (e : QString) : item :=
  {| pocTypeStartList := pocTypeStartList it; fileSortedByPOC := fileSortedByPOC it;
     maxPOC := maxPOC it; blockOutsideOfFrame_idx := blockOutsideOfFrame_idx it;
     parsingError := e; statSource := statSource it;
     chartStatSource := chartStatSource it; frameRate := frameRate it |}.

Definition setStatSource (it : item) (h : statisticHandler) : item :=
  {| pocTypeStartList := pocTypeStartList it; fileSortedByPOC := fileSortedByPOC it;
     maxPOC := maxPOC it; blockOutsideOfFrame_idx := blockOutsideOfFrame_idx it;
     parsingError := parsingError it; statSource := h;
     chartStatSource := chartStatSource it; frameRate := frameRate it |}.

Definition setChartStatSource (it : item) (h : statisticHandler) : item :=
  {| pocTypeStartList := pocTypeStartList it; fileSortedByPOC := fileSortedByPOC it;
     maxPOC := maxPOC it; blockOutsideOfFrame_idx := blockOutsideOfFrame_idx it;
     parsingError := parsingError it; statSource := statSource it;
     chartStatSource := h; frameRate := frameRate it |}.

Definition setFrameRate (it : item) (r : option QString) : item :=
  {| pocTypeStartList := pocTypeStartList it; fileSortedByPOC := fileSortedByPOC it;
     maxPOC := maxPOC it; blockOutsideOfFrame_idx := blockOutsideOfFrame_idx it;
     parsingError := parsingError it; statSource := statSource it;
     chartStatSource := chartStatSource it; frameRate := r |}.

Definition emptyHandler : statisticHandler :=
  {| statsTypeList := ∅; statFrameSize := (0, 0); statsCache := ∅ |}.

(** The members as the constructor leaves them. *)
Definition newItem : item :=
  {| pocTypeStartList := ∅; fileSortedByPOC := false; maxPOC := 0;
     blockOutsideOfFrame_idx := -1; parsingError := [];
     statSource := emptyHandler; chartStatSource := emptyHandler;
     frameRate := None |}.

(* ================================================================== *)
(** ** Position indexer: readFrameAndTypePositionsFromFile *)
(* ================================================================== *)

(** The internal buffer size for parsing the starting positions. *)
Definition STAT_PARSING_BUFFER_SIZE : Z := 1048576.

(** The object together with the local variables of the scan. *)
Record scan := {
  self : item;
  lineBuffer : QString;
  lineBufferStartPos : Z;
  lastPOC : Z;
  lastType : Z;
  sortingFixed : bool;
}.

Definition withSelf (st : scan) (it : item) : scan :=
  {| self := it; lineBuffer := lineBuffer st;
     lineBufferStartPos := lineBufferStartPos st;
     lastPOC := lastPOC st; lastType := lastType st;
     sortingFixed := sortingFixed st |}.

Definition withLine (st : scan) (buf : QString) (pos : Z) : scan :=
  {| self := self st; lineBuffer := buf; lineBufferStartPos := pos;
     lastPOC := lastPOC st; lastType := lastType st;
     sortingFixed := sortingFixed st |}.

Definition withLast (st : scan) (poc ty : Z) : scan :=
  {| self := self st; lineBuffer := lineBuffer st;
     lineBufferStartPos := lineBufferStartPos st;
     lastPOC := poc; lastType := ty; sortingFixed := sortingFixed st |}.

Definition withFixed (st : scan) (b : bool) : scan :=
  {| self := self st; lineBuffer := lineBuffer st;
     lineBufferStartPos := lineBufferStartPos st;
     lastPOC := lastPOC st; lastType := lastType st; sortingFixed := b |}.

Definition startScan (it : item) : scan :=
  {| self := it; lineBuffer := []; lineBufferStartPos := 0;
     lastPOC := INT_INVALID; lastType := INT_INVALID;
     sortingFixed := false |}.

(** [m[poc]] used as a value: the inner map, empty when absent. *)
Definition inner (m : gmap Z (gmap Z Z)) (poc : Z) : gmap Z Z :=
  default ∅ (m !! poc).

(** [QMap::operator[]] default-inserts the key it does not find. *)
Definition touch (m : gmap Z (gmap Z Z)) (poc : Z) : gmap Z (gmap Z Z) :=
  <[poc := inner m poc]> m.

(** [m[poc][typeID] = pos] *)
Definition setPos (m : gmap Z (gmap Z Z)) (poc ty pos : Z) : gmap Z (gmap Z Z) :=
  <[poc := <[ty := pos]> (inner m poc)]> m.

(** [m.contains(poc)] *)
Definition containsPOC (m : gmap Z (gmap Z Z)) (poc : Z) : bool :=
  bool_decide (is_Some (m !! poc)).

(** [m[poc].contains(typeID)] *)
Definition containsType (m : gmap Z (gmap Z Z)) (poc ty : Z) : bool :=
  bool_decide (is_Some (inner m poc !! ty)).

(** The recorded offset of a (POC, typeID) pair. *)
Definition lookupPos (m : gmap Z (gmap Z Z)) (poc ty : Z) : option Z :=
  m !! poc ≫= (fun tm => tm !! ty).

Definition updateMaxPOC (it : item) (poc : Z) : item :=
  if maxPOC it <? poc then setMaxPOC it poc else it.

Definition msgInterleaved : QString :=
  qs "The data for each POC must be continuous in an interleaved statistics file->".

Definition msgSequential : QString :=
  qs "The data for each typeID must be continuous in an non interleaved statistics file->".

(** The three branches taken for a data line with the given POC and
    typeID that starts at [lineBufferStartPos]. *)
Definition indexRecord (st : scan) (poc ty : Z) : outcome scan :=
  let pos := lineBufferStartPos st in
  let it := self st in
  if (lastType st =? -1) && (lastPOC st =? -1) then
    (* First POC/type line *)
    let it1 := setIndex it (setPos (pocTypeStartList it) poc ty pos) in
    let st1 := withLast (withSelf st it1) poc ty in
    Ok (withSelf st1 (updateMaxPOC (self st1) poc))
  else if negb (ty =? lastType st) && (poc =? lastPOC st) then
    (* new type, same POC *)
    let st1 :=
      if negb (sortingFixed st)
      then withFixed (withSelf st (setSorted it true)) true
      else st in
    let st2 := withLast st1 (lastPOC st1) ty in
    let m := pocTypeStartList (self st2) in
    if negb (containsType m poc ty)
    then Ok (withSelf st2 (setIndex (self st2) (setPos (touch m poc) poc ty pos)))
    else Ok (withSelf st2 (setIndex (self st2) (touch m poc)))
  else if negb (poc =? lastPOC st) then
    let st1 := if negb (sortingFixed st) then withFixed st true else st in
    let m := pocTypeStartList (self st1) in
    (* We found a new POC *)
    let record :=
      let st2 := withLast st1 poc ty in
      let it2 := setIndex (self st2) (setPos m poc ty pos) in
      Ok (withSelf st2 (updateMaxPOC it2 poc)) in
    if fileSortedByPOC (self st1) then
      if containsPOC m poc then Throw msgInterleaved st1 else record
    else
      if containsPOC m poc && containsType m poc ty
      then Throw msgSequential st1 else record
  else Ok st.

(** A field of a tokenised line; out of range is a crash. *)
Definition field {S : Type} (row : QStringList) (i : nat) (k : QString -> outcome S) : outcome S :=
  match row !! i with
  | Some f => k f
  | None => Crash
  end.

(** The work done for a completed, non-empty line buffer. *)
Definition processLine (st : scan) : outcome scan :=
  let rowItemList := parseCSVLine (lineBuffer st) ";"%char in
  field rowItemList 0 (fun f0 =>
    if negb (isEmpty f0) && negb (startsWithPercent f0) then
      field rowItemList 5 (fun f5 => indexRecord st (toInt f0) (toInt f5))
    else Ok st).

(** One iteration of the loop over the bytes of the buffer. *)
Definition scanByte (bufferStartPos : Z) (i : Z) (c : ascii) (st : scan) : outcome scan :=
  if code c =? 10 then
    (if 0 <? Z.of_nat (length (lineBuffer st)) then processLine st else Ok st)
    >>> (fun st' => Ok (withLine st' [] (bufferStartPos + i + 1)))
  else Ok (withLine st (lineBuffer st ++ [c]) (lineBufferStartPos st)).

(** [for (int i = 0; i < bufferSize; i++)] over the bytes from [i] on. *)
Fixpoint scanBuffer (bufferStartPos : Z) (i : Z) (buf : list ascii) (st : scan) : outcome scan :=
  match buf with
  | [] => Ok st
  | c :: buf' =>
      scanByte bufferStartPos i c st >>> scanBuffer bufferStartPos (i + 1) buf'
  end.

(** Modelled from the spec: [fileSource::readBytes] ("read the body in
    large fixed-size chunks"): the bytes of the file from [startPos] on,
    at most [nrBytes] of them; [fileSource] is declared outside this
    file. *)
Definition readBytes (file : list ascii) (startPos : Z) (nrBytes : Z) : list ascii :=
  take (Z.to_nat nrBytes) (drop (Z.to_nat startPos) file).

Section Indexer.

(** The buffer size; [STAT_PARSING_BUFFER_SIZE] in the program. *)
Variable bufSize : Z.

(** The value of [cancelBackgroundParser] seen by the n-th evaluation
    of the loop condition (the flag is written by another thread). *)
Variable cancelBackgroundParser : nat -> bool.

(** [while (!fileAtEnd && !cancelBackgroundParser)]; [None] when the
    fuel does not suffice. *)
Fixpoint scanLoop (fuel : nat) (file : list ascii) (iter : nat)
    (bufferStartPos : Z) (fileAtEnd : bool) (st : scan) : option (outcome scan) :=
  if fileAtEnd || cancelBackgroundParser iter then Some (Ok st) else
  match fuel with
  | O => None
  | S fuel' =>
      let inputBuffer := readBytes file bufferStartPos bufSize in
      let bufferSize := Z.of_nat (length inputBuffer) in
      let fileAtEnd' := bufferSize <? bufSize in
      match scanBuffer bufferStartPos 0 inputBuffer st with
      | Ok st' =>
          scanLoop fuel' file (S iter) (bufferStartPos + bufferSize) fileAtEnd' st'
      | r => Some r
      end
  end.

Definition msgPrefix : QString := qs "Error while parsing meta data: ".

(** The handlers of the try block: the message is stored and the
    function returns; the index built so far stays in the object. *)
Definition catchIndexer (r : outcome scan) : outcome item :=
  match r with
  | Ok st => Ok (setChartStatSource (self st) (statSource (self st)))
  | Throw msg st => Ok (setError (self st) (msgPrefix ++ msg))
  | Crash => Crash
  end.

(** The function, for a file that can be opened; [None] only if the
  loop ran out of fuel, which [scanLoop_total] excludes. *)
Definition readFrameAndTypePositionsFromFile (file : list ascii) (it : item)
    : option (outcome item) :=
  catchIndexer <$> scanLoop (S (length file)) file 0 0 false (startScan it).

End Indexer.

(* ================================================================== *)
(** ** Reading lines *)
(* ================================================================== *)

(** [QFile::readLine] until [atEnd]: every line with its terminator, the
    last one possibly without. *)
Fixpoint readLines (s : list ascii) : list QString :=
  match s with
  | [] => []
  | c :: s' =>
      if code c =? 10 then [c] :: readLines s'
      else match readLines s' with
           | l :: ls => (c :: l) :: ls
           | [] => [[c]]
           end
  end.

(** [QTextStream::readLine] returns the line without its terminator
    (a line feed, or a carriage return and a line feed). *)
Definition stripEOL (l : QString) : QString :=
  match rev l with
  | c :: r =>
      if code c =? 10 then
        match r with
        | d :: r' => if code d =? 13 then rev r' else rev r
        | [] => []
        end
      else l
  | [] => []
  end.

(** [in.seek(startPos)] followed by [in.readLine()] until [in.atEnd()]. *)
Definition textLinesFrom (file : list ascii) (startPos : Z) : list QString :=
  stripEOL <$> readLines (drop (Z.to_nat startPos) file).

(* ================================================================== *)
(** ** Header reader: readHeaderFromFile *)
(* ================================================================== *)

(** Modelled from the spec: a freshly constructed [StatisticsType]
    (a TypeDescriptor before any header record has filled it); its
    constructor is declared outside this file. *)
Definition newType : StatisticsType :=
  {| typeID := INT_INVALID; typeName := qs "?";
     hasValueData := false; renderValueData := false;
     hasVectorData := false; renderVectorData := false;
     arrowHead := arrowHead_arrow; colMapper := defaultMapper;
     vectorPenColor := black; gridPenColor := black;
     vectorScale := 1; scaleValueToBlockSize := false |}.

Record header := {
  obj : item;
  typeParsingActive : bool;
  aType : StatisticsType;
}.

Definition mkHeader (it : item) (a : bool) (t : StatisticsType) : header :=
  {| obj := it; typeParsingActive := a; aType := t |}.

Definition uc (f : QString) : Z := toUChar (toInt f).

Section Header.

(** [s.toDouble() > 0.0]; floating point parsing is not modelled. *)
Variable positiveDouble : QString -> bool.

(** The [type] record. *)
Definition headerType (row : QStringList) (st : header) : outcome header :=
  field row 2 (fun f2 =>
  field row 3 (fun f3 =>
    let t := aType st in
    let t1 :=
      {| typeID := toInt f2; typeName := f3;
         hasValueData := hasValueData t; renderValueData := renderValueData t;
         hasVectorData := hasVectorData t; renderVectorData := renderVectorData t;
         arrowHead := arrowHead t; colMapper := colMapper t;
         vectorPenColor := vectorPenColor t; gridPenColor := gridPenColor t;
         vectorScale := vectorScale t;
         scaleValueToBlockSize := scaleValueToBlockSize t |} in
    let t2 :=
      if 5 <=? Z.of_nat (length row) then
        let f4 := default [] (row !! 4%nat) in
        if qeq f4 (qs "map") || qeq f4 (qs "range") then
          {| typeID := typeID t1; typeName := typeName t1;
             hasValueData := true; renderValueData := true;
             hasVectorData := hasVectorData t1;
             renderVectorData := renderVectorData t1;
             arrowHead := arrowHead t1; colMapper := colMapper t1;
             vectorPenColor := vectorPenColor t1;
             gridPenColor := gridPenColor t1;
             vectorScale := vectorScale t1;
             scaleValueToBlockSize := scaleValueToBlockSize t1 |}
        else if qeq f4 (qs "vector") || qeq f4 (qs "line") then
          {| typeID := typeID t1; typeName := typeName t1;
             hasValueData := hasValueData t1;
             renderValueData := renderValueData t1;
             hasVectorData := true; renderVectorData := true;
             arrowHead := if qeq f4 (qs "line") then arrowHead_none
                          else arrowHead t1;
             colMapper := colMapper t1;
             vectorPenColor := vectorPenColor t1;
             gridPenColor := gridPenColor t1;
             vectorScale := vectorScale t1;
             scaleValueToBlockSize := scaleValueToBlockSize t1 |}
        else t1
      else t1 in
    Ok (mkHeader (obj st) true t2))).

Definition withMapper (t : StatisticsType) (cm : colorMapper) : StatisticsType :=
  {| typeID := typeID t; typeName := typeName t;
     hasValueData := hasValueData t; renderValueData := renderValueData t;
     hasVectorData := hasVectorData t; renderVectorData := renderVectorData t;
     arrowHead := arrowHead t; colMapper := cm;
     vectorPenColor := vectorPenColor t; gridPenColor := gridPenColor t;
     vectorScale := vectorScale t;
     scaleValueToBlockSize := scaleValueToBlockSize t |}.

Definition withPens (t : StatisticsType) (vp gp : QColor) : StatisticsType :=
  {| typeID := typeID t; typeName := typeName t;
     hasValueData := hasValueData t; renderValueData := renderValueData t;
     hasVectorData := hasVectorData t; renderVectorData := renderVectorData t;
     arrowHead := arrowHead t; colMapper := colMapper t;
     vectorPenColor := vp; gridPenColor := gp;
     vectorScale := vectorScale t;
     scaleValueToBlockSize := scaleValueToBlockSize t |}.

Definition withScale (t : StatisticsType) (sc : Z) (toBlock : bool) : StatisticsType :=
  {| typeID := typeID t; typeName := typeName t;
     hasValueData := hasValueData t; renderValueData := renderValueData t;
     hasVectorData := hasVectorData t; renderVectorData := renderVectorData t;
     arrowHead := arrowHead t; colMapper := colMapper t;
     vectorPenColor := vectorPenColor t; gridPenColor := gridPenColor t;
     vectorScale := sc; scaleValueToBlockSize := toBlock |}.

Definition setType (st : header) (t : StatisticsType) : header :=
  mkHeader (obj st) (typeParsingActive st) t.

(** The chain of [else if] over the record kind [f1 = rowItemList[1]]. *)
Definition headerKind (row : QStringList) (f1 : QString) (st : header) : outcome header :=
  let t := aType st in
  if qeq f1 (qs "type") then headerType row st
  else if qeq f1 (qs "mapColor") then
    field row 2 (fun f2 => field row 3 (fun f3 => field row 4 (fun f4 =>
    field row 5 (fun f5 => field row 6 (fun f6 =>
      Ok (setType st (withMapper t
            (mapInsert (colMapper t) (toInt f2) (uc f3, uc f4, uc f5, uc f6)))))))))
  else if qeq f1 (qs "range") then
    field row 2 (fun f2 => field row 4 (fun f4 => field row 6 (fun f6 =>
    field row 8 (fun f8 => field row 10 (fun f10 =>
    field row 3 (fun f3 => field row 5 (fun f5 => field row 7 (fun f7 =>
    field row 9 (fun f9 => field row 11 (fun f11 =>
      Ok (setType st (withMapper t
            (gradientMapper (toInt f2) (uc f4, uc f6, uc f8, uc f10)
                            (toInt f3) (uc f5, uc f7, uc f9, uc f11))))))))))))))
  else if qeq f1 (qs "defaultRange") then
    field row 2 (fun f2 => field row 3 (fun f3 => field row 4 (fun f4 =>
      Ok (setType st (withMapper t (namedMapper f4 (toInt f2) (toInt f3)))))))
  else if qeq f1 (qs "vectorColor") then
    field row 2 (fun f2 => field row 3 (fun f3 => field row 4 (fun f4 =>
    field row 5 (fun f5 =>
      Ok (setType st (withPens t (uc f2, uc f3, uc f4, uc f5) (gridPenColor t)))))))
  else if qeq f1 (qs "gridColor") then
    field row 2 (fun f2 => field row 3 (fun f3 => field row 4 (fun f4 =>
      Ok (setType st (withPens t (vectorPenColor t) (uc f2, uc f3, uc f4, 255))))))
  else if qeq f1 (qs "scaleFactor") then
    field row 2 (fun f2 =>
      Ok (setType st (withScale t (toInt f2) (scaleValueToBlockSize t))))
  else if qeq f1 (qs "scaleToBlockSize") then
    field row 2 (fun f2 =>
      Ok (setType st (withScale t (vectorScale t) (qeq f2 (qs "1")))))
  else if qeq f1 (qs "seq-specs") then
    field row 2 (fun seqName => field row 3 (fun layerId =>
    field row 4 (fun f4 => field row 5 (fun f5 =>
      let width := toInt f4 in
      let height := toInt f5 in
      let it1 :=
        if (0 <? width) && (0 <? height)
        then setStatSource (obj st) (setFrameSize (statSource (obj st)) (width, height))
        else obj st in
      field row 6 (fun f6 =>
        let it2 := if positiveDouble f6 then setFrameRate it1 (Some f6) else it1 in
        Ok (mkHeader it2 (typeParsingActive st) t))))))
  else Ok st.

(** The body of the loop for one line; the flag says that the function
    returns. *)
Definition headerLine (aLine : QString) (st : header) : outcome (bool * header) :=
  let rowItemList := parseCSVLine aLine ";"%char in
  field rowItemList 0 (fun f0 =>
    if isEmpty f0 then Ok (false, st) else
    field rowItemList 1 (fun f1 =>
      let finish :=
        (qeq f1 (qs "type") || negb (startsWithPercent f0)) && typeParsingActive st in
      let st1 :=
        if finish
        then mkHeader (setStatSource (obj st) (addStatType (statSource (obj st)) (aType st)))
                      false newType
        else st in
      if finish && negb (startsWithPercent f0) then Ok (true, st1)
      else
        match headerKind rowItemList f1 st1 with
        | Ok st2 => Ok (false, st2)
        | Throw m st2 => Throw m (false, st2)
        | Crash => Crash
        end)).

(** [while (!file.atEnd())] *)
Fixpoint headerLoop (lines : list QString) (st : header) : outcome header :=
  match lines with
  | [] => Ok st
  | aLine :: rest =>
      match headerLine aLine st with
      | Ok (true, st') => Ok st'
      | Ok (false, st') => headerLoop rest st'
      | Throw m (_, st') => Throw m st'
      | Crash => Crash
      end
  end.

Definition readHeaderFromFile (fileOk : bool) (file : list ascii) (it : item) : outcome item :=
  if negb fileOk then Ok it else
  let it0 := setStatSource it (clearStatTypes (statSource it)) in
  match headerLoop (readLines file) (mkHeader it0 false newType) with
  | Ok st => Ok (obj st)
  | Throw m st => Ok (setError (obj st) (msgPrefix ++ m))
  | Crash => Crash
  end.

End Header.

(* ================================================================== *)
(** ** Frame/type data loader: loadStatisticToCache *)
(* ================================================================== *)

(** [cache[type]] as a value: the entry, empty when absent. *)
Definition entry (c : gmap Z statisticsData) (t : Z) : statisticsData :=
  default [] (c !! t).

(** [statSource.statsCache[type].add...] followed by the same call on
    [chartStatSource]. *)
Definition addToCaches (it : item) (t : Z) (add : statisticsData -> statisticsData) : item :=
  let s := statSource it in
  let it1 :=
    setStatSource it (setCache s (<[t := add (entry (statsCache s) t)]> (statsCache s))) in
  let c := chartStatSource it1 in
  setChartStatSource it1
    (setCache c (<[t := add (entry (statsCache c) t)]> (statsCache c))).

(** [values[i] = rowItemList[i].toInt()] under a guard; [values] starts
    as zeros. *)
Definition fieldIf {S : Type} (guard : bool) (row : QStringList) (i : nat)
    (k : Z -> outcome S) : outcome S :=
  if guard then field row i (fun f => k (toInt f)) else k 0.

(** The body of the loop for one line; the flag says that the loop is
    left by [break]. *)
Definition loadRecord (frameIdxInternal typeID : Z) (aLine : QString) (it : item)
    : outcome (bool * item) :=
  let rowItemList := parseCSVLine aLine ";"%char in
  field rowItemList 0 (fun f0 =>
  if isEmpty f0 then Ok (false, it) else
  field rowItemList 5 (fun f5 =>
  let poc := toInt f0 in
  let type := toInt f5 in
  if negb (poc =? frameIdxInternal) then Ok (true, it)
  else if negb (fileSortedByPOC it) && negb (type =? typeID) then Ok (true, it)
  else
  field rowItemList 6 (fun f6 =>
  let v0 := toInt f6 in
  let count := Z.of_nat (length rowItemList) in
  fieldIf (7 <? count) rowItemList 7 (fun v1 =>
  fieldIf (8 <? count) rowItemList 8 (fun v2 =>
  fieldIf (8 <? count) rowItemList 9 (fun v3 =>
  let lineData := 8 <? count in
  let vectorData := (7 <? count) && negb lineData in
  field rowItemList 1 (fun f1 =>
  field rowItemList 2 (fun f2 =>
  field rowItemList 3 (fun f3 =>
  field rowItemList 4 (fun f4 =>
  let posX := toInt f1 in
  let posY := toInt f2 in
  let width := uintToInt (toUInt f3) in
  let height := uintToInt (toUInt f4) in
  let it1 :=
    if (blockOutsideOfFrame_idx it =? -1)
       && ((fst (statFrameSize (statSource it)) <? posX + width)
           || (snd (statFrameSize (statSource it)) <? posY + height))
    then setOutside it frameIdxInternal else it in
  match getStatisticsType (statSource it1) type with
  | None => Crash
  | Some statsType =>
      if vectorData && hasVectorData statsType then
        Ok (false, addToCaches it1 type
                     (fun d => addBlockVector d posX posY width height v0 v1))
      else if lineData && hasVectorData statsType then
        Ok (false, addToCaches it1 type
                     (fun d => addLine d posX posY width height v0 v1 v2 v3))
      else
        Ok (false, addToCaches it1 type
                     (fun d => addBlockValue d posX posY width height v0))
  end)))))))))).

(** [while (!in.atEnd())] over the lines still to be read. *)
Fixpoint loadLoop (frameIdxInternal typeID : Z) (lines : list QString) (it : item)
    : outcome item :=
  match lines with
  | [] => Ok it
  | aLine :: rest =>
      match loadRecord frameIdxInternal typeID aLine it with
      | Ok (true, it') => Ok it'
      | Ok (false, it') => loadLoop frameIdxInternal typeID rest it'
      | Throw m (_, it') => Throw m it'
      | Crash => Crash
      end
  end.

(** The values of [pocTypeStartList[frameIdxInternal]], as the range-for
    visits them. *)
Definition offsetsOf (m : gmap Z (gmap Z Z)) (poc : Z) : list Z :=
  (map_to_list (inner m poc)).*2.

(** The running minimum of the range-for loop. *)
Definition minStep (startPos value : Z) : Z :=
  if value <? startPos then value else startPos.

(** The position the stream is set to before the loop. *)
Definition scanStartPos (it : item) (frameIdxInternal typeID : Z) : Z :=
  let startPos := default 0 (inner (pocTypeStartList it) frameIdxInternal !! typeID) in
  if fileSortedByPOC it then
    fold_left minStep (offsetsOf (pocTypeStartList it) frameIdxInternal) INT64_MAX
  else startPos.

(** [cache.insert(typeID, statisticsData())] on both handlers. *)
Definition insertEmpty (it : item) (typeID : Z) : item :=
  let s := statSource it in
  let it1 := setStatSource it (setCache s (<[typeID := []]> (statsCache s))) in
  let c := chartStatSource it1 in
  setChartStatSource it1 (setCache c (<[typeID := []]> (statsCache c))).

Definition loadStatisticToCache (fileOk : bool) (file : list ascii)
    (frameIdxInternal typeID : Z) (it : item) : outcome item :=
  if negb fileOk then Ok it else
  let m := pocTypeStartList it in
  if negb (containsPOC m frameIdxInternal)
     || negb (containsType m frameIdxInternal typeID)
  then Ok (insertEmpty it typeID)
  else
    let startPos := scanStartPos it frameIdxInternal typeID in
    match loadLoop frameIdxInternal typeID (textLinesFrom file startPos) it with
    | Ok it' => Ok it'
    | Throw msg it' => Ok (setError it' (msgPrefix ++ msg))
    | Crash => Crash
    end.

(* ================================================================== *)
(** ** Vocabulary of the properties *)
(* ================================================================== *)

(** What a decodable record appends to the entry of its type: the
    classification by the number of value fields [f6 :: vs], on a type
    with or without vector data. *)
Definition storedItem (hasVec : bool) (x y w h : Z) (f6 : QString) (vs : QStringList)
    : statItem :=
  match vs with
  | [] => BlockValue x y w h (toInt f6)
  | [f7] =>
      if hasVec then BlockVector x y w h (toInt f6) (toInt f7)
      else BlockValue x y w h (toInt f6)
  | f7 :: f8 :: f9 :: _ =>
      if hasVec then Line x y w h (toInt f6) (toInt f7) (toInt f8) (toInt f9)
      else BlockValue x y w h (toInt f6)
  | [_; _] => BlockValue x y w h (toInt f6)
  end.

(** The entry of [t] grows by [x] in both caches and nothing else
    changes there; no error is recorded and the index is untouched. *)
Definition appended (it it' : item) (t : Z) (x : statItem) : Prop :=
  statsCache (statSource it')
  = <[t := entry (statsCache (statSource it)) t ++ [x]]> (statsCache (statSource it))
  /\ statsCache (chartStatSource it')
     = <[t := entry (statsCache (chartStatSource it)) t ++ [x]]>
         (statsCache (chartStatSource it))
  /\ parsingError it' = parsingError it
  /\ pocTypeStartList it' = pocTypeStartList it
  /\ fileSortedByPOC it' = fileSortedByPOC it.

(** The state after the first [k] buffers, one buffer at a time as the
    loop takes them. *)
Fixpoint afterChunks (bufSize : Z) (file : list ascii) (k : nat) (st : scan)
    : outcome scan :=
  match k with
  | O => Ok st
  | S k' =>
      afterChunks bufSize file k' st >>> (fun st' =>
        let bufferStartPos := Z.of_nat k' * bufSize in
        scanBuffer bufferStartPos 0 (readBytes file bufferStartPos bufSize) st')
  end.

(** What [processLine] makes of a line. *)
Inductive lineKind :=
| Skipped
| Malformed
| Data (poc ty : Z).

Definition classify (l : QString) : lineKind :=
  let row := parseCSVLine l ";"%char in
  match row !! 0%nat with
  | None => Malformed
  | Some f0 =>
      if negb (isEmpty f0) && negb (startsWithPercent f0) then
        match row !! 5%nat with
        | Some f5 => Data (toInt f0) (toInt f5)
        | None => Malformed
        end
      else Skipped
  end.

(** A file whose lines all end with a line feed. *)
Fixpoint fileOfLines (lines : list QString) : list ascii :=
  match lines with
  | [] => []
  | l :: ls => l ++ LF :: fileOfLines ls
  end.

(** The data records of the lines with the byte offsets of their lines,
    the first line starting at [pos]. *)
Fixpoint records (pos : Z) (lines : list QString) : list (Z * Z * Z) :=
  match lines with
  | [] => []
  | l :: ls =>
      match classify l with
      | Data poc ty => [(poc, ty, pos)]
      | _ => []
      end ++ records (pos + Z.of_nat (length l) + 1) ls
  end.

(** The offset of the first record of a pair. *)
Fixpoint firstOffset (recs : list (Z * Z * Z)) (poc ty : Z) : option Z :=
  match recs with
  | [] => None
  | (k, o) :: rs => if decide (k = (poc, ty)) then Some o else firstOffset rs poc ty
  end.

(** Every element is new or repeats the element just before it. *)
Fixpoint contiguousFrom {A : Type} (seen : list A) (ks : list A) : Prop :=
  match ks with
  | [] => True
  | k :: ks' => (k ∈ seen -> last seen = Some k) /\ contiguousFrom (seen ++ [k]) ks'
  end.

Definition contiguous {A : Type} (ks : list A) : Prop := contiguousFrom [] ks.

(** Whether the first change between consecutive pairs keeps the POC
    (and so changes the typeID). *)
Fixpoint interleavedStart (prev : option (Z * Z)) (ks : list (Z * Z)) : bool :=
  match ks with
  | [] => false
  | k :: ks' =>
      match prev with
      | None => interleavedStart (Some k) ks'
      | Some k0 => if decide (k = k0) then interleavedStart (Some k0) ks'
                   else bool_decide (k.1 = k0.1)
      end
  end.

(** The state of the scan after the data records [done]. *)
Definition indexed (done : list (Z * Z * Z)) (st : scan) : Prop :=
  (forall p t, lookupPos (pocTypeStartList (self st)) p t = firstOffset done p t)
  /\ (forall p, is_Some (pocTypeStartList (self st) !! p) -> p ∈ done.*1.*1)
  /\ match last done.*1 with
     | None => lastPOC st = -1 /\ lastType st = -1
     | Some k => lastPOC st = k.1 /\ lastType st = k.2
     end
  /\ (sortingFixed st = false ->
      fileSortedByPOC (self st) = false
      /\ forall k, k ∈ done.*1 -> last done.*1 = Some k).

(** The layout flag at the end of the scan, seen from a state with the
    pairs [ks] still to come after the pair [prev]. *)
Definition finalSorted (st : scan) (prev : option (Z * Z)) (ks : list (Z * Z)) : bool :=
  if sortingFixed st then fileSortedByPOC (self st) else interleavedStart prev ks.

(* ================================================================== *)
(** ** Example data *)
(* ================================================================== *)

(** An index of an interleaved file: frame 0 has type 2 at offset 14 and
    type 1 at offset 0. *)
Definition interleavedIndex : item :=
  setSorted (setIndex newItem (setPos (setPos ∅ 0 2 14) 0 1 0)) true.

(** A type declared with [vector] and a type declared with [range]. *)
Definition vectorType (id : Z) : StatisticsType :=
  {| typeID := id; typeName := qs "MV";
     hasValueData := false; renderValueData := false;
     hasVectorData := true; renderVectorData := true;
     arrowHead := arrowHead_arrow; colMapper := defaultMapper;
     vectorPenColor := black; gridPenColor := black;
     vectorScale := 1; scaleValueToBlockSize := false |}.

Definition valueType (id : Z) : StatisticsType :=
  {| typeID := id; typeName := qs "QP";
     hasValueData := true; renderValueData := true;
     hasVectorData := false; renderVectorData := false;
     arrowHead := arrowHead_arrow; colMapper := defaultMapper;
     vectorPenColor := black; gridPenColor := black;
     vectorScale := 1; scaleValueToBlockSize := false |}.

(** An opened interleaved file with a vector type 1 and a value type 2,
    frames of 64x64, whose frame 0 starts at offset 0. *)
Definition loaderItem : item :=
  let h := setFrameSize (addStatType (addStatType emptyHandler (vectorType 1))
                           (valueType 2)) (64, 64) in
  setChartStatSource (setStatSource interleavedIndex h) h.

Definition loaderFile : list ascii :=
  qs "0;0;0;8;8;1;3;4" ++ [LF] ++ qs "0;0;0;8;8;2;7;9" ++ [LF]
  ++ qs "1;0;0;8;8;1;5;5" ++ [LF].

(** The scan of a sequential file whose layout is decided, in front of
    two lines that look interleaved. *)
Definition decidedScan : scan :=
  withFixed (withLast (startScan newItem) 0 1) true.

(** A sequential file in which (POC 3, type 1) comes back after POC 4. *)
Definition returningPrefix : list ascii :=
  qs "3;0;0;8;8;1;5" ++ [LF] ++ qs "4;0;0;8;8;1;7" ++ [LF] ++ qs "3;0;0;8;8;1;9".

Definition returningScan : scan :=
  match scanBuffer 0 0 returningPrefix (startScan newItem) with
  | Ok st => st
  | _ => startScan newItem
  end.

Definition threeLines : list ascii :=
  qs "0;0;0;8;8;1;5" ++ [LF] ++ qs "1;0;0;8;8;1;7" ++ [LF]
  ++ qs "2;0;0;8;8;1;9" ++ [LF].

Definition afterTwoChunks : scan :=
  match afterChunks 16 threeLines 2 (startScan newItem) with
  | Ok st => st
  | _ => startScan newItem
  end.

(** A header line, two frames of type 1, an empty line and a frame of
    type 2. *)
Definition sequentialLines : list QString :=
  [qs "%;type;1;MV;vector"; qs "0;0;0;8;8;1;5"; qs "1;0;0;8;8;1;7"; [];
   qs "0;0;0;8;8;2;9"].

(* ================================================================== *)
(** ** Chart helpers: isRangeInside and the ordering of the groups *)
(* ================================================================== *)

(** [indexRange] is a pair of [int]s, first and last frame. *)
Definition indexRange : Type := Z * Z.

(** [playlistItemStatisticsFile::isRangeInside] *)
Definition isRangeInside (aOriginalRange aCheckRange : indexRange) : bool :=
  let wrongDimensionsOriginalRange := aOriginalRange.2 <? aOriginalRange.1 in
  let wrongDimensionsCheckRange := aCheckRange.2 <? aCheckRange.1 in
  let firstdimension := aOriginalRange.1 <=? aCheckRange.1 in
  let seconddimension := aCheckRange.2 <=? aOriginalRange.2 in
  wrongDimensionsOriginalRange || wrongDimensionsCheckRange
  || (firstdimension && seconddimension).

(** The characters of a label before its first ['x']: [numberString]
    after the inner loop of [getSmallestKey]. *)
Fixpoint numberPrefix (label : QString) : QString :=
  match label with
  | [] => []
  | c :: rest => if Ascii.eqb c "x"%char then [] else c :: numberPrefix rest
  end.

(** The number read from a label. *)
Definition labelNumber (label : QString) : Z := toInt (numberPrefix label).

(** One round of the [foreach] of [getSmallestKey] on
    ([smallestFoundNumber], [resultKey]). *)
Definition smallestStep (acc : Z * QString) (label : QString) : Z * QString :=
  let number := labelNumber label in
  if number <? acc.1 then (number, label) else acc.

(** The lambda [getSmallestKey] of [sortAndCategorizeData]. *)
Definition getSmallestKey (aMapKeys : list QString) : QString :=
  (fold_left smallestStep aMapKeys (INT_MAX, [])).2.

(** The order in which the [while] loops of [sortAndCategorizeData] take
    the labels out of a map with the keys [keys]: the smallest key is
    appended to the result and removed from the map, [n] times.  A key
    that the map does not hold yields a null map, whose use is a
    crash. *)
Fixpoint takeSmallest (n : nat) (keys : list QString) : outcome (list QString) :=
  match n with
  | O => Ok []
  | S n' =>
      let key := getSmallestKey keys in
      if bool_decide (key ∈ keys) then
        match takeSmallest n' (List.filter (fun k => negb (qeq k key)) keys) with
        | Ok rest => Ok (key :: rest)
        | r => r
        end
      else Crash
  end.

(** [maxElementsToNeed] is the number of keys. *)
Definition orderLabels (keys : list QString) : outcome (list QString) :=
  takeSmallest (length keys) keys.

(** The labels come with ascending numbers. *)
Fixpoint ascending (labels : list QString) : Prop :=
  match labels with
  | [] => True
  | a :: rest =>
      Forall (fun b => labelNumber a <= labelNumber b) rest /\ ascending rest
  end.

(* ================================================================== *)
(** ** Reload: reloadItemSource *)
(* ================================================================== *)

(** The members [reloadItemSource] sets before it reopens the file, for
    an item whose background parser is not running. *)
Definition resetForReload (it : item) : item :=
  {| pocTypeStartList := ∅; fileSortedByPOC := false; maxPOC := 0;
     blockOutsideOfFrame_idx := -1; parsingError := [];
     statSource := setCache (statSource it) ∅;
     chartStatSource := chartStatSource it; frameRate := frameRate it |}.

(** [reloadItemSource] up to the start of the background parser. *)
Definition reloadItemSource (positiveDouble : QString -> bool) (fileOk : bool)
    (file : list ascii) (it : item) : outcome item :=
  let it0 := resetForReload it in
  if negb fileOk then Ok it0
  else readHeaderFromFile positiveDouble fileOk file it0.

(* ================================================================== *)
(** ** Further vocabulary *)
(* ================================================================== *)

(** [QStringList::join] with a one-character separator. *)
Fixpoint joinWith (d : ascii) (fields : QStringList) : QString :=
  match fields with
  | [] => []
  | [f] => f
  | f :: rest => f ++ d :: joinWith d rest
  end.



(** The members the header reader leaves alone. *)
Definition sameOutsideHeader (it it' : item) : Prop :=
  pocTypeStartList it' = pocTypeStartList it
  /\ fileSortedByPOC it' = fileSortedByPOC it
  /\ maxPOC it' = maxPOC it
  /\ blockOutsideOfFrame_idx it' = blockOutsideOfFrame_idx it
  /\ parsingError it' = parsingError it
  /\ chartStatSource it' = chartStatSource it
  /\ statsCache (statSource it') = statsCache (statSource it).

(** The type a [type] record declares, starting from a fresh
    [StatisticsType]. *)
Definition declaredType (row : QStringList) : StatisticsType :=
  let f2 := default [] (row !! 2%nat) in
  let f3 := default [] (row !! 3%nat) in
  let f4 := default [] (row !! 4%nat) in
  let valueKind := (5 <=? Z.of_nat (length row))
                   && (qeq f4 (qs "map") || qeq f4 (qs "range")) in
  let vectorKind := (5 <=? Z.of_nat (length row)) && negb valueKind
                    && (qeq f4 (qs "vector") || qeq f4 (qs "line")) in
  {| typeID := toInt f2; typeName := f3;
     hasValueData := valueKind; renderValueData := valueKind;
     hasVectorData := vectorKind; renderVectorData := vectorKind;
     arrowHead := if vectorKind && qeq f4 (qs "line") then arrowHead_none
                  else arrowHead_arrow;
     colMapper := defaultMapper;
     vectorPenColor := black; gridPenColor := black;
     vectorScale := 1; scaleValueToBlockSize := false |}.

(** A header line that is a [type] record with its ID and name. *)
Definition typeRecord (l : QString) : Prop :=
  exists f0 f2 f3 rest,
    parseCSVLine l ";"%char = f0 :: qs "type" :: f2 :: f3 :: rest
    /\ startsWithPercent f0 = true.

(** A line with at least two fields whose first field is not empty and
    does not start with the header sign. *)
Definition dataLine (l : QString) : Prop :=
  exists f0 f1 rest,
    parseCSVLine l ";"%char = f0 :: f1 :: rest
    /\ isEmpty f0 = false /\ startsWithPercent f0 = false.

(** The handler after the types of the [type] records [ls] were added
    in the order of the lines. *)
Definition registerAll (h : statisticHandler) (ls : list QString) : statisticHandler :=
  fold_left addStatType
    ((fun l => declaredType (parseCSVLine l ";"%char)) <$> ls) h.

(** What the loader leaves alone when it is asked for frame [frameIdx]:
    everything but the two caches and the warning flag, which is only
    ever set from -1 to the frame. *)
Definition loaderKeeps (frameIdx : Z) (it it' : item) : Prop :=
  pocTypeStartList it' = pocTypeStartList it
  /\ fileSortedByPOC it' = fileSortedByPOC it
  /\ maxPOC it' = maxPOC it
  /\ parsingError it' = parsingError it
  /\ frameRate it' = frameRate it
  /\ statsTypeList (statSource it') = statsTypeList (statSource it)
  /\ statFrameSize (statSource it') = statFrameSize (statSource it)
  /\ statsTypeList (chartStatSource it') = statsTypeList (chartStatSource it)
  /\ statFrameSize (chartStatSource it') = statFrameSize (chartStatSource it)
  /\ (blockOutsideOfFrame_idx it' = blockOutsideOfFrame_idx it
      \/ (blockOutsideOfFrame_idx it = -1 /\ blockOutsideOfFrame_idx it' = frameIdx)).

(** What the loader appends for a line, and to which entry: the item of
    [storedItem] for the registered type of the line.  Lines with fewer
    than seven or with exactly nine fields, and lines of a type that is
    not registered, are not decoded. *)
Definition decodedRecord (h : statisticHandler) (l : QString) : option (Z * statItem) :=
  match parseCSVLine l ";"%char with
  | f0 :: f1 :: f2 :: f3 :: f4 :: f5 :: f6 :: vs =>
      match getStatisticsType h (toInt f5) with
      | Some sty =>
          if bool_decide (length vs = 2%nat) then None
          else Some (toInt f5,
                     storedItem (hasVectorData sty) (toInt f1) (toInt f2)
                       (uintToInt (toUInt f3)) (uintToInt (toUInt f4)) f6 vs)
      | None => None
      end
  | _ => None
  end.

(** A line of the requested frame that passes the type test and is
    decoded as [r]. *)
Definition decodes (frameIdx typeID : Z) (it : item) (l : QString) (r : Z * statItem)
    : Prop :=
  decodedRecord (statSource it) l = Some r
  /\ (exists f0, parseCSVLine l ";"%char !! 0%nat = Some f0
                 /\ isEmpty f0 = false /\ toInt f0 = frameIdx)
  /\ (fileSortedByPOC it = true \/ r.1 = typeID).

(** A line at which the loop is left: a record of another frame or, in
    a file not sorted by POC, of another type. *)
Definition stops (frameIdx typeID : Z) (it : item) (l : QString) : Prop :=
  exists f0 f5,
    parseCSVLine l ";"%char !! 0%nat = Some f0
    /\ parseCSVLine l ";"%char !! 5%nat = Some f5
    /\ isEmpty f0 = false
    /\ (toInt f0 <> frameIdx
        \/ (fileSortedByPOC it = false /\ toInt f5 <> typeID)).

(** The items of a type among decoded records, in the order of the
    lines. *)
Definition itemsOf (t : Z) (recs : list (Z * statItem)) : list statItem :=
  (List.filter (fun r => r.1 =? t) recs).*2.
(* ================================================================== *)
(** ** Properties of the loader *)
(* ================================================================== *)

Lemma lookupPos_contains m poc ty :
  containsPOC m poc && containsType m poc ty = true <-> is_Some (lookupPos m poc ty).
Proof.
  unfold containsPOC, containsType, lookupPos, inner.
  rewrite andb_true_iff, !bool_decide_eq_true.
  destruct (m !! poc) as [tm|] eqn:E; simpl.
  - split; [intros [_ H]; exact H | intros H; split; [eauto | exact H]].
  - split; [intros [[x Hx] _]; discriminate | intros [x Hx]; discriminate].
Qed.

Lemma absent_guard m poc ty :
  lookupPos m poc ty = None ->
  negb (containsPOC m poc) || negb (containsType m poc ty) = true.
Proof.
  intros H. rewrite <- negb_andb. apply negb_true_iff.
  destruct (containsPOC m poc && containsType m poc ty) eqn:E; [|done].
  apply lookupPos_contains in E. rewrite H in E. by destruct E.
Qed.

Lemma present_guard m poc ty o :
  lookupPos m poc ty = Some o ->
  negb (containsPOC m poc) || negb (containsType m poc ty) = false.
Proof.
  intros H. rewrite <- negb_andb. apply negb_false_iff.
  apply lookupPos_contains. rewrite H. eauto.
Qed.

(** C8. A request for a (frame, type) pair without a recorded offset
    stores an empty entry for that type in the live-render cache and in
    the chart cache, which differs from the absent entry of a type never
    requested, leaves every other entry alone, raises no error, and does
    not depend on the contents of the file. *)
Theorem load_absent_marks_empty (file : list ascii) (frameIdx tyID : Z) (it : item) :
  lookupPos (pocTypeStartList it) frameIdx tyID = None ->
  exists it',
    loadStatisticToCache true file frameIdx tyID it = Ok it'
    /\ statsCache (statSource it') !! tyID = Some []
    /\ statsCache (chartStatSource it') !! tyID = Some []
    /\ statsCache (statSource it') !! tyID <> None
    /\ (forall t, t <> tyID ->
          statsCache (statSource it') !! t = statsCache (statSource it) !! t
          /\ statsCache (chartStatSource it') !! t
             = statsCache (chartStatSource it) !! t)
    /\ parsingError it' = parsingError it
    /\ pocTypeStartList it' = pocTypeStartList it
    /\ (forall file', loadStatisticToCache true file' frameIdx tyID it = Ok it').
Proof.
  intros Habs. exists (insertEmpty it tyID).
  unfold loadStatisticToCache. simpl negb. cbv iota.
  rewrite (absent_guard _ _ _ Habs).
  repeat split; simpl; try by rewrite lookup_insert_eq.
  - by rewrite lookup_insert_ne.
  - by rewrite lookup_insert_ne.
Qed.

Lemma load_absent_marks_empty_witness :
  exists it',
    loadStatisticToCache true (qs "0;0;0;8;8;1;5") 3 1 newItem = Ok it'
    /\ statsCache (statSource it') !! 1 = Some [].
Proof.
  destruct (load_absent_marks_empty (qs "0;0;0;8;8;1;5") 3 1 newItem)
    as (it' & H1 & H2 & _).
  - reflexivity.
  - exists it'. split; assumption.
Defined.

Lemma fold_min_le (l : list Z) (a : Z) :
  fold_left minStep l a <= a /\ (forall v, v ∈ l -> fold_left minStep l a <= v).
Proof.
  revert a. induction l as [|x l IH]; intros a; simpl.
  - split; [lia | intros v Hv; by apply elem_of_nil in Hv].
  - destruct (IH (minStep a x)) as [H1 H2].
    assert (minStep a x <= a /\ minStep a x <= x) as [Ha Hx].
    { unfold minStep. destruct (Z.ltb_spec x a); lia. }
    split; [lia|].
    intros v Hv. apply elem_of_cons in Hv as [->|Hv]; [lia | by apply H2].
Qed.

Lemma fold_min_in (l : list Z) (a : Z) :
  fold_left minStep l a = a \/ fold_left minStep l a ∈ l.
Proof.
  revert a. induction l as [|x l IH]; intros a; simpl; [by left|].
  destruct (IH (minStep a x)) as [H|H].
  - rewrite H. unfold minStep. destruct (x <? a); [right; left | by left].
  - right. by right.
Qed.

Lemma offsetsOf_spec m poc v :
  v ∈ offsetsOf m poc <-> exists t, lookupPos m poc t = Some v.
Proof.
  unfold offsetsOf, lookupPos, inner. rewrite list_elem_of_fmap. split.
  - intros [[t v'] [-> H]]. apply elem_of_map_to_list in H. exists t.
    destruct (m !! poc); simpl in *; [done | by rewrite lookup_empty in H].
  - intros [t H]. exists (t, v). split; [done|].
    apply elem_of_map_to_list.
    destruct (m !! poc); simpl in *; [done | discriminate].
Qed.

(** C4. For a pair with a recorded offset the loader reads the lines of
    the file from [scanStartPos] on.  In a file sorted by POC
    (interleaved) this position is a recorded offset of the frame and no
    recorded offset of the frame is smaller, so it is their minimum; in
    the other case it is the recorded offset of the pair itself. *)
Theorem scan_start_offset (frameIdx tyID o : Z) (it : item) :
  lookupPos (pocTypeStartList it) frameIdx tyID = Some o ->
  (forall t v, lookupPos (pocTypeStartList it) frameIdx t = Some v -> v <= INT64_MAX) ->
  let startPos := scanStartPos it frameIdx tyID in
  (forall file,
      loadStatisticToCache true file frameIdx tyID it
      = match loadLoop frameIdx tyID (textLinesFrom file startPos) it with
        | Ok it' => Ok it'
        | Throw msg it' => Ok (setError it' (msgPrefix ++ msg))
        | Crash => Crash
        end)
  /\ (fileSortedByPOC it = true ->
        (exists t, lookupPos (pocTypeStartList it) frameIdx t = Some startPos)
        /\ (forall t v, lookupPos (pocTypeStartList it) frameIdx t = Some v ->
              startPos <= v))
  /\ (fileSortedByPOC it = false -> startPos = o).
Proof.
  intros Hpos Hmax startPos. split; [|split].
  - intros file. unfold loadStatisticToCache. simpl negb. cbv iota.
    by rewrite (present_guard _ _ _ _ Hpos).
  - intros Hs. subst startPos. unfold scanStartPos. rewrite Hs.
    fold minStep.
    pose proof (fold_min_le (offsetsOf (pocTypeStartList it) frameIdx) INT64_MAX)
      as [_ Hle].
    split.
    + destruct (fold_min_in (offsetsOf (pocTypeStartList it) frameIdx) INT64_MAX)
        as [He|Hin].
      * exists tyID. rewrite He.
        assert (o ∈ offsetsOf (pocTypeStartList it) frameIdx) as Ho
          by (apply offsetsOf_spec; eauto).
        specialize (Hle _ Ho). specialize (Hmax _ _ Hpos).
        rewrite He in Hle. rewrite Hpos. f_equal. lia.
      * by apply offsetsOf_spec in Hin.
    + intros t v Hv. apply Hle. apply offsetsOf_spec. eauto.
  - intros Hs. subst startPos. unfold scanStartPos. rewrite Hs.
    unfold lookupPos, inner in *.
    destruct (pocTypeStartList it !! frameIdx); simpl in *; [|discriminate].
    by rewrite Hpos.
Qed.

Lemma scan_start_offset_witness :
  scanStartPos interleavedIndex 0 2 = 0
  /\ forall t v, lookupPos (pocTypeStartList interleavedIndex) 0 t = Some v ->
       scanStartPos interleavedIndex 0 2 <= v.
Proof.
  assert (Hmax : forall t v,
             lookupPos (pocTypeStartList interleavedIndex) 0 t = Some v ->
             v <= INT64_MAX).
  { intros t v. unfold lookupPos, interleavedIndex, setPos, inner. simpl.
    rewrite !lookup_insert_eq. simpl.
    destruct (decide (t = 1)) as [->|H1].
    - rewrite lookup_insert_eq. intros [= <-]. done.
    - rewrite lookup_insert_ne by done.
      destruct (decide (t = 2)) as [->|H2].
      + rewrite lookup_insert_eq. intros [= <-]. done.
      + rewrite lookup_insert_ne by done. by rewrite lookup_empty. }
  destruct (scan_start_offset 0 2 14 interleavedIndex eq_refl Hmax)
    as (_ & Hs & _).
  destruct (Hs eq_refl) as [_ Hmin].
  split; [vm_compute; reflexivity | exact Hmin].
Defined.

Lemma appended_addToCaches (it : item) (b : bool) (f t : Z) (x : statItem) :
  appended it (addToCaches (if b then setOutside it f else it) t (fun d => d ++ [x])) t x.
Proof. destruct b; repeat split. Qed.

Lemma count_gt (n : Z) (l : QStringList) (k : nat) :
  n < Z.of_nat k -> (k <= length l)%nat -> (n <? Z.of_nat (length l)) = true.
Proof. intros. apply Z.ltb_lt. lia. Qed.

Lemma count_le (n : Z) (l : QStringList) :
  Z.of_nat (length l) <= n -> (n <? Z.of_nat (length l)) = false.
Proof. intros. apply Z.ltb_ge. lia. Qed.

(** A record of the requested frame that passes the type test and has
    seven, eight or at least ten fields is decoded and stored under its
    own type. *)
Lemma loadRecord_stores (frameIdx tyID : Z) (aLine : QString) (it : item)
    (f0 f1 f2 f3 f4 f5 f6 : QString) (vs : QStringList) (sty : StatisticsType) :
  parseCSVLine aLine ";"%char = f0 :: f1 :: f2 :: f3 :: f4 :: f5 :: f6 :: vs ->
  isEmpty f0 = false ->
  toInt f0 = frameIdx ->
  fileSortedByPOC it = true \/ toInt f5 = tyID ->
  getStatisticsType (statSource it) (toInt f5) = Some sty ->
  length vs <> 2%nat ->
  exists it',
    loadRecord frameIdx tyID aLine it = Ok (false, it')
    /\ appended it it' (toInt f5)
         (storedItem (hasVectorData sty) (toInt f1) (toInt f2)
            (uintToInt (toUInt f3)) (uintToInt (toUInt f4)) f6 vs).
Proof.
  intros Hrow Hne Hpoc Hty Hsty Hlen.
  unfold loadRecord. rewrite Hrow. cbv zeta.
  unfold field at 1. cbn [lookup list_lookup]. rewrite Hne.
  unfold field at 1. cbn [lookup list_lookup].
  rewrite Hpoc, Z.eqb_refl. cbn [negb].
  assert (negb (fileSortedByPOC it) && negb (toInt f5 =? tyID) = false) as ->.
  { destruct Hty as [->| ->]; [done | rewrite Z.eqb_refl; by destruct (fileSortedByPOC it)]. }
  unfold field at 1. cbn [lookup list_lookup].
  assert (forall b : bool, getStatisticsType
            (statSource (if b then setOutside it frameIdx else it)) (toInt f5)
          = Some sty) as Hsty' by (by intros []).
  destruct vs as [|f7 [|f8 [|f9 vs]]].
  - rewrite !count_le by (simpl; lia). unfold fieldIf, field.
    cbn [lookup list_lookup andb negb]. rewrite Hsty'.
    eexists. split; [reflexivity | apply appended_addToCaches].
  - rewrite (count_gt 7 _ 8), !count_le by (simpl; lia). unfold fieldIf, field.
    cbn [lookup list_lookup andb negb]. rewrite Hsty'.
    destruct (hasVectorData sty); cbn [andb];
      (eexists; split; [reflexivity | apply appended_addToCaches]).
  - done.
  - rewrite (count_gt 7 _ 10), !(count_gt 8 _ 10) by (simpl; lia).
    unfold fieldIf, field.
    cbn [lookup list_lookup andb negb]. rewrite Hsty'.
    destruct (hasVectorData sty); cbn [andb];
      (eexists; split; [reflexivity | apply appended_addToCaches]).
Qed.

Lemma storedItem_value (x y w h : Z) (f6 : QString) (vs : QStringList) :
  storedItem false x y w h f6 vs = BlockValue x y w h (toInt f6).
Proof. by destruct vs as [|? [|? [|? ?]]]. Qed.

(** C1, as stated, fails: a record with two value fields whose type has
    no vector data is not dropped; both caches change. *)
Lemma mismatch_not_dropped_counterexample :
  exists sty it',
    getStatisticsType (statSource loaderItem) 2 = Some sty
    /\ hasVectorData sty = false
    /\ length (parseCSVLine (qs "0;0;0;8;8;2;7;9") ";"%char) = 8%nat
    /\ loadRecord 0 2 (qs "0;0;0;8;8;2;7;9") loaderItem = Ok (false, it')
    /\ statsCache (statSource loaderItem) !! 2 = None
    /\ statsCache (statSource it') !! 2 = Some [BlockValue 0 0 8 8 7]
    /\ statsCache (chartStatSource loaderItem) !! 2 = None
    /\ statsCache (chartStatSource it') !! 2 = Some [BlockValue 0 0 8 8 7].
Proof.
  eexists _, _. repeat split; vm_compute; reflexivity.
Qed.

(** C1, amended. A record with more than one value field (eight, or at
    least ten fields) whose type has no vector data is stored in both
    caches as a scalar block value made of its position, its size and its
    first value field; no error is raised. *)
Theorem mismatch_stored_as_value (frameIdx tyID : Z) (aLine : QString) (it : item)
    (f0 f1 f2 f3 f4 f5 f6 f7 : QString) (vs : QStringList) (sty : StatisticsType) :
  parseCSVLine aLine ";"%char = f0 :: f1 :: f2 :: f3 :: f4 :: f5 :: f6 :: f7 :: vs ->
  length vs <> 1%nat ->
  isEmpty f0 = false ->
  toInt f0 = frameIdx ->
  fileSortedByPOC it = true \/ toInt f5 = tyID ->
  getStatisticsType (statSource it) (toInt f5) = Some sty ->
  hasVectorData sty = false ->
  exists it',
    loadRecord frameIdx tyID aLine it = Ok (false, it')
    /\ appended it it' (toInt f5)
         (BlockValue (toInt f1) (toInt f2) (uintToInt (toUInt f3))
            (uintToInt (toUInt f4)) (toInt f6)).
Proof.
  intros Hrow Hlen Hne Hpoc Hty Hsty Hvec.
  destruct (loadRecord_stores frameIdx tyID aLine it f0 f1 f2 f3 f4 f5 f6
              (f7 :: vs) sty Hrow Hne Hpoc Hty Hsty) as (it' & Hr & Ha).
  { simpl. lia. }
  exists it'. split; [exact Hr|].
  by rewrite Hvec, storedItem_value in Ha.
Qed.

Lemma mismatch_stored_as_value_witness :
  exists it',
    loadRecord 0 2 (qs "0;0;0;8;8;2;7;9") loaderItem = Ok (false, it')
    /\ appended loaderItem it' 2 (BlockValue 0 0 8 8 7).
Proof.
  exact (mismatch_stored_as_value 0 2 (qs "0;0;0;8;8;2;7;9") loaderItem
           (qs "0") (qs "0") (qs "0") (qs "8") (qs "8") (qs "2") (qs "7") (qs "9")
           [] (valueType 2) eq_refl ltac:(simpl; lia) eq_refl eq_refl
           (or_introl eq_refl) eq_refl eq_refl).
Defined.

(** A non-empty record of another frame ends the loop and changes
    nothing. *)
Lemma loadRecord_other_poc (frameIdx tyID : Z) (r : QString) (f0 f5 : QString) (it : item) :
  parseCSVLine r ";"%char !! 0%nat = Some f0 ->
  parseCSVLine r ";"%char !! 5%nat = Some f5 ->
  isEmpty f0 = false ->
  toInt f0 <> frameIdx ->
  loadRecord frameIdx tyID r it = Ok (true, it).
Proof.
  intros H0 H5 Hne Hpoc. unfold loadRecord, field. cbv zeta.
  rewrite H0, Hne, H5.
  by rewrite (proj2 (Z.eqb_neq _ _) Hpoc).
Qed.

Lemma loadLoop_stops (frameIdx tyID : Z) (r : QString) (f0 f5 : QString)
    (pre post : list QString) (it : item) :
  parseCSVLine r ";"%char !! 0%nat = Some f0 ->
  parseCSVLine r ";"%char !! 5%nat = Some f5 ->
  isEmpty f0 = false ->
  toInt f0 <> frameIdx ->
  loadLoop frameIdx tyID (pre ++ r :: post) it = loadLoop frameIdx tyID pre it.
Proof.
  intros H0 H5 Hne Hpoc. revert it.
  induction pre as [|l pre IH]; intros it; simpl.
  - by rewrite (loadRecord_other_poc _ _ _ _ _ _ H0 H5 Hne Hpoc).
  - destruct (loadRecord frameIdx tyID l it) as [[[] it']|m [b it']|]; auto.
Qed.

(** C2, as stated, fails: in an interleaved file a request for type 1 of
    frame 0 also decodes the record of type 2 in that frame and adds it
    to the cache entry of type 2. *)
Lemma other_types_decoded_counterexample :
  exists it',
    fileSortedByPOC loaderItem = true
    /\ loadStatisticToCache true loaderFile 0 1 loaderItem = Ok it'
    /\ statsCache (statSource loaderItem) !! 2 = None
    /\ statsCache (statSource it') !! 2 = Some [BlockValue 0 0 8 8 7]
    /\ statsCache (chartStatSource it') !! 2 = Some [BlockValue 0 0 8 8 7].
Proof.
  eexists. repeat split; vm_compute; reflexivity.
Qed.

(** C2, amended. The loop stops at the first record whose POC differs
    from the requested frame: nothing after it is read.  In a file
    sorted by POC (interleaved) a record of the requested frame whose
    typeID differs from the requested one is decoded like any other and
    appended, in both caches, to the entry of its own typeID; the entry
    of the requested typeID is left as it is by that record. *)
Theorem interleaved_block_decoded (frameIdx tyID : Z) (it : item) :
  fileSortedByPOC it = true ->
  (forall (r f0 f5 : QString) (pre post : list QString),
      parseCSVLine r ";"%char !! 0%nat = Some f0 ->
      parseCSVLine r ";"%char !! 5%nat = Some f5 ->
      isEmpty f0 = false ->
      toInt f0 <> frameIdx ->
      loadLoop frameIdx tyID (pre ++ r :: post) it = loadLoop frameIdx tyID pre it)
  /\ (forall (aLine f0 f1 f2 f3 f4 f5 f6 : QString) (vs : QStringList)
        (sty : StatisticsType),
      parseCSVLine aLine ";"%char = f0 :: f1 :: f2 :: f3 :: f4 :: f5 :: f6 :: vs ->
      length vs <> 2%nat ->
      isEmpty f0 = false ->
      toInt f0 = frameIdx ->
      toInt f5 <> tyID ->
      getStatisticsType (statSource it) (toInt f5) = Some sty ->
      exists it',
        loadRecord frameIdx tyID aLine it = Ok (false, it')
        /\ appended it it' (toInt f5)
             (storedItem (hasVectorData sty) (toInt f1) (toInt f2)
                (uintToInt (toUInt f3)) (uintToInt (toUInt f4)) f6 vs)
        /\ statsCache (statSource it') !! tyID = statsCache (statSource it) !! tyID
        /\ statsCache (chartStatSource it') !! tyID
           = statsCache (chartStatSource it) !! tyID).
Proof.
  intros Hsorted. split.
  - intros r f0 f5 pre post H0 H5 Hne Hpoc. by eapply loadLoop_stops.
  - intros aLine f0 f1 f2 f3 f4 f5 f6 vs sty Hrow Hlen Hne Hpoc Hty Hsty.
    destruct (loadRecord_stores frameIdx tyID aLine it f0 f1 f2 f3 f4 f5 f6 vs sty
                Hrow Hne Hpoc (or_introl Hsorted) Hsty Hlen) as (it' & Hr & Ha).
    exists it'. split; [exact Hr|]. split; [exact Ha|].
    destruct Ha as (Hs & Hc & _). rewrite Hs, Hc.
    by rewrite !lookup_insert_ne.
Qed.

Lemma interleaved_block_decoded_witness :
  exists it',
    loadRecord 0 1 (qs "0;0;0;8;8;2;7") loaderItem = Ok (false, it')
    /\ appended loaderItem it' 2 (BlockValue 0 0 8 8 7)
    /\ statsCache (statSource it') !! 1 = statsCache (statSource loaderItem) !! 1.
Proof.
  destruct (interleaved_block_decoded 0 1 loaderItem eq_refl) as [_ H].
  destruct (H (qs "0;0;0;8;8;2;7") (qs "0") (qs "0") (qs "0") (qs "8") (qs "8")
              (qs "2") (qs "7") [] (valueType 2) eq_refl ltac:(simpl; lia)
              eq_refl eq_refl ltac:(vm_compute; discriminate) eq_refl)
    as (it' & Hr & Ha & Hs & _).
  exists it'. split; [exact Hr|]. split; [exact Ha | exact Hs].
Defined.

(** C10. For a record that reaches the decoding step (non-empty first
    field, the requested POC, type test passed): with nine fields the
    access to field 9 is out of range; with more than eight fields a
    run that survives has read fields 8 and 9, which on a type with
    vector data become the second end point of the stored line; hence a
    run that survives has at most eight or at least ten fields. *)
Theorem nine_fields_out_of_range (frameIdx tyID : Z) (aLine f0 f5 : QString) (it : item) :
  let row := parseCSVLine aLine ";"%char in
  row !! 0%nat = Some f0 ->
  row !! 5%nat = Some f5 ->
  isEmpty f0 = false ->
  toInt f0 = frameIdx ->
  fileSortedByPOC it = true \/ toInt f5 = tyID ->
  (length row = 9%nat -> loadRecord frameIdx tyID aLine it = Crash)
  /\ (loadRecord frameIdx tyID aLine it <> Crash ->
        (length row <= 8)%nat \/ (10 <= length row)%nat)
  /\ ((8 < length row)%nat -> loadRecord frameIdx tyID aLine it <> Crash ->
        exists f1 f2 f3 f4 f6 f7 f8 f9 sty it',
          row !! 1%nat = Some f1 /\ row !! 2%nat = Some f2
          /\ row !! 3%nat = Some f3 /\ row !! 4%nat = Some f4
          /\ row !! 6%nat = Some f6 /\ row !! 7%nat = Some f7
          /\ row !! 8%nat = Some f8 /\ row !! 9%nat = Some f9
          /\ getStatisticsType (statSource it) (toInt f5) = Some sty
          /\ loadRecord frameIdx tyID aLine it = Ok (false, it')
          /\ (hasVectorData sty = true ->
                appended it it' (toInt f5)
                  (Line (toInt f1) (toInt f2) (uintToInt (toUInt f3))
                     (uintToInt (toUInt f4))
                     (toInt f6) (toInt f7) (toInt f8) (toInt f9)))).
Proof.
  intros row H0 H5 Hne Hpoc Hty.
  assert (Hnine : length row = 9%nat -> loadRecord frameIdx tyID aLine it = Crash).
  { intros Hlen. unfold loadRecord. fold row. cbv zeta.
    unfold field at 1. rewrite H0, Hne.
    unfold field at 1. rewrite H5.
    rewrite Hpoc, Z.eqb_refl. cbn [negb].
    assert (negb (fileSortedByPOC it) && negb (toInt f5 =? tyID) = false) as ->.
    { destruct Hty as [->| ->];
        [done | rewrite Z.eqb_refl; by destruct (fileSortedByPOC it)]. }
    rewrite Hlen.
    destruct row as [|a0 [|a1 [|a2 [|a3 [|a4 [|a5 [|a6 [|a7 [|a8 [|a9 tl]]]]]]]]]];
      try discriminate Hlen.
    reflexivity. }
  split; [exact Hnine|].
  split.
  - intros Hok.
    destruct (decide (length row = 9%nat)) as [E|E]; [by apply Hnine in E | lia].
  - intros Hlen Hok.
    destruct (decide (length row = 9%nat)) as [E|E]; [by apply Hnine in E|].
    destruct row as [|a0 [|a1 [|a2 [|a3 [|a4 [|a5 [|a6 [|a7 [|a8 [|a9 tl]]]]]]]]]]
      eqn:Hrow; simpl in Hlen, E; try lia.
    simpl in H0, H5. injection H0 as ->. injection H5 as ->.
    destruct (getStatisticsType (statSource it) (toInt f5)) as [sty|] eqn:Hsty.
    + destruct (loadRecord_stores frameIdx tyID aLine it f0 a1 a2 a3 a4 f5 a6
                  (a7 :: a8 :: a9 :: tl) sty Hrow Hne Hpoc Hty Hsty)
        as (it' & Hr & Ha); [simpl; lia|].
      exists a1, a2, a3, a4, a6, a7, a8, a9, sty, it'.
      repeat (split; [reflexivity|]).
      split; [exact Hr|].
      intros Hv. by rewrite Hv in Ha.
    + exfalso. apply Hok. unfold loadRecord. fold row. rewrite Hrow. cbv zeta.
      unfold field at 1. cbn [lookup list_lookup]. rewrite Hne.
      unfold field at 1. cbn [lookup list_lookup].
      rewrite Hpoc, Z.eqb_refl. cbn [negb].
      assert (negb (fileSortedByPOC it) && negb (toInt f5 =? tyID) = false) as ->.
      { destruct Hty as [->| ->];
          [done | rewrite Z.eqb_refl; by destruct (fileSortedByPOC it)]. }
      rewrite (count_gt 7 _ 10), !(count_gt 8 _ 10) by (simpl; lia).
      unfold fieldIf, field. cbn [lookup list_lookup].
      assert (forall b : bool, getStatisticsType
                (statSource (if b then setOutside it frameIdx else it)) (toInt f5)
              = None) as -> by (by intros []).
      reflexivity.
Qed.

Lemma nine_fields_out_of_range_witness :
  loadRecord 0 1 (qs "0;0;0;8;8;1;3;4;5") loaderItem = Crash.
Proof.
  exact (proj1 (nine_fields_out_of_range 0 1 (qs "0;0;0;8;8;1;3;4;5") (qs "0") (qs "1")
                  loaderItem eq_refl eq_refl eq_refl eq_refl (or_introl eq_refl))
               eq_refl).
Defined.

(* ================================================================== *)
(** ** Properties of the header reader *)
(* ================================================================== *)

(** C6. Header records that name a known kind but are shorter than what
    the reader accesses do not end in the reported error: the access is
    out of range, no exception is thrown, and the handlers of
    [readHeaderFromFile] are never entered.  The only length test of the
    reader guards field 4 of a [type] record. *)
Theorem short_header_record_crashes (positiveDouble : QString -> bool) (it : item) :
  readHeaderFromFile positiveDouble true (qs "%;type" ++ [LF]) it = Crash
  /\ readHeaderFromFile positiveDouble true (qs "%;mapColor;1;255;0;0" ++ [LF]) it = Crash
  /\ readHeaderFromFile positiveDouble true (qs "%;range;0;51;0;255" ++ [LF]) it = Crash
  /\ readHeaderFromFile positiveDouble true (qs "%;vectorColor;255;0;0" ++ [LF]) it = Crash
  /\ readHeaderFromFile positiveDouble true (qs "%;seq-specs;name;0;64;64" ++ [LF]) it = Crash
  /\ readHeaderFromFile positiveDouble true (qs "%" ++ [LF]) it = Crash
  /\ (exists it', readHeaderFromFile positiveDouble true
                    (qs "%;type;1;MV" ++ [LF]) it = Ok it'
                  /\ parsingError it' = parsingError it).
Proof.
  repeat split; try reflexivity.
  eexists. split; reflexivity.
Qed.

(* ================================================================== *)
(** ** Properties of the position indexer *)
(* ================================================================== *)

(** *** The loop over the buffers is a scan of the bytes of the file *)

Lemma scanByte_shift (b i : Z) (c : ascii) (st : scan) :
  scanByte b i c st = scanByte 0 (b + i) c st.
Proof. unfold scanByte. by replace (0 + (b + i) + 1) with (b + i + 1) by lia. Qed.

Lemma scanBuffer_shift (b i : Z) (buf : list ascii) (st : scan) :
  scanBuffer b i buf st = scanBuffer 0 (b + i) buf st.
Proof.
  revert i st. induction buf as [|c buf IH]; intros i st; simpl; [done|].
  rewrite scanByte_shift.
  destruct (scanByte 0 (b + i) c st) as [st'| |]; simpl; [|done..].
  rewrite IH. by replace (b + (i + 1)) with (0 + (b + i + 1)) by lia.
Qed.

Lemma scanBuffer_app (b i : Z) (x y : list ascii) (st : scan) :
  scanBuffer b i (x ++ y) st
  = scanBuffer b i x st >>> scanBuffer b (i + Z.of_nat (length x)) y.
Proof.
  revert i st. induction x as [|c x IH]; intros i st; simpl.
  - by replace (i + Z.of_nat 0) with i by lia.
  - destruct (scanByte b i c st) as [st'| |]; simpl; [|done..].
    rewrite IH. by replace (i + 1 + Z.of_nat (length x)) with (i + Z.of_nat (S (length x))) by lia.
Qed.

Section Chunks.

Variable bufSize : Z.
Hypothesis bufSize_pos : 0 < bufSize.
Variable cancel : nat -> bool.
Variable file : list ascii.

Local Abbreviation b := (Z.to_nat bufSize).

Lemma readBytes_take (p : nat) :
  readBytes file (Z.of_nat p) bufSize = take b (drop p file).
Proof. unfold readBytes. by rewrite Nat2Z.id. Qed.

Lemma scanLoop_stop (fuel iter : nat) (pos : Z) (st : scan) :
  scanLoop bufSize cancel fuel file iter pos true st = Some (Ok st).
Proof. by destruct fuel. Qed.

(** With [n] loop tests answered "go on" and then either a set flag or
    an exhausted file, the loop scans the first [n] buffers' worth of
    the bytes still to be read. *)
Lemma scanLoop_spec (n : nat) :
  forall (fuel iter p : nat) (st : scan),
    (length file - p < fuel)%nat ->
    (forall j, (j < n)%nat -> cancel (iter + j)%nat = false) ->
    cancel (iter + n)%nat = true \/ (length file - p < n * b)%nat ->
    scanLoop bufSize cancel fuel file iter (Z.of_nat p) false st
    = Some (scanBuffer 0 (Z.of_nat p) (take (n * b) (drop p file)) st).
Proof.
  induction n as [|n IH]; intros fuel iter p st Hfuel Hgo Hend.
  - destruct Hend as [Hc|Hc]; [|lia].
    rewrite Nat.add_0_r in Hc.
    destruct fuel; simpl; by rewrite Hc.
  - assert (cancel iter = false) as Hc0.
    { rewrite <- (Nat.add_0_r iter). apply Hgo. lia. }
    destruct fuel as [|fuel]; [lia|].
    simpl scanLoop. rewrite Hc0. cbn [orb].
    rewrite readBytes_take.
    replace (S n * b)%nat with (b + n * b)%nat by lia.
    rewrite <- take_take_drop, scanBuffer_app.
    rewrite scanBuffer_shift.
    replace (Z.of_nat p + 0) with (Z.of_nat p) by lia.
    destruct (scanBuffer 0 (Z.of_nat p) (take b (drop p file)) st)
      as [st'|m st'|] eqn:Hscan; simpl; [|done..].
    destruct (Z.ltb_spec (Z.of_nat (length (take b (drop p file)))) bufSize)
      as [Hlt|Hge].
    + rewrite scanLoop_stop.
      rewrite (drop_ge (drop p file) b); [by rewrite take_nil|].
      rewrite length_take in Hlt. lia.
    + assert (length (take b (drop p file)) = b) as Hb.
      { rewrite length_take in *. lia. }
      rewrite Hb.
      assert (b <= length file - p)%nat as Hroom.
      { rewrite length_take, length_drop in Hb. lia. }
      replace (Z.of_nat p + Z.of_nat b) with (Z.of_nat (p + b)) by lia.
      rewrite drop_drop.
      apply IH.
      * lia.
      * intros j Hj. replace (S iter + j)%nat with (iter + S j)%nat by lia.
        apply Hgo. lia.
      * destruct Hend as [Hc|Hc].
        -- left. by replace (S iter + n)%nat with (iter + S n)%nat by lia.
        -- right. lia.
Qed.

Lemma afterChunks_take (k : nat) (st : scan) :
  afterChunks bufSize file k st = scanBuffer 0 0 (take (k * b) file) st.
Proof.
  induction k as [|k IH]; simpl afterChunks; [by rewrite take_0|].
  replace (S k * b)%nat with (k * b + b)%nat by lia.
  rewrite <- take_take_drop, scanBuffer_app, IH.
  destruct (scanBuffer 0 0 (take (k * b) file) st) as [st'| |]; simpl; [|done..].
  replace (Z.of_nat k * bufSize) with (Z.of_nat (k * b)) by lia.
  rewrite readBytes_take, scanBuffer_shift.
  destruct (decide (k * b <= length file)%nat) as [Hle|Hgt].
  - rewrite length_take_le by done. f_equal. lia.
  - rewrite (drop_ge file (k * b)) by lia. by rewrite !take_nil.
Qed.

(** The loop with a flag first seen set at test [k]. *)
Lemma scanLoop_cancelled (k : nat) (st : scan) :
  (forall j, (j < k)%nat -> cancel j = false) ->
  cancel k = true ->
  scanLoop bufSize cancel (S (length file)) file 0 0 false st
  = Some (afterChunks bufSize file k st).
Proof.
  intros Hgo Hc. rewrite afterChunks_take.
  pose proof (scanLoop_spec k (S (length file)) 0 0 st) as H.
  change (Z.of_nat 0) with 0 in H. rewrite drop_0 in H.
  apply H; [lia | | by left].
  intros j Hj. by apply Hgo.
Qed.

(** The loop with a flag that is never set scans the whole file. *)
Lemma scanLoop_complete (st : scan) :
  (forall j, cancel j = false) ->
  scanLoop bufSize cancel (S (length file)) file 0 0 false st
  = Some (scanBuffer 0 0 file st).
Proof.
  intros Hgo.
  pose proof (scanLoop_spec (S (length file)) (S (length file)) 0 0 st) as H.
  change (Z.of_nat 0) with 0 in H. rewrite drop_0 in H.
  rewrite take_ge in H by nia.
  apply H; [lia | | right; nia].
  intros j _. apply Hgo.
Qed.

Lemma first_set (n : nat) :
  (exists k, (k <= n)%nat /\ cancel k = true
             /\ forall j, (j < k)%nat -> cancel j = false)
  \/ (forall j, (j <= n)%nat -> cancel j = false).
Proof.
  induction n as [|n [(k & Hk & Hc & Hgo)|Hgo]].
  - destruct (cancel 0%nat) eqn:E.
    + left. exists 0%nat. repeat split; [lia | done | intros j Hj; lia].
    + right. intros j Hj. by replace j with 0%nat by lia.
  - left. exists k. repeat split; [lia | done | done].
  - destruct (cancel (S n)) eqn:E.
    + left. exists (S n). repeat split; [lia | done |].
      intros j Hj. apply Hgo. lia.
    + right. intros j Hj.
      destruct (decide (j = S n)) as [->|Hne]; [done | apply Hgo; lia].
Qed.

(** The loop always returns: the fuel given by
    [readFrameAndTypePositionsFromFile] suffices. *)
Lemma scanLoop_total (st : scan) :
  is_Some (scanLoop bufSize cancel (S (length file)) file 0 0 false st).
Proof.
  destruct (first_set (length file)) as [(k & _ & Hk & Hgo)|Hgo].
  - rewrite (scanLoop_cancelled k st Hgo Hk). eauto.
  - pose proof (scanLoop_spec (S (length file)) (S (length file)) 0 0 st) as H.
    change (Z.of_nat 0) with 0 in H. rewrite H; [eauto | lia | | right; nia].
    intros j Hj. apply Hgo. lia.
Qed.

End Chunks.

(** *** Invariants of the scan *)

Section ScanInvariant.

Variable P : scan -> Prop.
Hypothesis P_line : forall st buf pos, P st -> P (withLine st buf pos).
Hypothesis P_record :
  forall st poc ty st', P st -> survivor (indexRecord st poc ty) = Some st' -> P st'.

Lemma processLine_inv (st st' : scan) :
  P st -> survivor (processLine st) = Some st' -> P st'.
Proof.
  intros HP. unfold processLine, field.
  destruct (parseCSVLine (lineBuffer st) ";"%char !! 0%nat) as [f0|];
    [|discriminate].
  destruct (negb (isEmpty f0) && negb (startsWithPercent f0)).
  - destruct (parseCSVLine (lineBuffer st) ";"%char !! 5%nat) as [f5|];
      [|discriminate].
    by apply P_record.
  - by intros [= <-].
Qed.

Lemma scanByte_inv (b i : Z) (c : ascii) (st st' : scan) :
  P st -> survivor (scanByte b i c st) = Some st' -> P st'.
Proof.
  intros HP. unfold scanByte.
  destruct (code c =? 10).
  - destruct (0 <? Z.of_nat (length (lineBuffer st))).
    + destruct (processLine st) as [st1|m st1|] eqn:E; simpl;
        [| |discriminate]; intros [= <-].
      * apply P_line. apply (processLine_inv st); [done | by rewrite E].
      * apply (processLine_inv st); [done | by rewrite E].
    + simpl. intros [= <-]. by apply P_line.
  - simpl. intros [= <-]. by apply P_line.
Qed.

Lemma scanBuffer_inv (b : Z) (buf : list ascii) :
  forall (i : Z) (st st' : scan),
    P st -> survivor (scanBuffer b i buf st) = Some st' -> P st'.
Proof.
  induction buf as [|c buf IH]; intros i st st' HP; simpl.
  - by intros [= <-].
  - destruct (scanByte b i c st) as [st1|m st1|] eqn:E; simpl.
    + apply IH. apply (scanByte_inv b i c st); [done | by rewrite E].
    + intros [= <-]. apply (scanByte_inv b i c st); [done | by rewrite E].
    + discriminate.
Qed.

End ScanInvariant.

(** The cases of [indexRecord]. *)
Ltac indexRecord_cases :=
  unfold indexRecord, updateMaxPOC;
  repeat match goal with
         | |- context [if ?c then _ else _] => destruct c eqn:?
         end; simpl.

(** The scan itself never touches the stored error message. *)
Lemma indexRecord_keeps_error (st : scan) (poc ty : Z) (st' : scan) :
  survivor (indexRecord st poc ty) = Some st' ->
  parsingError (self st') = parsingError (self st).
Proof. indexRecord_cases; by intros [= <-]. Qed.

Lemma scanBuffer_keeps_error (b i : Z) (buf : list ascii) (st st' : scan) :
  survivor (scanBuffer b i buf st) = Some st' ->
  parsingError (self st') = parsingError (self st).
Proof.
  apply (scanBuffer_inv (fun s => parsingError (self s) = parsingError (self st)));
    [done | | done].
  intros s poc ty s' Hs Hr. rewrite <- Hs. by eapply indexRecord_keeps_error.
Qed.

(** Once [sortingFixed] is set, a record changes neither it nor
    [fileSortedByPOC]. *)
Lemma indexRecord_fixed (st : scan) (poc ty : Z) (st' : scan) :
  sortingFixed st = true ->
  survivor (indexRecord st poc ty) = Some st' ->
  sortingFixed st' = true /\ fileSortedByPOC (self st') = fileSortedByPOC (self st).
Proof.
  intros Hf. indexRecord_cases; intros [= <-]; simpl; try done;
    rewrite Hf in *; done.
Qed.

Lemma scanBuffer_fixed (b i : Z) (buf : list ascii) (st st' : scan) :
  sortingFixed st = true ->
  survivor (scanBuffer b i buf st) = Some st' ->
  sortingFixed st' = true /\ fileSortedByPOC (self st') = fileSortedByPOC (self st).
Proof.
  intros Hf.
  apply (scanBuffer_inv
           (fun s => sortingFixed s = true
                     /\ fileSortedByPOC (self s) = fileSortedByPOC (self st)));
    [done | | done].
  intros s poc ty s' [Hs1 Hs2] Hr. rewrite <- Hs2. by eapply indexRecord_fixed.
Qed.

(** *** The layout decision *)

Lemma not_first_line (st : scan) :
  0 <= lastPOC st -> (lastType st =? -1) && (lastPOC st =? -1) = false.
Proof.
  intros H. apply andb_false_iff. right. apply Z.eqb_neq. lia.
Qed.

(** C9. While the layout is undecided, a record with the POC of the last
    record and another typeID sets [sortingFixed] and makes the file
    interleaved ([fileSortedByPOC]); a record with another POC sets
    [sortingFixed] and leaves [fileSortedByPOC] as it is (sequential, as
    the flag starts cleared).  Once [sortingFixed] is set, no further
    input of the scan, whatever it contains, changes [sortingFixed] or
    [fileSortedByPOC]. *)
Theorem sorting_decided_once (st : scan) (poc ty : Z) (b i : Z) (buf : list ascii) :
  (sortingFixed st = false -> 0 <= lastPOC st ->
   poc = lastPOC st -> ty <> lastType st ->
   exists st', indexRecord st poc ty = Ok st'
               /\ sortingFixed st' = true
               /\ fileSortedByPOC (self st') = true)
  /\ (sortingFixed st = false -> 0 <= lastPOC st ->
      poc <> lastPOC st ->
      exists st', survivor (indexRecord st poc ty) = Some st'
                  /\ sortingFixed st' = true
                  /\ fileSortedByPOC (self st') = fileSortedByPOC (self st))
  /\ (sortingFixed st = true ->
      forall st', survivor (scanBuffer b i buf st) = Some st' ->
                  sortingFixed st' = true
                  /\ fileSortedByPOC (self st') = fileSortedByPOC (self st)).
Proof.
  split; [|split].
  - intros Hf Hlast Hpoc Hty. unfold indexRecord.
    rewrite (not_first_line _ Hlast), Hf.
    rewrite (proj2 (Z.eqb_neq _ _) Hty), (proj2 (Z.eqb_eq _ _) Hpoc).
    cbn [negb andb].
    match goal with |- context [if ?c then _ else _] => destruct c end;
      eexists; repeat split.
  - intros Hf Hlast Hpoc. unfold indexRecord, updateMaxPOC.
    rewrite (not_first_line _ Hlast), Hf.
    rewrite (proj2 (Z.eqb_neq _ _) Hpoc), andb_false_r.
    cbn [negb andb].
    repeat match goal with
           | |- context [if ?c then _ else _] => destruct c eqn:?
           end; eexists; repeat split.
  - intros Hf st'. by apply scanBuffer_fixed.
Qed.

Lemma sorting_decided_once_witness :
  exists st',
    survivor (scanBuffer 0 0 (qs "0;0;0;8;8;1;5" ++ [LF] ++ qs "0;0;0;8;8;2;7" ++ [LF])
                decidedScan) = Some st'
    /\ sortingFixed st' = true
    /\ fileSortedByPOC (self st') = false.
Proof.
  eexists. split; [vm_compute; reflexivity|].
  apply (proj2 (proj2 (sorting_decided_once decidedScan 0 0 0 0
           (qs "0;0;0;8;8;1;5" ++ [LF] ++ qs "0;0;0;8;8;2;7" ++ [LF])))).
  - reflexivity.
  - vm_compute. reflexivity.
Defined.

(** *** Continuity violations *)

Lemma indexRecord_interleaved_violation (st : scan) (poc ty : Z) :
  0 <= lastPOC st -> poc <> lastPOC st ->
  fileSortedByPOC (self st) = true ->
  is_Some (pocTypeStartList (self st) !! poc) ->
  exists st', indexRecord st poc ty = Throw msgInterleaved st' /\ self st' = self st.
Proof.
  intros Hlast Hpoc Hs Hin. unfold indexRecord.
  rewrite (not_first_line _ Hlast), (proj2 (Z.eqb_neq _ _) Hpoc), andb_false_r.
  cbn [negb].
  assert (containsPOC (pocTypeStartList (self st)) poc = true) as Hc
    by by apply bool_decide_eq_true_2.
  destruct (sortingFixed st); cbn [negb]; simpl; rewrite Hs, Hc; eauto.
Qed.

Lemma indexRecord_sequential_violation (st : scan) (poc ty : Z) :
  0 <= lastPOC st -> poc <> lastPOC st ->
  fileSortedByPOC (self st) = false ->
  is_Some (lookupPos (pocTypeStartList (self st)) poc ty) ->
  exists st', indexRecord st poc ty = Throw msgSequential st' /\ self st' = self st.
Proof.
  intros Hlast Hpoc Hs Hin. unfold indexRecord.
  rewrite (not_first_line _ Hlast), (proj2 (Z.eqb_neq _ _) Hpoc), andb_false_r.
  cbn [negb].
  apply lookupPos_contains in Hin.
  destruct (sortingFixed st); cbn [negb]; simpl; rewrite Hs, Hin; eauto.
Qed.

(** A throw at the line feed after [pre] ends the function: the message
    is stored and the index is the one built so far. *)
Lemma throw_ends_scan (bufSize : Z) (cancel : nat -> bool)
    (pre post : list ascii) (it : item) (st st' : scan) (f0 f5 msg : QString) :
  0 < bufSize ->
  (forall j, cancel j = false) ->
  scanBuffer 0 0 pre (startScan it) = Ok st ->
  lineBuffer st <> [] ->
  parseCSVLine (lineBuffer st) ";"%char !! 0%nat = Some f0 ->
  isEmpty f0 = false -> startsWithPercent f0 = false ->
  parseCSVLine (lineBuffer st) ";"%char !! 5%nat = Some f5 ->
  indexRecord st (toInt f0) (toInt f5) = Throw msg st' ->
  self st' = self st ->
  exists it',
    readFrameAndTypePositionsFromFile bufSize cancel (pre ++ LF :: post) it
    = Some (Ok it')
    /\ parsingError it' = msgPrefix ++ msg
    /\ pocTypeStartList it' = pocTypeStartList (self st)
    /\ fileSortedByPOC it' = fileSortedByPOC (self st).
Proof.
  intros Hb Hgo Hpre Hbuf H0 Hne Hpc H5 Hthrow Hself.
  unfold readFrameAndTypePositionsFromFile.
  rewrite scanLoop_complete by done.
  rewrite scanBuffer_app, Hpre. simpl bind.
  cbn [scanBuffer]. unfold scanByte at 1.
  change (code LF =? 10) with true. cbv iota.
  assert ((0 <? Z.of_nat (length (lineBuffer st))) = true) as ->.
  { apply Z.ltb_lt. destruct (lineBuffer st); [done | simpl; lia]. }
  unfold processLine, field. rewrite H0, Hne, Hpc, H5. cbn [negb andb].
  rewrite Hthrow. simpl.
  eexists. split; [reflexivity|]. simpl. by rewrite Hself.
Qed.

(** C3. When the line completed at a line feed is a data record whose
    POC differs from the last one: in a file taken as interleaved
    ([fileSortedByPOC]) a POC that already has an index entry, and in a
    file taken as sequential a (POC, typeID) pair that already has an
    offset, makes the scan throw.  The function returns at once,
    whatever follows in the file; the message of the case, after the
    common prefix, is stored in [parsingError], and the index is the one
    built up to that line. *)
Theorem continuity_violation_reported (bufSize : Z) (cancel : nat -> bool)
    (pre post : list ascii) (it : item) (st : scan) (f0 f5 : QString) :
  0 < bufSize ->
  (forall j, cancel j = false) ->
  scanBuffer 0 0 pre (startScan it) = Ok st ->
  lineBuffer st <> [] ->
  parseCSVLine (lineBuffer st) ";"%char !! 0%nat = Some f0 ->
  isEmpty f0 = false -> startsWithPercent f0 = false ->
  parseCSVLine (lineBuffer st) ";"%char !! 5%nat = Some f5 ->
  0 <= lastPOC st ->
  toInt f0 <> lastPOC st ->
  (fileSortedByPOC (self st) = true ->
   is_Some (pocTypeStartList (self st) !! toInt f0) ->
   exists it',
     readFrameAndTypePositionsFromFile bufSize cancel (pre ++ LF :: post) it
     = Some (Ok it')
     /\ parsingError it' = msgPrefix ++ msgInterleaved
     /\ pocTypeStartList it' = pocTypeStartList (self st)
     /\ fileSortedByPOC it' = true)
  /\ (fileSortedByPOC (self st) = false ->
      is_Some (lookupPos (pocTypeStartList (self st)) (toInt f0) (toInt f5)) ->
      exists it',
        readFrameAndTypePositionsFromFile bufSize cancel (pre ++ LF :: post) it
        = Some (Ok it')
        /\ parsingError it' = msgPrefix ++ msgSequential
        /\ pocTypeStartList it' = pocTypeStartList (self st)
        /\ fileSortedByPOC it' = false).
Proof.
  intros Hb Hgo Hpre Hbuf H0 Hne Hpc H5 Hlast Hpoc. split.
  - intros Hs Hin.
    destruct (indexRecord_interleaved_violation st (toInt f0) (toInt f5)
                Hlast Hpoc Hs Hin) as (st' & Hthrow & Hself).
    destruct (throw_ends_scan bufSize cancel pre post it st st' f0 f5 _
                Hb Hgo Hpre Hbuf H0 Hne Hpc H5 Hthrow Hself)
      as (it' & H1 & H2 & H3 & H4).
    exists it'. rewrite <- Hs. auto.
  - intros Hs Hin.
    destruct (indexRecord_sequential_violation st (toInt f0) (toInt f5)
                Hlast Hpoc Hs Hin) as (st' & Hthrow & Hself).
    destruct (throw_ends_scan bufSize cancel pre post it st st' f0 f5 _
                Hb Hgo Hpre Hbuf H0 Hne Hpc H5 Hthrow Hself)
      as (it' & H1 & H2 & H3 & H4).
    exists it'. rewrite <- Hs. auto.
Qed.

Lemma continuity_violation_reported_witness :
  exists it',
    readFrameAndTypePositionsFromFile 16 (fun _ => false)
      (returningPrefix ++ LF :: qs "5;0;0;8;8;1;1") newItem = Some (Ok it')
    /\ parsingError it' = msgPrefix ++ msgSequential
    /\ pocTypeStartList it' = pocTypeStartList (self returningScan)
    /\ fileSortedByPOC it' = false.
Proof.
  apply (proj2 (continuity_violation_reported 16 (fun _ => false) returningPrefix
                  (qs "5;0;0;8;8;1;1") newItem returningScan (qs "3") (qs "1")
                  ltac:(lia) (fun _ => eq_refl)
                  ltac:(vm_compute; reflexivity)
                  ltac:(vm_compute; discriminate)
                  ltac:(vm_compute; reflexivity) eq_refl eq_refl
                  ltac:(vm_compute; reflexivity)
                  ltac:(vm_compute; discriminate)
                  ltac:(vm_compute; discriminate))).
  - vm_compute. reflexivity.
  - vm_compute. eauto.
Defined.

(** *** Cancellation *)

(** C7. When the flag is first seen set at the loop test after buffer
    [k], and the first [k] buffers were processed without a throw, the
    function returns normally: the index, the layout flag and the
    highest POC are those reached after buffer [k], and the stored
    error message is what it was before (empty when it was empty). *)
Theorem cancel_keeps_partial_index (bufSize : Z) (cancel : nat -> bool)
    (file : list ascii) (it : item) (k : nat) (st : scan) :
  0 < bufSize ->
  (forall j, (j < k)%nat -> cancel j = false) ->
  cancel k = true ->
  afterChunks bufSize file k (startScan it) = Ok st ->
  exists it',
    readFrameAndTypePositionsFromFile bufSize cancel file it = Some (Ok it')
    /\ pocTypeStartList it' = pocTypeStartList (self st)
    /\ fileSortedByPOC it' = fileSortedByPOC (self st)
    /\ maxPOC it' = maxPOC (self st)
    /\ parsingError it' = parsingError it.
Proof.
  intros Hb Hgo Hc Hk.
  unfold readFrameAndTypePositionsFromFile.
  rewrite (scanLoop_cancelled bufSize Hb cancel file k _ Hgo Hc), Hk. simpl.
  eexists. split; [reflexivity|]. repeat split.
  rewrite afterChunks_take in Hk by done.
  apply (scanBuffer_keeps_error 0 0 (take (k * Z.to_nat bufSize) file)
           (startScan it) st).
  by rewrite Hk.
Qed.

Lemma cancel_keeps_partial_index_witness :
  exists it',
    readFrameAndTypePositionsFromFile 16 (fun n => (2 <=? n)%nat) threeLines newItem
    = Some (Ok it')
    /\ lookupPos (pocTypeStartList it') 0 1 = Some 0
    /\ lookupPos (pocTypeStartList it') 1 1 = Some 14
    /\ lookupPos (pocTypeStartList it') 2 1 = None
    /\ parsingError it' = [].
Proof.
  destruct (cancel_keeps_partial_index 16 (fun n => (2 <=? n)%nat) threeLines newItem
              2 afterTwoChunks) as (it' & Hr & Hidx & _ & _ & Herr).
  - lia.
  - intros j Hj. apply Nat.leb_gt. lia.
  - reflexivity.
  - vm_compute. reflexivity.
  - exists it'. rewrite Hidx, Herr. repeat split; vm_compute; reflexivity || exact Hr.
Defined.

(** *** The index of a body given line by line *)

Lemma processLine_classify (st : scan) :
  processLine st
  = match classify (lineBuffer st) with
    | Skipped => Ok st
    | Malformed => Crash
    | Data poc ty => indexRecord st poc ty
    end.
Proof.
  unfold processLine, classify, field.
  destruct (parseCSVLine (lineBuffer st) ";"%char !! 0%nat) as [f0|]; [|done].
  destruct (negb (isEmpty f0) && negb (startsWithPercent f0)); [|done].
  by destruct (parseCSVLine (lineBuffer st) ";"%char !! 5%nat).
Qed.

Lemma code_LF (c : ascii) : (code c =? 10) = true <-> c = LF.
Proof.
  rewrite Z.eqb_eq. split; [|by intros ->].
  intros H. unfold code in H.
  assert (N_of_ascii c = 10%N) as H' by lia.
  rewrite <- (ascii_N_embedding c), H'. reflexivity.
Qed.

Lemma withLine_withLine (st : scan) (a b : QString) (p q : Z) :
  withLine (withLine st a p) b q = withLine st b q.
Proof. reflexivity. Qed.

Lemma withLine_id (st : scan) :
  withLine st (lineBuffer st) (lineBufferStartPos st) = st.
Proof. by destruct st. Qed.

(** Bytes other than a line feed are appended to the line buffer. *)
Lemma scanBuffer_accumulate (l : list ascii) :
  forall (b i : Z) (st : scan),
    Forall (fun c => c <> LF) l ->
    scanBuffer b i l st
    = Ok (withLine st (lineBuffer st ++ l) (lineBufferStartPos st)).
Proof.
  induction l as [|c l IH]; intros b i st Hl; simpl.
  - by rewrite app_nil_r, withLine_id.
  - apply Forall_cons in Hl as [Hc Hl].
    unfold scanByte.
    destruct (code c =? 10) eqn:E; [by apply code_LF in E|].
    simpl. rewrite IH by done. simpl.
    by rewrite <- app_assoc.
Qed.

(** A whole line and its line feed, starting with an empty buffer. *)
Lemma scanBuffer_line (l : list ascii) (pos : Z) (st : scan) :
  Forall (fun c => c <> LF) l ->
  lineBuffer st = [] ->
  scanBuffer 0 pos (l ++ [LF]) st
  = match classify l with
    | Skipped => Ok (withLine st [] (pos + Z.of_nat (length l) + 1))
    | Malformed => Crash
    | Data poc ty =>
        indexRecord (withLine st l (lineBufferStartPos st)) poc ty
        >>> (fun st' => Ok (withLine st' [] (pos + Z.of_nat (length l) + 1)))
    end.
Proof.
  intros Hl Hbuf.
  rewrite scanBuffer_app, scanBuffer_accumulate by done.
  rewrite Hbuf. simpl. unfold scanByte.
  change (code LF =? 10) with true. cbv iota. simpl lineBuffer.
  destruct l as [|c l].
  - simpl. by rewrite Z.add_0_r.
  - assert ((0 <? Z.of_nat (length (c :: l))) = true) as ->
      by (apply Z.ltb_lt; simpl; lia).
    rewrite processLine_classify. simpl lineBuffer.
    replace (0 + (pos + Z.of_nat (length (c :: l))) + 1)
      with (pos + Z.of_nat (length (c :: l)) + 1) by lia.
    destruct (classify (c :: l)); simpl; [done | done |].
    by destruct (indexRecord _ _ _).
Qed.


Lemma lookupPos_inner (m : gmap Z (gmap Z Z)) (p t : Z) :
  inner m p !! t = lookupPos m p t.
Proof. unfold inner, lookupPos. by destruct (m !! p). Qed.

Lemma lookupPos_setPos (m : gmap Z (gmap Z Z)) (poc ty pos p t : Z) :
  lookupPos (setPos m poc ty pos) p t
  = if decide ((poc, ty) = (p, t)) then Some pos else lookupPos m p t.
Proof.
  unfold setPos. unfold lookupPos at 1.
  destruct (decide (poc = p)) as [->|Hp].
  - rewrite lookup_insert_eq. simpl.
    destruct (decide (ty = t)) as [->|Ht].
    + rewrite lookup_insert_eq. by rewrite decide_True.
    + rewrite lookup_insert_ne by done. rewrite lookupPos_inner.
      rewrite decide_False; [done | congruence].
  - rewrite lookup_insert_ne by done.
    rewrite decide_False; [done | congruence].
Qed.

Lemma lookupPos_touch (m : gmap Z (gmap Z Z)) (poc p t : Z) :
  lookupPos (touch m poc) p t = lookupPos m p t.
Proof.
  unfold touch. unfold lookupPos at 1.
  destruct (decide (poc = p)) as [->|Hp].
  - rewrite lookup_insert_eq. simpl. apply lookupPos_inner.
  - by rewrite lookup_insert_ne.
Qed.

Lemma containsType_lookup (m : gmap Z (gmap Z Z)) (p t : Z) :
  containsType m p t = bool_decide (is_Some (lookupPos m p t)).
Proof. unfold containsType. by rewrite lookupPos_inner. Qed.

Lemma firstOffset_app (a b : list (Z * Z * Z)) (p t : Z) :
  firstOffset (a ++ b) p t
  = match firstOffset a p t with
    | Some o => Some o
    | None => firstOffset b p t
    end.
Proof.
  induction a as [|[k o] a IH]; simpl; [done|].
  by destruct (decide (k = (p, t))).
Qed.

Lemma firstOffset_Some (recs : list (Z * Z * Z)) (p t : Z) :
  is_Some (firstOffset recs p t) <-> (p, t) ∈ recs.*1.
Proof.
  induction recs as [|[k o] recs IH]; simpl.
  - split; [by intros [? ?] | by intros ?%elem_of_nil].
  - rewrite elem_of_cons. destruct (decide (k = (p, t))) as [->|Hk].
    + split; [by left | eauto].
    + rewrite IH. split; [by right | intros [E|E]; [by destruct Hk | done]].
Qed.

Lemma indexed_withLine (done : list (Z * Z * Z)) (st : scan) (buf : QString) (pos : Z) :
  indexed done st -> indexed done (withLine st buf pos).
Proof. done. Qed.

Lemma last_keys_snoc (done : list (Z * Z * Z)) (k : Z * Z) (o : Z) :
  last (done ++ [(k, o)]).*1 = Some k.
Proof. rewrite fmap_app. simpl. apply last_snoc. Qed.

Lemma index_after_new (m : gmap Z (gmap Z Z)) (done : list (Z * Z * Z)) (p t o : Z) :
  (forall q u, lookupPos m q u = firstOffset done q u) ->
  (p, t) ∉ done.*1 ->
  forall q u, lookupPos (setPos m p t o) q u = firstOffset (done ++ [(p, t, o)]) q u.
Proof.
  intros Hidx Hnew q u. rewrite lookupPos_setPos, firstOffset_app, Hidx. simpl.
  destruct (decide ((p, t) = (q, u))) as [E|E]; [|by destruct (firstOffset done q u)].
  injection E as <- <-.
  destruct (firstOffset done p t) eqn:F; [|done].
  destruct Hnew. apply firstOffset_Some. by rewrite F.
Qed.

Lemma index_after_repeat (done : list (Z * Z * Z)) (p t o : Z) :
  (p, t) ∈ done.*1 ->
  forall q u, firstOffset (done ++ [(p, t, o)]) q u = firstOffset done q u.
Proof.
  intros Hin q u. rewrite firstOffset_app. simpl.
  destruct (firstOffset done q u) eqn:F; [done|].
  destruct (decide ((p, t) = (q, u))) as [E|E]; [|done].
  injection E as <- <-. apply firstOffset_Some in Hin. rewrite F in Hin.
  by destruct Hin.
Qed.

Lemma updateMaxPOC_index (it : item) (p : Z) :
  pocTypeStartList (updateMaxPOC it p) = pocTypeStartList it
  /\ fileSortedByPOC (updateMaxPOC it p) = fileSortedByPOC it.
Proof. unfold updateMaxPOC. by destruct (maxPOC it <? p). Qed.

Lemma pocs_snoc (done : list (Z * Z * Z)) (p t o q : Z) :
  q = p \/ q ∈ done.*1.*1 -> q ∈ (done ++ [(p, t, o)]).*1.*1.
Proof.
  rewrite !fmap_app. simpl. rewrite elem_of_app, list_elem_of_singleton. tauto.
Qed.

Lemma setPos_pocs (m : gmap Z (gmap Z Z)) (p t o q : Z) :
  is_Some (setPos m p t o !! q) -> q = p \/ is_Some (m !! q).
Proof.
  unfold setPos. destruct (decide (p = q)) as [->|Hne]; [by left|].
  rewrite lookup_insert_ne by done. by right.
Qed.

Lemma touch_pocs (m : gmap Z (gmap Z Z)) (p q : Z) :
  is_Some (touch m p !! q) -> q = p \/ is_Some (m !! q).
Proof.
  unfold touch. destruct (decide (p = q)) as [->|Hne]; [by left|].
  rewrite lookup_insert_ne by done. by right.
Qed.

Lemma indexed_snoc (done : list (Z * Z * Z)) (p t o : Z) (st' : scan) :
  (forall q u, lookupPos (pocTypeStartList (self st')) q u
               = firstOffset (done ++ [(p, t, o)]) q u) ->
  (forall q, is_Some (pocTypeStartList (self st') !! q) -> q = p \/ q ∈ done.*1.*1) ->
  lastPOC st' = p -> lastType st' = t ->
  (sortingFixed st' = false ->
   fileSortedByPOC (self st') = false /\ forall k, k ∈ done.*1 -> k = (p, t)) ->
  indexed (done ++ [(p, t, o)]) st'.
Proof.
  intros Hidx Hpocs HP HT Hsame. unfold indexed. rewrite last_keys_snoc. simpl.
  repeat split; try done.
  - intros q Hq. apply pocs_snoc. by apply Hpocs.
  - by apply Hsame.
  - intros k Hk. destruct (Hsame H) as [_ Hs].
    rewrite fmap_app in Hk. simpl in Hk.
    apply elem_of_app in Hk as [Hk|Hk]; [by rewrite (Hs k Hk)|].
    apply list_elem_of_singleton in Hk. by subst.
Qed.

(** One data record of a body whose pairs are contiguous and, when the
    file is taken as interleaved, whose POCs are contiguous. *)
Lemma indexRecord_step (done : list (Z * Z * Z)) (st : scan) (p t : Z) :
  indexed done st ->
  Forall (fun r => 0 <= r.1.1) done ->
  ((p, t) ∈ done.*1 -> last done.*1 = Some (p, t)) ->
  (fileSortedByPOC (self st) = true -> p ∈ done.*1.*1 -> last done.*1.*1 = Some p) ->
  exists st',
    indexRecord st p t = Ok st'
    /\ indexed (done ++ [(p, t, lineBufferStartPos st)]) st'
    /\ (sortingFixed st = true ->
        sortingFixed st' = true
        /\ fileSortedByPOC (self st') = fileSortedByPOC (self st))
    /\ (sortingFixed st = false ->
        match last done.*1 with
        | None => sortingFixed st' = false
        | Some k0 =>
            if decide ((p, t) = k0) then sortingFixed st' = false
            else sortingFixed st' = true
                 /\ fileSortedByPOC (self st') = bool_decide (p = k0.1)
        end).
Proof.
  intros (Hidx & Hpocs & Hlast & Hsame) Hnn Hcont Hpcont.
  pose proof (updateMaxPOC_index
                (setIndex (self st)
                   (setPos (pocTypeStartList (self st)) p t
                      (lineBufferStartPos st))) p) as [Hu1 Hu2].
  rewrite fmap_last in Hpcont.
  destruct (last done.*1) as [[lp lt]|] eqn:El.
  - simpl in Hlast, Hpcont. destruct Hlast as [HlP HlT].
    assert ((lp, lt) ∈ done.*1) as Hlin by by apply last_Some_elem_of.
    assert (0 <= lastPOC st) as Hlp.
    { apply list_elem_of_fmap in Hlin as ([[a b] c] & E & Hin).
      rewrite Forall_forall in Hnn. specialize (Hnn _ Hin). simpl in *. congruence. }
    unfold indexRecord. rewrite (not_first_line _ Hlp), HlP, HlT.
    destruct (decide ((p, t) = (lp, lt))) as [E|NE].
    + injection E as -> ->. rewrite !Z.eqb_refl. cbn [negb andb].
      exists st. split; [done|]. split; [|done].
      apply indexed_snoc; try done.
      * intros q u. by rewrite index_after_repeat.
      * intros q Hq. right. by apply Hpocs.
      * intros Hf. destruct (Hsame Hf) as [Hs1 Hs2]. split; [done|].
        intros k Hk. specialize (Hs2 k Hk). congruence.
    + assert ((p, t) ∉ done.*1) as Hnew.
      { intros Hin. apply Hcont in Hin. congruence. }
      destruct (decide (p = lp)) as [->|Hp].
      * assert (t <> lt) as Ht by congruence.
        rewrite (proj2 (Z.eqb_neq _ _) Ht), Z.eqb_refl. cbn [negb andb].
        assert (forall s : scan,
                   pocTypeStartList (self s) = pocTypeStartList (self st) ->
                   containsType (pocTypeStartList (self s)) lp t = false) as Hno.
        { intros s ->. rewrite containsType_lookup, Hidx.
          apply bool_decide_eq_false_2. by rewrite firstOffset_Some. }
        destruct (sortingFixed st) eqn:Hf; cbn [negb]; simpl;
          rewrite (Hno st eq_refl); cbn [negb];
          (eexists; split; [reflexivity|]); simpl;
          (split; [|split; [try done; intros; congruence|]]).
        all: try (intros ?; discriminate).
        all: try (intros _; split; [done | by rewrite bool_decide_eq_true_2]).
        all: apply indexed_snoc; simpl; try done; try congruence.
        all: try (intros q u; rewrite <- (index_after_new _ done lp t _ Hidx Hnew);
                  rewrite !lookupPos_setPos; by rewrite lookupPos_touch).
        all: intros q Hq; apply setPos_pocs in Hq as [->|Hq]; [by left|];
          apply touch_pocs in Hq as [->|Hq]; [by left|]; right; by apply Hpocs.
      * rewrite (proj2 (Z.eqb_neq _ _) Hp), andb_false_r. cbn [negb].
        assert (fileSortedByPOC (self st) = true ->
                containsPOC (pocTypeStartList (self st)) p = false) as Hno1.
        { intros Hs. apply bool_decide_eq_false_2. intros Hin.
          apply Hpocs in Hin. specialize (Hpcont Hs Hin). congruence. }
        assert ((containsPOC (pocTypeStartList (self st)) p
                 && containsType (pocTypeStartList (self st)) p t) = false) as Hno2.
        { destruct (_ && _) eqn:C; [|done].
          apply lookupPos_contains in C. rewrite Hidx, firstOffset_Some in C. done. }
        assert (forall st2 : scan,
                   self st2 = updateMaxPOC
                                (setIndex (self st)
                                   (setPos (pocTypeStartList (self st)) p t
                                      (lineBufferStartPos st))) p ->
                   lastPOC st2 = p -> lastType st2 = t -> sortingFixed st2 = true ->
                   indexed (done ++ [(p, t, lineBufferStartPos st)]) st2) as Hind.
        { intros st2 Hself HP HT Hfx.
          apply indexed_snoc; rewrite ?Hself, ?Hu1, ?Hu2; simpl; try done.
          - by apply index_after_new.
          - intros q Hq. apply setPos_pocs in Hq as [->|Hq]; [by left|].
            right. by apply Hpocs.
          - intros; congruence. }
        destruct (sortingFixed st) eqn:Hf; cbn [negb]; simpl;
          destruct (fileSortedByPOC (self st)) eqn:Hs;
          rewrite ?(Hno1 eq_refl), ?Hno2;
          (eexists; split; [reflexivity|]); simpl; rewrite ?Hu2; simpl;
          (split; [by apply Hind|]);
          (split; [try done; intros; congruence|]).
        all: try (intros ?; discriminate).
        -- destruct (Hsame eq_refl) as [? _]. congruence.
        -- intros _. split; [done|]. by rewrite bool_decide_eq_false_2.
  - destruct Hlast as [HlP HlT].
    assert (done = []) as ->.
    { apply last_None in El. by apply fmap_nil_inv in El. }
    unfold indexRecord. rewrite HlP, HlT. simpl.
    eexists. split; [reflexivity|]. simpl. rewrite Hu2. simpl.
    split; [|done].
    apply (indexed_snoc []); simpl; rewrite ?Hu1, ?Hu2; simpl; try done.
    + intros q u. apply (index_after_new _ [] p t _ Hidx). apply not_elem_of_nil.
    + intros q Hq. apply setPos_pocs in Hq as [->|Hq]; [by left|].
      right. by apply Hpocs.
    + intros Hf. destruct (Hsame Hf) as [Hs _]. split; [done|].
      intros k Hk. by apply elem_of_nil in Hk.
Qed.

Lemma scan_lines_indexed (lines : list QString) :
  forall (done : list (Z * Z * Z)) (pos : Z) (st : scan),
    indexed done st ->
    lineBuffer st = [] ->
    lineBufferStartPos st = pos ->
    Forall (Forall (fun c => c <> LF)) lines ->
    Forall (fun l => classify l <> Malformed) lines ->
    Forall (fun r => 0 <= r.1.1) done ->
    Forall (fun r => 0 <= r.1.1) (records pos lines) ->
    contiguousFrom done.*1 (records pos lines).*1 ->
    (finalSorted st (last done.*1) (records pos lines).*1 = true ->
     contiguousFrom done.*1.*1 (records pos lines).*1.*1) ->
    exists st',
      scanBuffer 0 pos (fileOfLines lines) st = Ok st'
      /\ indexed (done ++ records pos lines) st'
      /\ fileSortedByPOC (self st')
         = finalSorted st (last done.*1) (records pos lines).*1.
Proof.
  induction lines as [|l ls IH];
    intros done pos st Hidx Hbuf Hpos Hlf Hwf Hnn Hrn Hcont Hpcont.
  - simpl. exists st. rewrite app_nil_r. split; [done|]. split; [done|].
    unfold finalSorted. destruct (sortingFixed st) eqn:Hf; [done|].
    by destruct Hidx as (_ & _ & _ & Hs); destruct (Hs Hf).
  - apply Forall_cons in Hlf as [Hl Hlf]. apply Forall_cons in Hwf as [Hw Hwf].
    simpl fileOfLines. rewrite (cons_middle LF), app_assoc, scanBuffer_app.
    rewrite scanBuffer_line by done.
    replace (pos + Z.of_nat (length (l ++ [LF])))
      with (pos + Z.of_nat (length l) + 1) by (rewrite length_app; simpl; lia).
    simpl records in *.
    destruct (classify l) as [| |p t] eqn:Ec; [|done|].
    + simpl. simpl in Hrn, Hcont, Hpcont.
      destruct (IH done (pos + Z.of_nat (length l) + 1)
                  (withLine st [] (pos + Z.of_nat (length l) + 1)))
        as (st' & Hscan & Hidx' & Hsorted'); try done.
      by exists st'.
    + simpl app in Hrn, Hcont, Hpcont. rewrite !fmap_cons in Hcont, Hpcont.
      simpl in Hcont. apply Forall_cons in Hrn as [Hp Hrn].
      destruct Hcont as [Hc1 Hc2].
      assert (sortingFixed st = false -> fileSortedByPOC (self st) = false) as Hund.
      { intros Hf. by destruct Hidx as (_ & _ & _ & Hs); destruct (Hs Hf). }
      destruct (indexRecord_step done
                  (withLine st l (lineBufferStartPos st)) p t)
        as (st1 & Hstep & Hidx1 & Hfixed & Hdecide); try done.
      { simpl. intros Hs Hin.
        assert (sortingFixed st = true) as Hf.
        { destruct (sortingFixed st) eqn:Hf; [done|]. rewrite Hund in Hs; done. }
        unfold finalSorted in Hpcont. rewrite Hf in Hpcont.
        simpl in Hpcont. by apply (Hpcont Hs). }
      simpl in Hfixed, Hdecide.
      rewrite Hstep. simpl bind. simpl lineBufferStartPos in Hidx1.
      rewrite Hpos in Hidx1.
      assert (finalSorted (withLine st1 [] (pos + Z.of_nat (length l) + 1))
                (Some (p, t)) (records (pos + Z.of_nat (length l) + 1) ls).*1
              = finalSorted st (last done.*1)
                  ((p, t) :: (records (pos + Z.of_nat (length l) + 1) ls).*1))
        as Hfinal.
      { unfold finalSorted. simpl sortingFixed. simpl self.
        destruct (sortingFixed st) eqn:Hf.
        - destruct (Hfixed eq_refl) as [-> ->]. done.
        - specialize (Hdecide eq_refl). simpl.
          destruct (last done.*1) as [k0|].
          + destruct (decide ((p, t) = k0)) as [<-|Hne].
            * by rewrite Hdecide.
            * by destruct Hdecide as [-> ->].
          + by rewrite Hdecide. }
      destruct (IH (done ++ [(p, t, pos)]) (pos + Z.of_nat (length l) + 1)
                  (withLine st1 [] (pos + Z.of_nat (length l) + 1)))
        as (st' & Hscan & Hidx' & Hsorted'); try done.
      * apply Forall_app. split; [done|]. by apply Forall_singleton.
      * by rewrite fmap_app.
      * rewrite last_keys_snoc, Hfinal. intros Hfs.
        rewrite !fmap_app. simpl. by apply Hpcont.
      * exists st'. split; [done|]. rewrite <- app_assoc in Hidx'.
        split; [done|]. by rewrite Hsorted', last_keys_snoc, Hfinal.
Qed.

Lemma indexed_start (it : item) :
  pocTypeStartList it = ∅ ->
  fileSortedByPOC it = false ->
  indexed [] (startScan it).
Proof.
  intros Hm Hs. repeat split; simpl; try done.
  - intros p t. rewrite Hm. unfold lookupPos. by rewrite lookup_empty.
  - intros p. rewrite Hm, lookup_empty. by intros [? ?].
  - intros k Hk. by apply elem_of_nil in Hk.
Qed.

(** Closes [contiguous] on an explicit list. *)
Ltac solve_contiguous :=
  unfold contiguous; simpl; repeat split; try done;
  let H := fresh in
  intros H;
  repeat (apply elem_of_cons in H as [H|H]; [try discriminate; try done|]);
  try (by apply elem_of_nil in H).

(** C5, as stated, fails: two lines of one POC with two types satisfy
    every condition of "strictly sequential" (each pair, each POC and
    each type is contiguous), and the indexer marks the file as sorted
    by POC, that is interleaved. *)
Lemma sequential_layout_counterexample :
  let lines := [qs "0;0;0;8;8;1;5"; qs "0;0;0;8;8;2;7"] in
  contiguous (records 0 lines).*1
  /\ contiguous (records 0 lines).*1.*1
  /\ contiguous (records 0 lines).*1.*2
  /\ exists it',
       readFrameAndTypePositionsFromFile STAT_PARSING_BUFFER_SIZE (fun _ => false)
         (fileOfLines lines) newItem = Some (Ok it')
       /\ fileSortedByPOC it' = true
       /\ parsingError it' = [].
Proof.
  intros lines.
  assert (records 0 lines = [(0, 1, 0); (0, 2, 14)]) as -> by (vm_compute; reflexivity).
  split; [|split; [|split]]; [solve_contiguous..|].
  eexists. split; [vm_compute; reflexivity|].
  split; vm_compute; reflexivity.
Qed.

(** C5, amended. For a body of lines that all end with a line feed,
    whose data records have at least six fields and a non-negative POC,
    in which the records of each (POC, type) pair are contiguous and,
    if the first change between consecutive data records keeps the POC,
    the records of each POC are contiguous: the indexer, run to
    completion, returns without an error; the index holds for each pair
    of the body exactly the byte offset of the first line of that pair,
    and nothing for any other pair; and [fileSortedByPOC] is cleared
    (sequential) when the first change between consecutive data records
    is a change of POC or there is no change, and set (interleaved) when
    the first change keeps the POC and changes the typeID. *)
Theorem contiguous_body_indexed (bufSize : Z) (cancel : nat -> bool)
    (lines : list QString) (it : item) :
  0 < bufSize ->
  (forall j, cancel j = false) ->
  pocTypeStartList it = ∅ ->
  fileSortedByPOC it = false ->
  Forall (Forall (fun c => c <> LF)) lines ->
  Forall (fun l => classify l <> Malformed) lines ->
  Forall (fun r => 0 <= r.1.1) (records 0 lines) ->
  contiguous (records 0 lines).*1 ->
  (interleavedStart None (records 0 lines).*1 = true ->
   contiguous (records 0 lines).*1.*1) ->
  exists it',
    readFrameAndTypePositionsFromFile bufSize cancel (fileOfLines lines) it
    = Some (Ok it')
    /\ parsingError it' = parsingError it
    /\ (forall p t,
          lookupPos (pocTypeStartList it') p t = firstOffset (records 0 lines) p t)
    /\ fileSortedByPOC it' = interleavedStart None (records 0 lines).*1.
Proof.
  intros Hb Hgo Hm Hs Hlf Hwf Hnn Hcont Hpcont.
  destruct (scan_lines_indexed lines [] 0 (startScan it))
    as (st' & Hscan & (Hidx & _) & Hsorted); try done.
  { by apply indexed_start. }
  unfold readFrameAndTypePositionsFromFile.
  rewrite scanLoop_complete by done. rewrite Hscan. simpl.
  eexists. split; [reflexivity|]. simpl. repeat split; try done.
  apply (scanBuffer_keeps_error 0 0 (fileOfLines lines) (startScan it) st').
  by rewrite Hscan.
Qed.

Lemma contiguous_body_indexed_witness :
  exists it',
    readFrameAndTypePositionsFromFile 16 (fun _ => false)
      (fileOfLines sequentialLines) newItem = Some (Ok it')
    /\ fileSortedByPOC it' = false
    /\ lookupPos (pocTypeStartList it') 0 1 = Some 19
    /\ lookupPos (pocTypeStartList it') 1 1 = Some 33
    /\ lookupPos (pocTypeStartList it') 0 2 = Some 48
    /\ lookupPos (pocTypeStartList it') 1 2 = None.
Proof.
  assert (records 0 sequentialLines = [(0, 1, 19); (1, 1, 33); (0, 2, 48)]) as Hrec
    by (vm_compute; reflexivity).
  destruct (contiguous_body_indexed 16 (fun _ => false) sequentialLines newItem)
    as (it' & Hrun & _ & Hidx & Hs).
  - lia.
  - reflexivity.
  - reflexivity.
  - reflexivity.
  - repeat (constructor; [repeat (constructor; [discriminate|]); constructor|]).
    constructor.
  - repeat (constructor; [vm_compute; discriminate|]). constructor.
  - rewrite Hrec. repeat (constructor; [simpl; lia|]). constructor.
  - rewrite Hrec. solve_contiguous.
  - rewrite Hrec. simpl. discriminate.
  - exists it'. rewrite !Hidx, Hs, Hrec. repeat split; try done.
Defined.

(* ================================================================== *)
(** ** Further properties: the line tokenizer *)
(* ================================================================== *)

Lemma split_cons (d : ascii) (s : QString) : exists f fs, split d s = f :: fs.
Proof.
  induction s as [|c s (f & fs & IH)]; simpl; [eauto|].
  destruct (Ascii.eqb c d); [eauto|]. rewrite IH. eauto.
Qed.

Lemma split_length (d : ascii) (s : QString) :
  length (split d s) = S (length (List.filter (fun c => Ascii.eqb c d) s)).
Proof.
  induction s as [|c s IH]; simpl; [done|].
  destruct (split_cons d s) as (f & fs & E).
  destruct (Ascii.eqb c d); simpl; [by rewrite IH|].
  rewrite E in *. simpl in *. done.
Qed.

Lemma joinWith_cons (d : ascii) (f g : QString) (fs : QStringList) :
  joinWith d (f :: g :: fs) = f ++ d :: joinWith d (g :: fs).
Proof. reflexivity. Qed.

Lemma split_join (d : ascii) (s : QString) : joinWith d (split d s) = s.
Proof.
  induction s as [|c s IH]; simpl; [done|].
  destruct (split_cons d s) as (f & fs & E).
  destruct (Ascii.eqb c d) eqn:Ec.
  - apply Ascii.eqb_eq in Ec as ->. rewrite E in *.
    by rewrite joinWith_cons, IH.
  - rewrite E in *. destruct fs as [|g fs].
    + simpl in *. by rewrite IH.
    + rewrite joinWith_cons in *. by rewrite <- IH.
Qed.

Lemma split_fields (d : ascii) (s : QString) :
  Forall (fun f => forall c, c ∈ f -> c ∈ s /\ c <> d) (split d s).
Proof.
  induction s as [|c s IH]; simpl.
  - constructor; [|constructor]. intros c Hc. by apply elem_of_nil in Hc.
  - assert (Forall (fun f => forall c0, c0 ∈ f -> c0 ∈ c :: s /\ c0 <> d) (split d s))
      as IH'.
    { eapply Forall_impl; [exact IH|]. intros f Hf c0 Hc0.
      destruct (Hf c0 Hc0). split; [by right | done]. }
    destruct (Ascii.eqb c d) eqn:Ec.
    + constructor; [|done]. intros c0 Hc0. by apply elem_of_nil in Hc0.
    + apply Ascii.eqb_neq in Ec.
      destruct (split d s) as [|f fs].
      * constructor; [|constructor]. intros c0 Hc0.
        apply list_elem_of_singleton in Hc0 as ->. split; [by left | done].
      * apply Forall_cons in IH' as [Hf Hfs]. constructor; [|done].
        intros c0 Hc0. apply elem_of_cons in Hc0 as [->|Hc0]; [|by apply Hf].
        split; [by left | done].
Qed.

Lemma remove_spec (x c : ascii) (s : QString) :
  c ∈ remove x s <-> c ∈ s /\ c <> x.
Proof.
  unfold remove. rewrite !list_elem_of_In, filter_In, negb_true_iff.
  by rewrite Ascii.eqb_neq.
Qed.

(** X1. A line always yields at least one field, so that field 0 can be
    read; the number of fields is one more than the number of delimiters
    left after trimming and removing the spaces. *)
Theorem parseCSVLine_field_count (srcLine : QString) (delimiter : ascii) :
  length (parseCSVLine srcLine delimiter)
  = S (length (List.filter (fun c => Ascii.eqb c delimiter)
                 (remove " "%char (trimmed srcLine))))
  /\ is_Some (parseCSVLine srcLine delimiter !! 0%nat).
Proof.
  unfold parseCSVLine. split; [apply split_length|].
  destruct (split_cons delimiter (remove " "%char (trimmed srcLine))) as (f & fs & ->).
  simpl. eauto.
Qed.

(** X2. Joining the fields of a line with the delimiter gives back the
    trimmed line without its spaces: apart from surrounding whitespace
    and spaces, the tokenizer loses nothing and adds nothing. *)
Theorem parseCSVLine_join (srcLine : QString) (delimiter : ascii) :
  joinWith delimiter (parseCSVLine srcLine delimiter)
  = remove " "%char (trimmed srcLine).
Proof. apply split_join. Qed.

(** X3. No field of a tokenised line contains a space or the delimiter,
    and every character of a field is a character of the line. *)
Theorem parseCSVLine_fields_clean (srcLine : QString) (delimiter : ascii) :
  Forall (fun f => forall c, c ∈ f ->
                     c <> " "%char /\ c <> delimiter /\ c ∈ trimmed srcLine)
         (parseCSVLine srcLine delimiter).
Proof.
  unfold parseCSVLine.
  eapply Forall_impl; [apply split_fields|].
  intros f Hf c Hc. destruct (Hf c Hc) as [Hin Hd].
  apply remove_spec in Hin as [Hin Hsp]. done.
Qed.

Lemma dropSpaces_spaces (ws x : QString) :
  Forall (fun c => isSpace c = true) ws -> dropSpaces (ws ++ x) = dropSpaces x.
Proof.
  induction 1 as [|c ws Hc Hws IH]; simpl; [done|]. by rewrite Hc.
Qed.

Lemma dropSpaces_app (x y : QString) :
  dropSpaces x <> [] -> dropSpaces (x ++ y) = dropSpaces x ++ y.
Proof.
  induction x as [|c x IH]; simpl; [done|].
  destruct (isSpace c); [exact IH | done].
Qed.

Lemma dropSpaces_nil (x : QString) :
  dropSpaces x = [] -> Forall (fun c => isSpace c = true) x.
Proof.
  induction x as [|c x IH]; simpl; [constructor|].
  destruct (isSpace c) eqn:E; [|done]. intros H. constructor; auto.
Qed.

Lemma trimmed_surrounded (ws1 ws2 l : QString) :
  Forall (fun c => isSpace c = true) ws1 ->
  Forall (fun c => isSpace c = true) ws2 ->
  trimmed (ws1 ++ l ++ ws2) = trimmed l.
Proof.
  intros H1 H2. unfold trimmed. rewrite dropSpaces_spaces by done.
  destruct (dropSpaces l) as [|c r] eqn:E.
  - apply dropSpaces_nil in E.
    rewrite (dropSpaces_spaces l ws2 E).
    rewrite <- (app_nil_r ws2), (dropSpaces_spaces ws2 [] H2). done.
  - rewrite dropSpaces_app by (by rewrite E). rewrite E, rev_app_distr.
    rewrite dropSpaces_spaces; [done|].
    apply Forall_forall. intros x Hx. rewrite Forall_forall in H2. apply H2.
    apply list_elem_of_In. apply list_elem_of_In in Hx. by apply in_rev.
Qed.

(** X4. Whitespace around a line (a carriage return, a line feed, tabs,
    spaces) does not change its fields: the line read with its
    terminator and the line read without it are tokenised alike. *)
Theorem parseCSVLine_surrounding_whitespace (ws1 ws2 srcLine : QString) (delimiter : ascii) :
  Forall (fun c => isSpace c = true) ws1 ->
  Forall (fun c => isSpace c = true) ws2 ->
  parseCSVLine (ws1 ++ srcLine ++ ws2) delimiter = parseCSVLine srcLine delimiter.
Proof.
  intros H1 H2. unfold parseCSVLine. by rewrite trimmed_surrounded.
Qed.

Lemma parseCSVLine_surrounding_whitespace_witness :
  parseCSVLine (qs " " ++ qs "0;1;2" ++ ["013"%char; LF]) ";"%char
  = parseCSVLine (qs "0;1;2") ";"%char.
Proof.
  apply parseCSVLine_surrounding_whitespace.
  - repeat constructor.
  - repeat constructor.
Defined.

(* ================================================================== *)
(** ** Further properties: the position indexer *)
(* ================================================================== *)

(** Whatever the flag does, the loop returns the scan of a prefix of the
    file. *)
Lemma scanLoop_prefix (bufSize : Z) (cancel : nat -> bool) (file : list ascii) (st : scan) :
  0 < bufSize ->
  exists n,
    scanLoop bufSize cancel (S (length file)) file 0 0 false st
    = Some (scanBuffer 0 0 (take n file) st).
Proof.
  intros Hb.
  destruct (first_set cancel (length file)) as [(k & _ & Hk & Hgo)|Hgo].
  - exists (k * Z.to_nat bufSize)%nat.
    rewrite (scanLoop_cancelled bufSize Hb cancel file k st Hgo Hk).
    by rewrite afterChunks_take.
  - exists (S (length file) * Z.to_nat bufSize)%nat.
    pose proof (scanLoop_spec bufSize Hb cancel file (S (length file))
                  (S (length file)) 0 0 st) as H.
    change (Z.of_nat 0) with 0 in H. rewrite drop_0 in H.
    apply H; [lia | | right; nia].
    intros j Hj. apply Hgo. lia.
Qed.


(** X5. Without a cancellation the result does not depend on the size
    of the buffer: lines that straddle a buffer boundary are indexed as
    if the file were scanned in one piece. *)
Theorem indexer_buffer_size_irrelevant (size1 size2 : Z) (cancel1 cancel2 : nat -> bool)
    (file : list ascii) (it : item) :
  0 < size1 -> 0 < size2 ->
  (forall j, cancel1 j = false) -> (forall j, cancel2 j = false) ->
  readFrameAndTypePositionsFromFile size1 cancel1 file it
  = readFrameAndTypePositionsFromFile size2 cancel2 file it.
Proof.
  intros H1 H2 Hc1 Hc2. unfold readFrameAndTypePositionsFromFile.
  by rewrite !scanLoop_complete.
Qed.

Lemma indexer_buffer_size_irrelevant_witness :
  readFrameAndTypePositionsFromFile 5 (fun _ => false) threeLines newItem
  = readFrameAndTypePositionsFromFile STAT_PARSING_BUFFER_SIZE (fun _ => false)
      threeLines newItem.
Proof.
  apply indexer_buffer_size_irrelevant; [lia | reflexivity | done | done].
Defined.

(** X6. For every positive buffer size, every file and every behaviour
    of the cancellation flag the loop ends: the function returns, or it
    dies in an access out of range.  It never passes an exception on:
    what it throws it catches itself. *)
Theorem indexer_returns (bufSize : Z) (cancel : nat -> bool) (file : list ascii) (it : item) :
  0 < bufSize ->
  exists r,
    readFrameAndTypePositionsFromFile bufSize cancel file it = Some r
    /\ (r = Crash \/ exists it', r = Ok it').
Proof.
  intros Hb. unfold readFrameAndTypePositionsFromFile.
  destruct (scanLoop_prefix bufSize cancel file (startScan it) Hb) as [n ->].
  simpl. eexists. split; [reflexivity|].
  destruct (scanBuffer 0 0 (take n file) (startScan it)); simpl; eauto.
Qed.

Lemma indexer_returns_witness :
  exists r,
    readFrameAndTypePositionsFromFile 4 (fun n => (3 <=? n)%nat) threeLines newItem
    = Some r.
Proof.
  destruct (indexer_returns 4 (fun n => (3 <=? n)%nat) threeLines newItem)
    as (r & Hr & _); [lia|].
  by exists r.
Defined.

(** X7. Bytes after the last line feed are never indexed: a last line
    without a terminator leaves the result as it is without that line. *)
Theorem unterminated_last_line_ignored (bufSize : Z) (cancel : nat -> bool)
    (file l : list ascii) (it : item) :
  0 < bufSize ->
  (forall j, cancel j = false) ->
  Forall (fun c => c <> LF) l ->
  readFrameAndTypePositionsFromFile bufSize cancel (file ++ l) it
  = readFrameAndTypePositionsFromFile bufSize cancel file it.
Proof.
  intros Hb Hgo Hl. unfold readFrameAndTypePositionsFromFile.
  rewrite !scanLoop_complete by done. simpl. f_equal.
  rewrite scanBuffer_app.
  destruct (scanBuffer 0 0 file (startScan it)) as [st| |]; simpl; [|done..].
  by rewrite scanBuffer_accumulate.
Qed.

Lemma unterminated_last_line_ignored_witness :
  readFrameAndTypePositionsFromFile 16 (fun _ => false)
    (threeLines ++ qs "3;0;0;8;8;1;9") newItem
  = readFrameAndTypePositionsFromFile 16 (fun _ => false) threeLines newItem.
Proof.
  apply unterminated_last_line_ignored; [lia | done |].
  repeat (constructor; [discriminate|]). constructor.
Defined.




(** A record that is indexed without a throw keeps the first-occurrence
    rule, whatever the layout and whatever came before. *)
Lemma indexRecord_first_occurrence (done : list (Z * Z * Z)) (st : scan) (p t : Z)
    (st' : scan) :
  indexed done st ->
  Forall (fun r => 0 <= r.1.1) done ->
  indexRecord st p t = Ok st' ->
  indexed (done ++ [(p, t, lineBufferStartPos st)]) st'.
Proof.
  intros (Hidx & Hpocs & Hlast & Hsame) Hnn.
  pose proof (updateMaxPOC_index
                (setIndex (self st)
                   (setPos (pocTypeStartList (self st)) p t
                      (lineBufferStartPos st))) p) as [Hu1 Hu2].
  destruct (last done.*1) as [[lp lt]|] eqn:El.
  - simpl in Hlast. destruct Hlast as [HlP HlT].
    assert ((lp, lt) ∈ done.*1) as Hlin by by apply last_Some_elem_of.
    assert (0 <= lastPOC st) as Hlp.
    { apply list_elem_of_fmap in Hlin as ([[a b] c] & E & Hin).
      rewrite Forall_forall in Hnn. specialize (Hnn _ Hin). simpl in *. congruence. }
    unfold indexRecord. rewrite (not_first_line _ Hlp), HlP, HlT.
    destruct (decide (p = lp)) as [->|Hp].
    + rewrite Z.eqb_refl, andb_true_r.
      destruct (decide (t = lt)) as [->|Ht].
      * rewrite Z.eqb_refl. cbn [negb]. intros [= <-].
        apply indexed_snoc; try done.
        -- intros q u. by rewrite index_after_repeat.
        -- intros q Hq. right. by apply Hpocs.
        -- intros Hf. destruct (Hsame Hf) as [Hs1 Hs2]. split; [done|].
           intros k Hk. specialize (Hs2 k Hk). congruence.
      * rewrite (proj2 (Z.eqb_neq _ _) Ht). cbn [negb].
        assert (forall s : scan,
                   pocTypeStartList (self s) = pocTypeStartList (self st) ->
                   containsType (pocTypeStartList (self s)) lp t
                   = bool_decide ((lp, t) ∈ done.*1)) as Hct.
        { intros s ->. rewrite containsType_lookup, Hidx.
          apply bool_decide_ext. apply firstOffset_Some. }
        destruct (sortingFixed st) eqn:Hf; cbn [negb]; simpl;
          rewrite (Hct st eq_refl);
          destruct (decide ((lp, t) ∈ done.*1)) as [Hin|Hnew];
          rewrite ?(bool_decide_eq_true_2 _ Hin), ?(bool_decide_eq_false_2 _ Hnew);
          cbn [negb]; intros [= <-];
          apply indexed_snoc; simpl; try done; try congruence.
        all: try (intros q u; rewrite lookupPos_touch, index_after_repeat; by auto).
        all: try (intros q u; rewrite <- (index_after_new _ done lp t _ Hidx Hnew);
                  rewrite !lookupPos_setPos; by rewrite lookupPos_touch).
        all: intros q Hq; try (apply setPos_pocs in Hq as [->|Hq]; [by left|]);
          apply touch_pocs in Hq as [->|Hq]; [by left|]; right; by apply Hpocs.
    + rewrite (proj2 (Z.eqb_neq _ _) Hp), andb_false_r. cbn [negb].
      assert (forall st2 : scan,
                 self st2 = updateMaxPOC
                              (setIndex (self st)
                                 (setPos (pocTypeStartList (self st)) p t
                                    (lineBufferStartPos st))) p ->
                 lastPOC st2 = p -> lastType st2 = t -> sortingFixed st2 = true ->
                 (p, t) ∉ done.*1 ->
                 indexed (done ++ [(p, t, lineBufferStartPos st)]) st2) as Hind.
      { intros st2 Hself HP HT Hfx Hnew.
        apply indexed_snoc; rewrite ?Hself, ?Hu1, ?Hu2; simpl; try done.
        - by apply index_after_new.
        - intros q Hq. apply setPos_pocs in Hq as [->|Hq]; [by left|].
          right. by apply Hpocs.
        - intros; congruence. }
      assert (containsPOC (pocTypeStartList (self st)) p = false ->
              (p, t) ∉ done.*1) as Hnew1.
      { intros Hc Hin. apply firstOffset_Some in Hin. rewrite <- Hidx in Hin.
        apply bool_decide_eq_false_1 in Hc. apply Hc.
        unfold lookupPos in Hin. destruct (pocTypeStartList (self st) !! p); [eauto|].
        by destruct Hin. }
      assert ((containsPOC (pocTypeStartList (self st)) p
               && containsType (pocTypeStartList (self st)) p t) = false ->
              (p, t) ∉ done.*1) as Hnew2.
      { intros Hc Hin. apply firstOffset_Some in Hin. rewrite <- Hidx in Hin.
        apply lookupPos_contains in Hin. congruence. }
      destruct (sortingFixed st) eqn:Hf; cbn [negb]; simpl;
        destruct (fileSortedByPOC (self st)) eqn:Hs;
        [ destruct (containsPOC (pocTypeStartList (self st)) p) eqn:Hc
        | destruct (containsPOC (pocTypeStartList (self st)) p
                    && containsType (pocTypeStartList (self st)) p t) eqn:Hc
        | destruct (containsPOC (pocTypeStartList (self st)) p) eqn:Hc
        | destruct (containsPOC (pocTypeStartList (self st)) p
                    && containsType (pocTypeStartList (self st)) p t) eqn:Hc ];
        try discriminate; intros [= <-]; apply Hind; simpl; auto.
  - destruct Hlast as [HlP HlT].
    assert (done = []) as ->.
    { apply last_None in El. by apply fmap_nil_inv in El. }
    unfold indexRecord. rewrite HlP, HlT. simpl. intros [= <-].
    apply (indexed_snoc []); simpl; rewrite ?Hu1, ?Hu2; simpl; try done.
    + intros q u. apply (index_after_new _ [] p t _ Hidx). apply not_elem_of_nil.
    + intros q Hq. apply setPos_pocs in Hq as [->|Hq]; [by left|].
      right. by apply Hpocs.
    + intros Hf. destruct (Hsame Hf) as [Hs _]. split; [done|].
      intros k Hk. by apply elem_of_nil in Hk.
Qed.

(** A throw leaves the object as it is, comes after the layout has been
    fixed and carries the message of the layout. *)
Lemma indexRecord_throw (st : scan) (p t : Z) (m : QString) (st' : scan) :
  indexRecord st p t = Throw m st' ->
  self st' = self st /\ lastPOC st' = lastPOC st /\ lastType st' = lastType st
  /\ sortingFixed st' = true
  /\ ((m = msgInterleaved /\ fileSortedByPOC (self st) = true)
      \/ (m = msgSequential /\ fileSortedByPOC (self st) = false)).
Proof.
  indexRecord_cases; intros [= <- <-]; simpl; repeat split; auto;
    match goal with
    | H : negb (sortingFixed _) = false |- _ =>
        apply negb_false_iff in H; exact H
    end.
Qed.

Lemma processLine_throw (st : scan) (m : QString) (st' : scan) :
  processLine st = Throw m st' ->
  exists p t, indexRecord st p t = Throw m st'.
Proof.
  rewrite processLine_classify.
  destruct (classify (lineBuffer st)); [done | done | eauto].
Qed.

(** The message and the layout flag of a throw of the scan. *)
Lemma scanBuffer_throw (b : Z) (buf : list ascii) :
  forall (i : Z) (st : scan) (m : QString) (st' : scan),
    scanBuffer b i buf st = Throw m st' ->
    (m = msgInterleaved /\ fileSortedByPOC (self st') = true)
    \/ (m = msgSequential /\ fileSortedByPOC (self st') = false).
Proof.
  induction buf as [|c buf IH]; intros i st m st'; simpl; [done|].
  destruct (scanByte b i c st) as [st1|m1 st1|] eqn:E; simpl; [by apply IH| |done].
  intros [= <- <-]. unfold scanByte in E.
  destruct (code c =? 10); [|done].
  destruct (0 <? Z.of_nat (length (lineBuffer st))); [|done].
  destruct (processLine st) as [s|m2 s|] eqn:Ep; simpl in E; [done| |done].
  injection E as <- <-.
  apply processLine_throw in Ep as (p & t & Ep).
  apply indexRecord_throw in Ep as (-> & _ & _ & _ & H). exact H.
Qed.

(** X9. The only messages the function ever stores are the two
    continuity messages, each after the common prefix, and each tells
    the layout the scan had decided on: the POC message comes with
    [fileSortedByPOC] set, the typeID message with it cleared.
    Otherwise [parsingError] is left as it was. *)
Theorem indexer_error_messages (bufSize : Z) (cancel : nat -> bool)
    (file : list ascii) (it it' : item) :
  0 < bufSize ->
  readFrameAndTypePositionsFromFile bufSize cancel file it = Some (Ok it') ->
  parsingError it' = parsingError it
  \/ (parsingError it' = msgPrefix ++ msgInterleaved /\ fileSortedByPOC it' = true)
  \/ (parsingError it' = msgPrefix ++ msgSequential /\ fileSortedByPOC it' = false).
Proof.
  intros Hb. unfold readFrameAndTypePositionsFromFile.
  destruct (scanLoop_prefix bufSize cancel file (startScan it) Hb) as [n ->].
  simpl. destruct (scanBuffer 0 0 (take n file) (startScan it)) as [st|m st|] eqn:E;
    simpl; [| |done]; intros [= <-]; simpl.
  - left. apply (scanBuffer_keeps_error 0 0 (take n file) (startScan it) st).
    by rewrite E.
  - right. apply scanBuffer_throw in E as [[-> Hs]|[-> Hs]]; auto.
Qed.

Lemma indexer_error_messages_witness :
  exists it',
    readFrameAndTypePositionsFromFile 16 (fun _ => false)
      (returningPrefix ++ [LF]) newItem = Some (Ok it')
    /\ (parsingError it' = parsingError newItem
        \/ (parsingError it' = msgPrefix ++ msgInterleaved /\ fileSortedByPOC it' = true)
        \/ (parsingError it' = msgPrefix ++ msgSequential
            /\ fileSortedByPOC it' = false)).
Proof.
  eexists. split; [vm_compute; reflexivity|].
  apply (indexer_error_messages 16 (fun _ => false) (returningPrefix ++ [LF]) newItem);
    [lia | vm_compute; reflexivity].
Defined.

(** The index after the lines of a body: the first-occurrence rule for
    the records scanned, all of them unless the scan threw. *)
Lemma scan_lines_first_occurrence (lines : list QString) :
  forall (done : list (Z * Z * Z)) (pos : Z) (st : scan),
    indexed done st ->
    lineBuffer st = [] ->
    lineBufferStartPos st = pos ->
    Forall (Forall (fun c => c <> LF)) lines ->
    Forall (fun r => 0 <= r.1.1) done ->
    Forall (fun r => 0 <= r.1.1) (records pos lines) ->
    match scanBuffer 0 pos (fileOfLines lines) st with
    | Ok st' => indexed (done ++ records pos lines) st'
    | Throw m st' => exists k, indexed (done ++ take k (records pos lines)) st'
    | Crash => True
    end.
Proof.
  induction lines as [|l ls IH]; intros done pos st Hidx Hbuf Hpos Hlf Hnn Hrn.
  - simpl. by rewrite app_nil_r.
  - apply Forall_cons in Hlf as [Hl Hlf].
    simpl fileOfLines. rewrite (cons_middle LF), app_assoc, scanBuffer_app.
    rewrite scanBuffer_line by done.
    replace (pos + Z.of_nat (length (l ++ [LF])))
      with (pos + Z.of_nat (length l) + 1) by (rewrite length_app; simpl; lia).
    simpl records in *.
    destruct (classify l) as [| |p t] eqn:Ec; [|done|].
    + simpl. simpl in Hrn.
      apply (IH done (pos + Z.of_nat (length l) + 1)
               (withLine st [] (pos + Z.of_nat (length l) + 1))); done.
    + simpl app in Hrn. apply Forall_cons in Hrn as [Hp Hrn].
      destruct (indexRecord (withLine st l (lineBufferStartPos st)) p t)
        as [st1|m st1|] eqn:Hstep; simpl bind; [| |done].
      * apply (indexRecord_first_occurrence done) in Hstep; [|done..].
        simpl in Hstep. rewrite Hpos in Hstep.
        specialize (IH (done ++ [(p, t, pos)]) (pos + Z.of_nat (length l) + 1)
                      (withLine st1 [] (pos + Z.of_nat (length l) + 1))).
        simpl app. rewrite (cons_middle (p, t, pos)), !app_assoc.
        destruct (scanBuffer 0 (pos + Z.of_nat (length l) + 1) (fileOfLines ls)
                    (withLine st1 [] (pos + Z.of_nat (length l) + 1)))
          as [st'|m st'|]; [| |done].
        -- apply IH; try done. apply Forall_app. split; [done|].
           by apply Forall_singleton.
        -- destruct IH as [k Hk]; try done.
           { apply Forall_app. split; [done|]. by apply Forall_singleton. }
           exists (S k). simpl. by rewrite (cons_middle (p, t, pos)), app_assoc.
      * exists 0%nat. simpl. rewrite app_nil_r.
        apply indexRecord_throw in Hstep as (Hself & HP & HT & Hfx & _).
        destruct Hidx as (H1 & H2 & H3 & H4).
        repeat split; rewrite ?Hself, ?HP, ?HT; simpl; try done; congruence.
Qed.

(** X10. First-occurrence rule.  For a body of lines that end with a
    line feed and whose data records have non-negative POCs, scanned to
    the end from an empty index: whatever the layout, and whether or not
    a continuity error ends the scan, the index holds for each pair the
    byte offset of the first line of that pair among the records
    scanned, and nothing else; without an error all records were
    scanned. *)
Theorem index_holds_first_occurrences (bufSize : Z) (cancel : nat -> bool)
    (lines : list QString) (it it' : item) :
  0 < bufSize ->
  (forall j, cancel j = false) ->
  pocTypeStartList it = ∅ ->
  fileSortedByPOC it = false ->
  Forall (Forall (fun c => c <> LF)) lines ->
  Forall (fun r => 0 <= r.1.1) (records 0 lines) ->
  readFrameAndTypePositionsFromFile bufSize cancel (fileOfLines lines) it
  = Some (Ok it') ->
  exists k,
    (forall p t,
        lookupPos (pocTypeStartList it') p t
        = firstOffset (take k (records 0 lines)) p t)
    /\ (parsingError it' = parsingError it /\ take k (records 0 lines) = records 0 lines
        \/ parsingError it' = msgPrefix ++ msgInterleaved
        \/ parsingError it' = msgPrefix ++ msgSequential).
Proof.
  intros Hb Hgo Hm Hs Hlf Hnn. unfold readFrameAndTypePositionsFromFile.
  rewrite scanLoop_complete by done. simpl.
  pose proof (scan_lines_first_occurrence lines [] 0 (startScan it)
                (indexed_start it Hm Hs) eq_refl eq_refl Hlf
                (Forall_nil_2 _) Hnn) as H.
  destruct (scanBuffer 0 0 (fileOfLines lines) (startScan it)) as [st|m st|] eqn:E;
    simpl; [| |done]; intros [= <-]; simpl.
  - exists (length (records 0 lines)). rewrite take_ge by lia.
    destruct H as (Hi & _). split; [exact Hi|]. left. split; [|done].
    apply (scanBuffer_keeps_error 0 0 (fileOfLines lines) (startScan it) st).
    by rewrite E.
  - destruct H as [k (Hi & _)]. exists k. split; [exact Hi|]. right.
    apply scanBuffer_throw in E as [[-> _]|[-> _]]; auto.
Qed.

Lemma index_holds_first_occurrences_witness :
  exists it',
    readFrameAndTypePositionsFromFile 16 (fun _ => false)
      (fileOfLines [qs "3;0;0;8;8;1;5"; qs "4;0;0;8;8;1;7"; qs "3;0;0;8;8;1;9"])
      newItem = Some (Ok it')
    /\ exists k,
         forall p t,
           lookupPos (pocTypeStartList it') p t
           = firstOffset
               (take k (records 0 [qs "3;0;0;8;8;1;5"; qs "4;0;0;8;8;1;7";
                                   qs "3;0;0;8;8;1;9"])) p t.
Proof.
  eexists. split; [vm_compute; reflexivity|].
  edestruct (index_holds_first_occurrences 16 (fun _ => false)
               [qs "3;0;0;8;8;1;5"; qs "4;0;0;8;8;1;7"; qs "3;0;0;8;8;1;9"]
               newItem) as (k & Hk & _); [lia | done | done | done | | | |].
  - repeat (constructor; [repeat (constructor; [discriminate|]); constructor|]).
    constructor.
  - assert (records 0 [qs "3;0;0;8;8;1;5"; qs "4;0;0;8;8;1;7"; qs "3;0;0;8;8;1;9"]
            = [(3, 1, 0); (4, 1, 14); (3, 1, 28)]) as -> by (vm_compute; reflexivity).
    repeat (constructor; [simpl; lia|]). constructor.
  - vm_compute. reflexivity.
  - exists k. exact Hk.
Defined.

(* ================================================================== *)
(** ** Further properties: the header reader *)
(* ================================================================== *)

Lemma sameOutsideHeader_refl (it : item) : sameOutsideHeader it it.
Proof. by repeat split. Qed.

Lemma sameOutsideHeader_trans (a b c : item) :
  sameOutsideHeader a b -> sameOutsideHeader b c -> sameOutsideHeader a c.
Proof.
  intros (A1 & A2 & A3 & A4 & A5 & A6 & A7) (B1 & B2 & B3 & B4 & B5 & B6 & B7).
  repeat split; congruence.
Qed.

(** The cases of a chain of field accesses. *)
Ltac field_cases :=
  unfold field;
  repeat match goal with
         | |- context [match ?row !! ?i with _ => _ end] =>
             destruct (row !! i)
         end.

Lemma headerKind_members (positiveDouble : QString -> bool)
    (row : QStringList) (f1 : QString) (st : header) :
  match headerKind positiveDouble row f1 st with
  | Ok st' => sameOutsideHeader (obj st) (obj st')
  | Throw _ _ => False
  | Crash => True
  end.
Proof.
  unfold headerKind, headerType.
  repeat match goal with
         | |- context [if qeq f1 ?k then _ else _] => destruct (qeq f1 k)
         end;
    field_cases; try done; simpl; try apply sameOutsideHeader_refl.
  repeat match goal with
         | |- context [if ?c then _ else _] => destruct c
         end; by repeat split.
Qed.

Lemma headerLine_members (positiveDouble : QString -> bool)
    (aLine : QString) (st : header) :
  match headerLine positiveDouble aLine st with
  | Ok (_, st') => sameOutsideHeader (obj st) (obj st')
  | Throw _ _ => False
  | Crash => True
  end.
Proof.
  unfold headerLine. cbv zeta. unfold field at 1.
  destruct (parseCSVLine aLine ";"%char !! 0%nat) as [f0|]; [|done].
  destruct (isEmpty f0); [apply sameOutsideHeader_refl|].
  unfold field at 1.
  destruct (parseCSVLine aLine ";"%char !! 1%nat) as [f1|]; [|done].
  set (finish := (qeq f1 (qs "type") || negb (startsWithPercent f0))
                 && typeParsingActive st).
  set (st1 := if finish then _ else st).
  assert (sameOutsideHeader (obj st) (obj st1)) as H1.
  { subst st1. destruct finish; by repeat split. }
  destruct (finish && negb (startsWithPercent f0)); [done|].
  pose proof (headerKind_members positiveDouble (parseCSVLine aLine ";"%char) f1 st1)
    as H2.
  destruct (headerKind positiveDouble (parseCSVLine aLine ";"%char) f1 st1);
    [|done..].
  by eapply sameOutsideHeader_trans.
Qed.

Lemma headerLoop_members (positiveDouble : QString -> bool) (lines : list QString) :
  forall st : header,
    match headerLoop positiveDouble lines st with
    | Ok st' => sameOutsideHeader (obj st) (obj st')
    | Throw _ _ => False
    | Crash => True
    end.
Proof.
  induction lines as [|l ls IH]; intros st; simpl; [apply sameOutsideHeader_refl|].
  pose proof (headerLine_members positiveDouble l st) as H.
  destruct (headerLine positiveDouble l st) as [[[] st1]| |]; [done| |done..].
  specialize (IH st1).
  destruct (headerLoop positiveDouble ls st1); [|done..].
  by eapply sameOutsideHeader_trans.
Qed.

(** X11. The header reader never throws, so it never stores an error
    message: whenever it returns, [parsingError] is what it was, and so
    are the index, the layout flag, [maxPOC], the warning flag, the
    chart handler and the live-render cache.  It only writes the type
    registry, the frame size and the frame rate. *)
Theorem header_reader_reports_nothing (positiveDouble : QString -> bool)
    (fileOk : bool) (file : list ascii) (it it' : item) :
  readHeaderFromFile positiveDouble fileOk file it = Ok it' ->
  sameOutsideHeader it it'.
Proof.
  unfold readHeaderFromFile. destruct fileOk; simpl.
  - pose proof (headerLoop_members positiveDouble (readLines file)
                  (mkHeader (setStatSource it (clearStatTypes (statSource it)))
                     false newType)) as H.
    destruct (headerLoop positiveDouble (readLines file) _) as [st| |];
      [|done..].
    intros [= <-]. simpl in H. exact H.
  - intros [= <-]. apply sameOutsideHeader_refl.
Qed.

Lemma header_reader_reports_nothing_witness :
  exists it',
    readHeaderFromFile (fun _ => true) true
      (qs "%;seq-specs;name;0;64;64;25" ++ [LF] ++ qs "%;type;1;MV;vector" ++ [LF]
       ++ qs "0;0;0;8;8;1;3;4" ++ [LF]) loaderItem = Ok it'
    /\ sameOutsideHeader loaderItem it'.
Proof.
  eexists. split; [vm_compute; reflexivity|].
  apply (header_reader_reports_nothing (fun _ => true) true
           (qs "%;seq-specs;name;0;64;64;25" ++ [LF] ++ qs "%;type;1;MV;vector" ++ [LF]
            ++ qs "0;0;0;8;8;1;3;4" ++ [LF]) loaderItem).
  vm_compute. reflexivity.
Defined.

(** The lines of a file whose lines end with a line feed are read back
    one by one, each with its terminator. *)
Lemma readLines_line (l : QString) (s : list ascii) :
  Forall (fun c => c <> LF) l ->
  readLines (l ++ LF :: s) = (l ++ [LF]) :: readLines s.
Proof.
  induction l as [|c l IH]; intros Hl; simpl; [done|].
  apply Forall_cons in Hl as [Hc Hl].
  destruct (code c =? 10) eqn:E; [by apply code_LF in E|].
  by rewrite IH.
Qed.

Lemma readLines_fileOfLines (ls : list QString) (rest : list ascii) :
  Forall (Forall (fun c => c <> LF)) ls ->
  readLines (fileOfLines ls ++ rest)
  = ((fun l => l ++ [LF]) <$> ls) ++ readLines rest.
Proof.
  induction ls as [|l ls IH]; intros Hls; simpl; [done|].
  apply Forall_cons in Hls as [Hl Hls].
  rewrite <- app_assoc. simpl. rewrite readLines_line by done.
  by rewrite IH.
Qed.

Lemma parseCSVLine_terminated (l : QString) (d : ascii) :
  parseCSVLine (l ++ [LF]) d = parseCSVLine l d.
Proof.
  unfold parseCSVLine.
  rewrite <- (trimmed_surrounded [] [LF] l); [done | constructor |].
  by repeat constructor.
Qed.

Lemma percent_not_empty (f : QString) : startsWithPercent f = true -> isEmpty f = false.
Proof. by destruct f. Qed.

(** A [type] record read on a fresh type. *)
Lemma headerType_fresh (positiveDouble : QString -> bool) (it : item) (b : bool)
    (f0 f2 f3 : QString) (rest : QStringList) :
  headerType (f0 :: qs "type" :: f2 :: f3 :: rest) (mkHeader it b newType)
  = Ok (mkHeader it true (declaredType (f0 :: qs "type" :: f2 :: f3 :: rest))).
Proof.
  unfold headerType, declaredType, field. cbn [lookup list_lookup]. cbv zeta.
  destruct rest as [|f4 rest].
  - reflexivity.
  - replace (5 <=? Z.of_nat (length (f0 :: qs "type" :: f2 :: f3 :: f4 :: rest)))
      with true by (symmetry; apply Z.leb_le; simpl length; lia).
    cbn [lookup list_lookup default from_option id aType obj mkHeader andb].
    destruct (qeq f4 (qs "map") || qeq f4 (qs "range")); [reflexivity|].
    cbn [negb andb].
    destruct (qeq f4 (qs "vector") || qeq f4 (qs "line")); [|reflexivity].
    cbn [andb]. reflexivity.
Qed.

(** What a [type] record does: a pending type is registered, and the
    record opens a new one. *)
Lemma headerLine_typeRecord (positiveDouble : QString -> bool) (l : QString) (st : header) :
  typeRecord l ->
  (typeParsingActive st = false -> aType st = newType) ->
  headerLine positiveDouble (l ++ [LF]) st
  = Ok (false,
        mkHeader (if typeParsingActive st
                  then setStatSource (obj st) (addStatType (statSource (obj st)) (aType st))
                  else obj st)
                 true (declaredType (parseCSVLine l ";"%char))).
Proof.
  intros (f0 & f2 & f3 & rest & Hrow & Hp) Hfresh.
  unfold headerLine. cbv zeta. rewrite parseCSVLine_terminated, Hrow.
  unfold field at 1 2. cbn [lookup list_lookup].
  rewrite (percent_not_empty _ Hp), Hp.
  replace (qeq (qs "type") (qs "type")) with true by done.
  cbn [orb negb andb]. rewrite !andb_false_r.
  unfold headerKind.
  replace (qeq (qs "type") (qs "type")) with true by done.
  destruct st as [it [] t]; cbn [typeParsingActive obj aType].
  - by rewrite headerType_fresh.
  - cbn [typeParsingActive aType] in Hfresh. rewrite (Hfresh eq_refl).
    by rewrite headerType_fresh.
Qed.

(** A data line met while a type is pending registers the type and ends
    the reading. *)
Lemma headerLine_dataLine (positiveDouble : QString -> bool) (d : QString)
    (it : item) (t : StatisticsType) :
  dataLine d ->
  headerLine positiveDouble (d ++ [LF]) (mkHeader it true t)
  = Ok (true, mkHeader (setStatSource it (addStatType (statSource it) t)) false newType).
Proof.
  intros (f0 & f1 & rest & Hrow & Hne & Hp).
  unfold headerLine. cbv zeta. rewrite parseCSVLine_terminated, Hrow.
  unfold field at 1 2. cbn [lookup list_lookup].
  rewrite Hne, Hp. cbn [negb typeParsingActive mkHeader].
  rewrite orb_true_r. reflexivity.
Qed.

Lemma setStatSource_twice (it : item) (h h' : statisticHandler) :
  setStatSource (setStatSource it h) h' = setStatSource it h'.
Proof. reflexivity. Qed.

Lemma last_cons_default {A : Type} (l : list A) (d t : A) :
  List.last (d :: l) t = List.last l d.
Proof.
  revert d t. induction l as [|a l IH]; intros d t; [done|].
  change (List.last (a :: l) t = List.last (a :: l) d).
  by rewrite !IH.
Qed.

(** The loop over [type] records with a pending type [t]: the types seen
    so far without the last are registered, the last is pending. *)
Lemma headerLoop_typeRecords (positiveDouble : QString -> bool) (ls : list QString)
    (more : list QString) :
  Forall typeRecord ls ->
  forall (it : item) (t : StatisticsType),
    headerLoop positiveDouble (((fun l => l ++ [LF]) <$> ls) ++ more) (mkHeader it true t)
    = headerLoop positiveDouble more
        (mkHeader
           (setStatSource it
              (fold_left addStatType
                 (removelast (t :: ((fun l => declaredType (parseCSVLine l ";"%char)) <$> ls)))
                 (statSource it)))
           true
           (List.last ((fun l => declaredType (parseCSVLine l ";"%char)) <$> ls) t)).
Proof.
  induction ls as [|l ls IH]; intros Hls it t.
  - simpl. by destruct it.
  - apply Forall_cons in Hls as [Hl Hls].
    cbn [fmap list_fmap app headerLoop].
    rewrite (headerLine_typeRecord positiveDouble l (mkHeader it true t) Hl)
      by discriminate.
    cbn [typeParsingActive obj aType mkHeader].
    rewrite (IH Hls). cbn [statSource setStatSource]. rewrite setStatSource_twice.
    by rewrite last_cons_default.
Qed.

Lemma removelast_fmap {A B : Type} (f : A -> B) (l : list A) :
  removelast (f <$> l) = f <$> removelast l.
Proof.
  induction l as [|a [|b l] IH]; [done..|].
  change (f a :: removelast (f <$> b :: l) = f a :: (f <$> removelast (b :: l))).
  by rewrite IH.
Qed.

Lemma fold_left_last {A B : Type} (f : A -> B -> A) (l : list B) (x : B) (a : A) :
  f (fold_left f (removelast (x :: l)) a) (List.last l x) = fold_left f (x :: l) a.
Proof.
  revert x a. induction l as [|y l IH]; intros x a; [done|].
  change (f (fold_left f (removelast (y :: l)) (f a x)) (List.last (y :: l) x)
          = fold_left f (y :: l) (f a x)).
  rewrite <- (IH y (f a x)). f_equal.
  apply last_cons_default.
Qed.

(** X12. A header made of [type] records followed by a data line: the
    reader registers exactly the declared types, in the order of the
    lines and in a registry emptied before, and stops at the data line;
    whatever follows in the file is not read.  Nothing else in the
    object changes. *)
Theorem declared_types_registered (positiveDouble : QString -> bool)
    (l : QString) (ls : list QString) (d : QString) (rest : list ascii) (it : item) :
  Forall typeRecord (l :: ls) ->
  dataLine d ->
  Forall (Forall (fun c => c <> LF)) (l :: ls ++ [d]) ->
  readHeaderFromFile positiveDouble true (fileOfLines (l :: ls ++ [d]) ++ rest) it
  = Ok (setStatSource it (registerAll (clearStatTypes (statSource it)) (l :: ls))).
Proof.
  intros Hls Hd Hlf. unfold readHeaderFromFile. cbn [negb].
  rewrite readLines_fileOfLines by done.
  apply Forall_cons in Hls as [Hl Hls].
  cbn [fmap list_fmap app headerLoop].
  rewrite (headerLine_typeRecord positiveDouble l _ Hl) by done.
  cbn [typeParsingActive obj mkHeader].
  rewrite fmap_app, <- app_assoc.
  rewrite (headerLoop_typeRecords positiveDouble ls _ Hls).
  cbn [fmap list_fmap app headerLoop].
  rewrite (headerLine_dataLine positiveDouble d _ _ Hd).
  cbn [obj statSource setStatSource]. rewrite setStatSource_twice.
  unfold registerAll. cbn [fmap list_fmap].
  by rewrite (fold_left_last addStatType).
Qed.

Lemma declared_types_registered_witness :
  readHeaderFromFile (fun _ => true) true
    (fileOfLines ([qs "%;type;1;MV;vector"; qs "%;type;2;QP;range"]
                  ++ [qs "0;0;0;8;8;1;3;4"]) ++ qs "1;0;0;8;8;1;3;4") newItem
  = Ok (setStatSource newItem
          (registerAll (clearStatTypes (statSource newItem))
             [qs "%;type;1;MV;vector"; qs "%;type;2;QP;range"])).
Proof.
  apply (declared_types_registered (fun _ => true) (qs "%;type;1;MV;vector")
           [qs "%;type;2;QP;range"] (qs "0;0;0;8;8;1;3;4") (qs "1;0;0;8;8;1;3;4")
           newItem).
  - repeat constructor.
    + by exists (qs "%"), (qs "1"), (qs "MV"), [qs "vector"].
    + by exists (qs "%"), (qs "2"), (qs "QP"), [qs "range"].
  - by exists (qs "0"), (qs "0"), [qs "0"; qs "8"; qs "8"; qs "1"; qs "3"; qs "4"].
  - repeat (constructor; [repeat (constructor; [discriminate|]); constructor|]).
    constructor.
Defined.

(** X13. A header that ends with the file: the type declared by the
    last [type] record is never registered, because a type is stored
    only when a later line is read. *)
Theorem last_type_needs_following_line (positiveDouble : QString -> bool)
    (ls : list QString) (it : item) :
  Forall typeRecord ls ->
  Forall (Forall (fun c => c <> LF)) ls ->
  readHeaderFromFile positiveDouble true (fileOfLines ls) it
  = Ok (setStatSource it (registerAll (clearStatTypes (statSource it)) (removelast ls))).
Proof.
  intros Hls Hlf. unfold readHeaderFromFile. cbn [negb].
  rewrite <- (app_nil_r (fileOfLines ls)), readLines_fileOfLines by done.
  destruct ls as [|l ls]; [reflexivity|].
  apply Forall_cons in Hls as [Hl Hls].
  cbn [fmap list_fmap app headerLoop readLines].
  rewrite (headerLine_typeRecord positiveDouble l _ Hl) by done.
  cbn [typeParsingActive obj mkHeader].
  rewrite (headerLoop_typeRecords positiveDouble ls [] Hls).
  cbn [headerLoop obj statSource setStatSource]. rewrite setStatSource_twice.
  unfold registerAll. by rewrite <- removelast_fmap.
Qed.

Lemma last_type_needs_following_line_witness :
  readHeaderFromFile (fun _ => true) true
    (fileOfLines [qs "%;type;1;MV;vector"; qs "%;type;2;QP;range"]) newItem
  = Ok (setStatSource newItem
          (registerAll (clearStatTypes (statSource newItem))
             (removelast [qs "%;type;1;MV;vector"; qs "%;type;2;QP;range"]))).
Proof.
  apply (last_type_needs_following_line (fun _ => true)
           [qs "%;type;1;MV;vector"; qs "%;type;2;QP;range"] newItem).
  - repeat constructor.
    + by exists (qs "%"), (qs "1"), (qs "MV"), [qs "vector"].
    + by exists (qs "%"), (qs "2"), (qs "QP"), [qs "range"].
  - repeat (constructor; [repeat (constructor; [discriminate|]); constructor|]).
    constructor.
Defined.

(* ================================================================== *)
(** ** Further properties: the loader *)
(* ================================================================== *)

(** *** Relations kept by every step of the loop *)

Section LoaderRelation.

Variables frameIdx typeID : Z.
Variable R : item -> item -> Prop.
Hypothesis R_refl : forall it, R it it.
Hypothesis R_trans : forall a b c, R a b -> R b c -> R a c.
Hypothesis R_outside :
  forall it, blockOutsideOfFrame_idx it = -1 -> R it (setOutside it frameIdx).
Hypothesis R_add :
  forall it t x,
    fileSortedByPOC it = true \/ t = typeID ->
    R it (addToCaches it t (fun d => d ++ [x])).

Lemma loadRecord_rel (aLine : QString) (it : item) :
  match loadRecord frameIdx typeID aLine it with
  | Ok (_, it') => R it it'
  | Throw _ _ => False
  | Crash => True
  end.
Proof.
  unfold loadRecord. cbv zeta. unfold field at 1.
  destruct (parseCSVLine aLine ";"%char !! 0%nat) as [f0|]; [|done].
  destruct (isEmpty f0); [apply R_refl|].
  unfold field at 1.
  destruct (parseCSVLine aLine ";"%char !! 5%nat) as [f5|]; [|done].
  destruct (negb (toInt f0 =? frameIdx)); [apply R_refl|].
  destruct (negb (fileSortedByPOC it) && negb (toInt f5 =? typeID)) eqn:Hty;
    [apply R_refl|].
  assert (fileSortedByPOC it = true \/ toInt f5 = typeID) as Hok.
  { destruct (fileSortedByPOC it); [by left|]. right.
    simpl in Hty. apply negb_false_iff in Hty. by apply Z.eqb_eq. }
  unfold fieldIf, field.
  repeat match goal with
         | |- context [match ?row !! ?i with _ => _ end] => destruct (row !! i)
         | |- context [if ?n <? Z.of_nat (length ?row) then _ else _] =>
             destruct (n <? Z.of_nat (length row))
         end; try done;
    match goal with
    | |- context [if ?c then setOutside it frameIdx else it] =>
        destruct c eqn:Hout
    end;
    match goal with
    | |- context [getStatisticsType ?h ?t] => destruct (getStatisticsType h t)
    end; try done;
    repeat match goal with
           | |- context [if ?c then _ else _] => destruct c
           end;
    try (apply R_add; exact Hok);
    (eapply R_trans;
     [apply R_outside; apply andb_true_iff in Hout as [Hout _]; by apply Z.eqb_eq in Hout
     |apply (R_add (setOutside it frameIdx)); exact Hok]).
Qed.

Lemma loadLoop_rel (lines : list QString) :
  forall it : item,
    match loadLoop frameIdx typeID lines it with
    | Ok it' => R it it'
    | Throw _ _ => False
    | Crash => True
    end.
Proof.
  induction lines as [|l ls IH]; intros it; simpl; [apply R_refl|].
  pose proof (loadRecord_rel l it) as H.
  destruct (loadRecord frameIdx typeID l it) as [[[] it1]| |]; [done| |done..].
  specialize (IH it1).
  destruct (loadLoop frameIdx typeID ls it1); [|done..].
  by eapply R_trans.
Qed.

Lemma loadLoop_rel_ok (lines : list QString) (it it' : item) :
  loadLoop frameIdx typeID lines it = Ok it' -> R it it'.
Proof.
  intros H. pose proof (loadLoop_rel lines it) as HR. by rewrite H in HR.
Qed.

End LoaderRelation.

Lemma loaderKeeps_refl (f : Z) (it : item) : loaderKeeps f it it.
Proof. repeat split; by left. Qed.

Lemma loaderKeeps_trans (f : Z) (a b c : item) :
  loaderKeeps f a b -> loaderKeeps f b c -> loaderKeeps f a c.
Proof.
  intros (A1 & A2 & A3 & A4 & A5 & A6 & A7 & A8 & A9 & A10)
         (B1 & B2 & B3 & B4 & B5 & B6 & B7 & B8 & B9 & B10).
  repeat split; try congruence.
  destruct A10 as [A10|[A10 A11]], B10 as [B10|[B10 B11]].
  - left. congruence.
  - right. split; congruence.
  - right. split; congruence.
  - right. split; congruence.
Qed.

(** The loop never throws. *)
Lemma loadLoop_no_throw (frameIdx typeID : Z) (lines : list QString) (it : item)
    (m : QString) (it' : item) :
  loadLoop frameIdx typeID lines it <> Throw m it'.
Proof.
  intros H.
  pose proof (loadLoop_rel frameIdx typeID (fun _ _ => True)
                (fun _ => I) (fun _ _ _ _ _ => I) (fun _ _ => I) (fun _ _ _ _ => I)
                lines it) as HR.
  by rewrite H in HR.
Qed.

(** The three ways in which the function returns. *)
Lemma loadStatisticToCache_cases (fileOk : bool) (file : list ascii)
    (frameIdx typeID : Z) (it it' : item) :
  loadStatisticToCache fileOk file frameIdx typeID it = Ok it' ->
  it' = it
  \/ (lookupPos (pocTypeStartList it) frameIdx typeID = None
      /\ it' = insertEmpty it typeID)
  \/ (is_Some (lookupPos (pocTypeStartList it) frameIdx typeID)
      /\ exists lines, loadLoop frameIdx typeID lines it = Ok it').
Proof.
  unfold loadStatisticToCache. destruct fileOk; cbn [negb].
  - destruct (negb (containsPOC (pocTypeStartList it) frameIdx)
              || negb (containsType (pocTypeStartList it) frameIdx typeID)) eqn:E.
    + intros [= <-]. right. left. split; [|done].
      destruct (lookupPos (pocTypeStartList it) frameIdx typeID) as [o|] eqn:Ho; [|done].
      by rewrite (present_guard _ _ _ _ Ho) in E.
    + intros H. right. right. split.
      * apply lookupPos_contains. rewrite <- negb_andb in E.
        by apply negb_false_iff in E.
      * exists (textLinesFrom file (scanStartPos it frameIdx typeID)).
        destruct (loadLoop frameIdx typeID _ it) as [it1|m it1|] eqn:EL.
        -- by injection H as <-.
        -- by apply loadLoop_no_throw in EL.
        -- done.
  - intros [= <-]. by left.
Qed.

(** X14. The loader never throws, so it never stores an error message;
    whenever it returns, the index, the layout flag, [maxPOC], the frame
    rate, and the type registry and frame size of both handlers are what
    they were.  Besides the caches it writes only the warning flag, and
    that only once: from -1 to the requested frame. *)
Theorem loader_keeps_members (fileOk : bool) (file : list ascii)
    (frameIdx typeID : Z) (it it' : item) :
  loadStatisticToCache fileOk file frameIdx typeID it = Ok it' ->
  loaderKeeps frameIdx it it'.
Proof.
  intros H. apply loadStatisticToCache_cases in H
    as [->|[[_ ->]|[_ [lines H]]]].
  - apply loaderKeeps_refl.
  - repeat split. by left.
  - refine (loadLoop_rel_ok frameIdx typeID (loaderKeeps frameIdx)
              (loaderKeeps_refl frameIdx) (loaderKeeps_trans frameIdx) _ _
              lines it it' H).
    + intros i Hi. repeat split. simpl. by right.
    + intros i t x _. repeat split. by left.
Qed.

Lemma loader_keeps_members_witness :
  exists it',
    loadStatisticToCache true (qs "0;60;60;8;8;1;3;4" ++ [LF]) 0 1 loaderItem = Ok it'
    /\ loaderKeeps 0 loaderItem it'
    /\ blockOutsideOfFrame_idx it' = 0.
Proof.
  eexists. split; [vm_compute; reflexivity|]. split; [|vm_compute; reflexivity].
  apply (loader_keeps_members true (qs "0;60;60;8;8;1;3;4" ++ [LF]) 0 1 loaderItem).
  vm_compute. reflexivity.
Defined.

(** X15. The two caches move in lockstep: when the live-render cache and
    the chart cache agree before a load, they agree after it. *)
Theorem loader_caches_in_lockstep (fileOk : bool) (file : list ascii)
    (frameIdx typeID : Z) (it it' : item) :
  statsCache (statSource it) = statsCache (chartStatSource it) ->
  loadStatisticToCache fileOk file frameIdx typeID it = Ok it' ->
  statsCache (statSource it') = statsCache (chartStatSource it').
Proof.
  intros Heq H. apply loadStatisticToCache_cases in H
    as [->|[[_ ->]|[_ [lines H]]]].
  - done.
  - simpl. by rewrite Heq.
  - refine (loadLoop_rel_ok frameIdx typeID
              (fun a b => statsCache (statSource a) = statsCache (chartStatSource a) ->
                          statsCache (statSource b) = statsCache (chartStatSource b))
              _ _ _ _ lines it it' H Heq); cbv beta.
    + done.
    + auto.
    + done.
    + intros i t x _ Hi. simpl. by rewrite Hi.
Qed.

Lemma loader_caches_in_lockstep_witness :
  exists it',
    loadStatisticToCache true loaderFile 0 1 loaderItem = Ok it'
    /\ statsCache (statSource it') = statsCache (chartStatSource it').
Proof.
  eexists. split; [vm_compute; reflexivity|].
  apply (loader_caches_in_lockstep true loaderFile 0 1 loaderItem);
    [reflexivity | vm_compute; reflexivity].
Defined.

(** X16. In a file that is not sorted by POC a load touches the cache
    entry of the requested type only: every other entry of both caches
    is what it was, whatever the file holds. *)
Theorem sequential_load_touches_one_type (fileOk : bool) (file : list ascii)
    (frameIdx typeID : Z) (it it' : item) :
  fileSortedByPOC it = false ->
  loadStatisticToCache fileOk file frameIdx typeID it = Ok it' ->
  forall t, t <> typeID ->
    statsCache (statSource it') !! t = statsCache (statSource it) !! t
    /\ statsCache (chartStatSource it') !! t = statsCache (chartStatSource it) !! t.
Proof.
  intros Hs H t Ht. apply loadStatisticToCache_cases in H
    as [->|[[_ ->]|[_ [lines H]]]].
  - done.
  - simpl. by rewrite !lookup_insert_ne.
  - refine (proj2 (loadLoop_rel_ok frameIdx typeID
              (fun a b => fileSortedByPOC b = fileSortedByPOC a
                          /\ (fileSortedByPOC a = false ->
                              statsCache (statSource b) !! t
                              = statsCache (statSource a) !! t
                              /\ statsCache (chartStatSource b) !! t
                                 = statsCache (chartStatSource a) !! t))
              _ _ _ _ lines it it' H) Hs); cbv beta.
    + done.
    + intros a b c [Hab1 Hab2] [Hbc1 Hbc2]. split; [congruence|].
      intros Ha. destruct (Hab2 Ha) as [<- <-]. apply Hbc2. congruence.
    + done.
    + intros i t0 x Hi. split; [done|]. intros Hi'.
      destruct Hi as [Hi| ->]; [congruence|].
      simpl. by rewrite !lookup_insert_ne.
Qed.

Lemma sequential_load_touches_one_type_witness :
  exists it',
    loadStatisticToCache true loaderFile 0 1 (setSorted loaderItem false) = Ok it'
    /\ statsCache (statSource it') !! 2 = statsCache (statSource loaderItem) !! 2.
Proof.
  eexists. split; [vm_compute; reflexivity|].
  refine (proj1 (sequential_load_touches_one_type true loaderFile 0 1
                   (setSorted loaderItem false) _ eq_refl _ 2 _)).
  - vm_compute. reflexivity.
  - lia.
Defined.

Lemma entry_insert (c : gmap Z statisticsData) (t t0 : Z) (d : statisticsData) :
  entry (<[t0 := d]> c) t = if decide (t = t0) then d else entry c t.
Proof.
  unfold entry. destruct (decide (t = t0)) as [->|Hne].
  - by rewrite lookup_insert_eq.
  - by rewrite lookup_insert_ne.
Qed.

(** X17. The loader never clears what it is about to load: for a pair
    the index holds, every entry of both caches after the load begins
    with what the entry held before, so that a second load of the same
    pair appends to the items of the first. *)
Theorem load_appends_to_entries (fileOk : bool) (file : list ascii)
    (frameIdx typeID : Z) (it it' : item) :
  is_Some (lookupPos (pocTypeStartList it) frameIdx typeID) ->
  loadStatisticToCache fileOk file frameIdx typeID it = Ok it' ->
  forall t,
    entry (statsCache (statSource it)) t `prefix_of` entry (statsCache (statSource it')) t
    /\ entry (statsCache (chartStatSource it)) t
       `prefix_of` entry (statsCache (chartStatSource it')) t.
Proof.
  intros Hidx H t. apply loadStatisticToCache_cases in H
    as [->|[[Hnone _]|[_ [lines H]]]].
  - done.
  - rewrite Hnone in Hidx. by destruct Hidx.
  - refine (loadLoop_rel_ok frameIdx typeID
              (fun a b =>
                 entry (statsCache (statSource a)) t
                 `prefix_of` entry (statsCache (statSource b)) t
                 /\ entry (statsCache (chartStatSource a)) t
                    `prefix_of` entry (statsCache (chartStatSource b)) t)
              _ _ _ _ lines it it' H); cbv beta.
    + done.
    + intros a b c [H1 H2] [H3 H4]. split; by etrans.
    + done.
    + intros i t0 x _. simpl. rewrite !entry_insert.
      destruct (decide (t = t0)) as [->|]; [|done].
      split; by apply prefix_app_r.
Qed.

Lemma load_appends_to_entries_witness :
  exists it' it'',
    loadStatisticToCache true loaderFile 0 1 loaderItem = Ok it'
    /\ loadStatisticToCache true loaderFile 0 1 it' = Ok it''
    /\ entry (statsCache (statSource it')) 1
       `prefix_of` entry (statsCache (statSource it'')) 1
    /\ length (entry (statsCache (statSource it'')) 1) = 2%nat.
Proof.
  eexists _, _. split; [vm_compute; reflexivity|].
  split; [vm_compute; reflexivity|].
  split; [|vm_compute; reflexivity].
  refine (proj1 (load_appends_to_entries true loaderFile 0 1 _ _ _ _ 1)).
  - vm_compute. eauto.
  - vm_compute. reflexivity.
Defined.

(** X18. A line whose first field is empty (a blank line, or one that
    begins with the delimiter) is passed over: the loop behaves as if
    the line were not there. *)
Theorem loader_skips_empty_first_field (frameIdx typeID : Z) (l : QString)
    (pre post : list QString) (it : item) :
  parseCSVLine l ";"%char !! 0%nat = Some [] ->
  loadLoop frameIdx typeID (pre ++ l :: post) it
  = loadLoop frameIdx typeID (pre ++ post) it.
Proof.
  intros Hl. revert it. induction pre as [|a pre IH]; intros it; simpl.
  - unfold loadRecord, field. cbv zeta. by rewrite Hl.
  - destruct (loadRecord frameIdx typeID a it) as [[[] it1]|m [b it1]|]; auto.
Qed.

Lemma loader_skips_empty_first_field_witness :
  loadLoop 0 1 ([qs "0;0;0;8;8;1;3;4"] ++ qs ";0;0;8;8;1;5;6" :: [qs "0;8;0;8;8;1;7;8"])
    loaderItem
  = loadLoop 0 1 ([qs "0;0;0;8;8;1;3;4"] ++ [qs "0;8;0;8;8;1;7;8"]) loaderItem.
Proof.
  apply (loader_skips_empty_first_field 0 1 (qs ";0;0;8;8;1;5;6")
           [qs "0;0;0;8;8;1;3;4"] [qs "0;8;0;8;8;1;7;8"] loaderItem).
  reflexivity.
Defined.

(* ================================================================== *)
(** ** Further properties: the indexer and the handlers *)
(* ================================================================== *)

Lemma indexRecord_keeps_handlers (st : scan) (poc ty : Z) (st' : scan) :
  survivor (indexRecord st poc ty) = Some st' ->
  statSource (self st') = statSource (self st)
  /\ chartStatSource (self st') = chartStatSource (self st)
  /\ blockOutsideOfFrame_idx (self st') = blockOutsideOfFrame_idx (self st)
  /\ frameRate (self st') = frameRate (self st).
Proof. indexRecord_cases; by intros [= <-]. Qed.

Lemma scanBuffer_keeps_handlers (b i : Z) (buf : list ascii) (st st' : scan) :
  survivor (scanBuffer b i buf st) = Some st' ->
  statSource (self st') = statSource (self st)
  /\ chartStatSource (self st') = chartStatSource (self st)
  /\ blockOutsideOfFrame_idx (self st') = blockOutsideOfFrame_idx (self st)
  /\ frameRate (self st') = frameRate (self st).
Proof.
  apply (scanBuffer_inv
           (fun s => statSource (self s) = statSource (self st)
                     /\ chartStatSource (self s) = chartStatSource (self st)
                     /\ blockOutsideOfFrame_idx (self s) = blockOutsideOfFrame_idx (self st)
                     /\ frameRate (self s) = frameRate (self st)));
    [done | | done].
  intros s poc ty s' (H1 & H2 & H3 & H4) Hr.
  apply indexRecord_keeps_handlers in Hr as (K1 & K2 & K3 & K4).
  repeat split; congruence.
Qed.

(** X19. The scan reads no header and decodes no record: the live
    handler, the warning flag and the frame rate are what they were.
    When the scan ends without a continuity error, at the end of the
    file or by a cancellation, the chart handler becomes a copy of the
    live handler and the stored message is untouched; after a continuity
    error the chart handler stays as it was. *)
Theorem indexer_copies_handler (bufSize : Z) (cancel : nat -> bool)
    (file : list ascii) (it it' : item) :
  0 < bufSize ->
  readFrameAndTypePositionsFromFile bufSize cancel file it = Some (Ok it') ->
  statSource it' = statSource it
  /\ blockOutsideOfFrame_idx it' = blockOutsideOfFrame_idx it
  /\ frameRate it' = frameRate it
  /\ ((chartStatSource it' = statSource it /\ parsingError it' = parsingError it)
      \/ (chartStatSource it' = chartStatSource it
          /\ exists m, parsingError it' = msgPrefix ++ m)).
Proof.
  intros Hb. unfold readFrameAndTypePositionsFromFile.
  destruct (scanLoop_prefix bufSize cancel file (startScan it) Hb) as [n ->].
  simpl.
  pose proof (scanBuffer_keeps_handlers 0 0 (take n file) (startScan it)) as Hh.
  pose proof (scanBuffer_keeps_error 0 0 (take n file) (startScan it)) as He.
  destruct (scanBuffer 0 0 (take n file) (startScan it)) as [st|m st|];
    simpl; [| |done]; intros [= <-]; simpl;
    destruct (Hh st eq_refl) as (H1 & H2 & H3 & H4).
  - repeat split; try done. left. split; [done|]. by apply He.
  - repeat split; try done. right. split; [done|]. by exists m.
Qed.

Lemma indexer_copies_handler_witness :
  exists it',
    readFrameAndTypePositionsFromFile 16 (fun _ => false) threeLines loaderItem
    = Some (Ok it')
    /\ statSource it' = statSource loaderItem
    /\ chartStatSource it' = statSource loaderItem.
Proof.
  eexists. split; [vm_compute; reflexivity|].
  destruct (indexer_copies_handler 16 (fun _ => false) threeLines loaderItem _
              ltac:(lia) ltac:(vm_compute; reflexivity))
    as (H1 & _ & _ & H4).
  split; [exact H1|]. vm_compute. reflexivity.
Defined.

(* ================================================================== *)
(** ** Further properties: from the index to the loader *)
(* ================================================================== *)

Lemma firstOffset_elem (recs : list (Z * Z * Z)) (p t o : Z) :
  firstOffset recs p t = Some o -> (p, t, o) ∈ recs.
Proof.
  induction recs as [|[k o'] recs IH]; simpl; [done|].
  destruct (decide (k = (p, t))) as [->|Hk].
  - intros [= ->]. by left.
  - intros H. right. by apply IH.
Qed.

Lemma fileOfLines_app (a b : list QString) :
  fileOfLines (a ++ b) = fileOfLines a ++ fileOfLines b.
Proof.
  induction a as [|l a IH]; simpl; [done|].
  by rewrite IH, <- app_assoc.
Qed.

(** Every record comes from a line, and its offset is the length of the
    lines before it. *)
Lemma records_line (lines : list QString) :
  forall (pos p t o : Z),
    (p, t, o) ∈ records pos lines ->
    exists pre l post,
      lines = pre ++ l :: post
      /\ classify l = Data p t
      /\ o = pos + Z.of_nat (length (fileOfLines pre)).
Proof.
  induction lines as [|l ls IH]; intros pos p t o; simpl.
  - by intros ?%elem_of_nil.
  - intros [H|H]%elem_of_app.
    + destruct (classify l) as [| |p' t'] eqn:Ec;
        try (by apply elem_of_nil in H).
      apply list_elem_of_singleton in H. injection H as -> -> ->.
      exists [], l, ls. simpl. repeat split; [done | lia].
    + destruct (IH _ _ _ _ H) as (pre & l' & post & -> & Hc & ->).
      exists (l :: pre), l', post. repeat split; [done|].
      simpl. rewrite length_app. simpl. lia.
Qed.

(** The text stream strips the terminator, which the tokenizer would
    have trimmed anyway. *)
Lemma parseCSVLine_stripEOL (l : QString) (d : ascii) :
  parseCSVLine (stripEOL (l ++ [LF])) d = parseCSVLine l d.
Proof.
  unfold stripEOL. rewrite rev_app_distr. simpl.
  destruct (rev l) as [|c r] eqn:E.
  - apply (f_equal (@rev ascii)) in E. rewrite rev_involutive in E. by subst l.
  - destruct (code c =? 13) eqn:Ec.
    + apply (f_equal (@rev ascii)) in E. rewrite rev_involutive in E. subst l.
      simpl. unfold parseCSVLine.
      rewrite <- (trimmed_surrounded [] [c] (rev r)); [done | constructor |].
      constructor; [|constructor]. apply Z.eqb_eq in Ec.
      unfold isSpace. by rewrite Ec.
    + by rewrite <- E, rev_involutive.
Qed.

(** Seeking to the start of a line yields that line and the ones after
    it. *)
Lemma textLinesFrom_line (pre post : list QString) (l : QString) :
  Forall (Forall (fun c => c <> LF)) (l :: post) ->
  textLinesFrom (fileOfLines (pre ++ l :: post)) (Z.of_nat (length (fileOfLines pre)))
  = stripEOL (l ++ [LF]) :: (stripEOL <$> ((fun x => x ++ [LF]) <$> post)).
Proof.
  intros Hlf. unfold textLinesFrom.
  rewrite Nat2Z.id, fileOfLines_app, drop_app_length.
  rewrite <- (app_nil_r (fileOfLines (l :: post))).
  rewrite readLines_fileOfLines by done.
  simpl. by rewrite app_nil_r.
Qed.

(** X20. Index and loader fit together.  For a body of lines that end
    with a line feed and whose data records have non-negative POCs,
    indexed to the end from an empty index: every offset the index holds
    for a pair is the start of a line, and the first line the loader
    reads after seeking there is a data record of that very POC and
    typeID. *)
Theorem indexed_offsets_start_their_records (bufSize : Z) (cancel : nat -> bool)
    (lines : list QString) (it it' : item) :
  0 < bufSize ->
  (forall j, cancel j = false) ->
  pocTypeStartList it = ∅ ->
  fileSortedByPOC it = false ->
  Forall (Forall (fun c => c <> LF)) lines ->
  Forall (fun r => 0 <= r.1.1) (records 0 lines) ->
  readFrameAndTypePositionsFromFile bufSize cancel (fileOfLines lines) it
  = Some (Ok it') ->
  forall p t o,
    lookupPos (pocTypeStartList it') p t = Some o ->
    exists l rest,
      textLinesFrom (fileOfLines lines) o = l :: rest
      /\ classify l = Data p t.
Proof.
  intros Hb Hgo Hm Hs Hlf Hnn Hres.
  unfold readFrameAndTypePositionsFromFile in Hres.
  rewrite scanLoop_complete in Hres by done. simpl in Hres.
  pose proof (scan_lines_first_occurrence lines [] 0 (startScan it)
                (indexed_start it Hm Hs) eq_refl eq_refl Hlf
                (Forall_nil_2 _) Hnn) as H.
  assert (exists k, forall p t,
             lookupPos (pocTypeStartList it') p t
             = firstOffset (take k (records 0 lines)) p t) as [k Hk].
  { destruct (scanBuffer 0 0 (fileOfLines lines) (startScan it)) as [st|m st|];
      simpl in *; [| |done].
    - injection Hres as <-. exists (length (records 0 lines)).
      rewrite take_ge by lia. by destruct H as (Hi & _).
    - injection Hres as <-. destruct H as [k (Hi & _)]. by exists k. }
  clear H.
  intros p t o Ho. rewrite Hk in Ho. apply firstOffset_elem in Ho.
  assert ((p, t, o) ∈ records 0 lines) as Hin.
  { rewrite <- (take_drop k (records 0 lines)). apply elem_of_app. by left. }
  apply records_line in Hin as (pre & l & post & -> & Hc & ->).
  apply Forall_app in Hlf as [_ Hlf].
  rewrite Z.add_0_l, textLinesFrom_line by done.
  eexists _, _. split; [reflexivity|].
  unfold classify in *. by rewrite parseCSVLine_stripEOL.
Qed.

Lemma indexed_offsets_start_their_records_witness :
  exists it',
    readFrameAndTypePositionsFromFile 16 (fun _ => false)
      (fileOfLines sequentialLines) newItem = Some (Ok it')
    /\ lookupPos (pocTypeStartList it') 1 1 = Some 33
    /\ exists l rest,
         textLinesFrom (fileOfLines sequentialLines) 33 = l :: rest
         /\ classify l = Data 1 1.
Proof.
  eexists. split; [vm_compute; reflexivity|].
  split; [vm_compute; reflexivity|].
  refine (indexed_offsets_start_their_records 16 (fun _ => false) sequentialLines
            newItem _ _ _ _ _ _ _ _ 1 1 33 _).
  - lia.
  - done.
  - done.
  - done.
  - repeat (constructor; [repeat (constructor; [discriminate|]); constructor|]).
    constructor.
  - assert (records 0 sequentialLines = [(0, 1, 19); (1, 1, 33); (0, 2, 48)]) as ->
      by (vm_compute; reflexivity).
    repeat (constructor; [simpl; lia|]). constructor.
  - vm_compute. reflexivity.
  - vm_compute. reflexivity.
Defined.

(* ================================================================== *)
(** ** Further properties: the chart helpers *)
(* ================================================================== *)

(** X21. For an original range that is well formed the test is the
    inclusion of the frames of the checked range in the frames of the
    original one (an empty checked range is inside); for an inverted
    original range, which holds no frame at all, the test accepts every
    checked range. *)
Theorem isRangeInside_frames (aOriginalRange aCheckRange : indexRange) :
  (aOriginalRange.1 <= aOriginalRange.2 ->
   (isRangeInside aOriginalRange aCheckRange = true
    <-> forall frame, aCheckRange.1 <= frame <= aCheckRange.2 ->
                      aOriginalRange.1 <= frame <= aOriginalRange.2))
  /\ (aOriginalRange.2 < aOriginalRange.1 ->
      isRangeInside aOriginalRange aCheckRange = true).
Proof.
  destruct aOriginalRange as [o1 o2], aCheckRange as [c1 c2].
  unfold isRangeInside. simpl. split.
  - intros Ho. rewrite (proj2 (Z.ltb_ge o2 o1)) by lia. simpl.
    destruct (Z.ltb_spec c2 c1) as [Hc|Hc]; simpl.
    + split; [intros _ f Hf; lia | done].
    + rewrite andb_true_iff, !Z.leb_le. split.
      * intros [H1 H2] f Hf. lia.
      * intros H. pose proof (H c1). pose proof (H c2). lia.
  - intros Ho. by rewrite (proj2 (Z.ltb_lt o2 o1)) by lia.
Qed.

(** The fold of [getSmallestKey]: either no label was below the start
    value, or the result is the first label with the smallest number. *)
Lemma fold_smallestStep (keys : list QString) :
  forall acc : Z * QString,
    let res := fold_left smallestStep keys acc in
    (res = acc /\ Forall (fun k => acc.1 <= labelNumber k) keys)
    \/ (exists pre post,
           keys = pre ++ res.2 :: post
           /\ res.1 = labelNumber res.2
           /\ res.1 < acc.1
           /\ Forall (fun k => res.1 < labelNumber k) pre
           /\ Forall (fun k => res.1 <= labelNumber k) post).
Proof.
  induction keys as [|k keys IH]; intros acc; simpl.
  - left. by split.
  - specialize (IH (smallestStep acc k)). cbv zeta in IH.
    assert (smallestStep acc k
            = if labelNumber k <? acc.1 then (labelNumber k, k) else acc) as Hs by done.
    destruct (Z.ltb_spec (labelNumber k) acc.1) as [Hlt|Hge]; rewrite Hs in *;
      simpl in IH.
    + destruct IH as [[Hres Hall]|(pre & post & Hk & Hn & Hlt' & Hpre & Hpost)].
      * right. exists [], keys. rewrite Hres. simpl.
        repeat split; done.
      * right. exists (k :: pre), post. simpl. rewrite <- Hk.
        repeat split; try done; [lia|]. constructor; [lia | done].
    + destruct IH as [[Hres Hall]|(pre & post & Hk & Hn & Hlt' & Hpre & Hpost)].
      * left. split; [done|]. by constructor.
      * right. exists (k :: pre), post. simpl. rewrite <- Hk.
        repeat split; try done. constructor; [lia | done].
Qed.

(** X22. The key returned for a list of labels is the first label with
    the smallest number before the ['x'], provided that number is below
    [INT_MAX]; when no label has a number below [INT_MAX] (as for an
    empty list) the result is the empty string, which is no label. *)
Theorem getSmallestKey_first_minimum (aMapKeys : list QString) :
  (getSmallestKey aMapKeys = []
   /\ Forall (fun k => INT_MAX <= labelNumber k) aMapKeys)
  \/ (exists pre post,
         aMapKeys = pre ++ getSmallestKey aMapKeys :: post
         /\ labelNumber (getSmallestKey aMapKeys) < INT_MAX
         /\ Forall (fun k => labelNumber (getSmallestKey aMapKeys) < labelNumber k) pre
         /\ Forall (fun k => labelNumber (getSmallestKey aMapKeys) <= labelNumber k) post).
Proof.
  unfold getSmallestKey.
  destruct (fold_smallestStep aMapKeys (INT_MAX, []))
    as [[Hres Hall]|(pre & post & Hk & Hn & Hlt & Hpre & Hpost)].
  - left. rewrite Hres. by split.
  - right. exists pre, post. rewrite <- Hn. by repeat split.
Qed.

Lemma filter_all {A : Type} (f : A -> bool) (l : list A) :
  Forall (fun a => f a = true) l -> List.filter f l = l.
Proof.
  induction 1 as [|a l Ha _ IH]; simpl; [done|]. by rewrite Ha, IH.
Qed.

Lemma filter_out_key (r : QString) (pre post : list QString) :
  r ∉ pre -> r ∉ post ->
  List.filter (fun k => negb (qeq k r)) (pre ++ r :: post) = pre ++ post.
Proof.
  intros Hpre Hpost. rewrite List.filter_app. simpl.
  unfold qeq at 2. rewrite bool_decide_eq_true_2 by done. simpl.
  rewrite !filter_all; [done | |].
  - apply Forall_forall. intros k Hk. unfold qeq.
    rewrite bool_decide_eq_false_2; [done | by intros ->].
  - apply Forall_forall. intros k Hk. unfold qeq.
    rewrite bool_decide_eq_false_2; [done | by intros ->].
Qed.

Lemma takeSmallest_sorted (n : nat) :
  forall keys : list QString,
    length keys = n ->
    NoDup keys ->
    Forall (fun k => labelNumber k < INT_MAX) keys ->
    exists out, takeSmallest n keys = Ok out /\ out ≡ₚ keys /\ ascending out.
Proof.
  induction n as [|n IH]; intros keys Hlen Hnd Hall.
  - destruct keys; [|done]. by exists [].
  - destruct (fold_smallestStep keys (INT_MAX, []))
      as [[_ Hbig]|(pre & post & Hk & Hn & _ & Hpre & Hpost)].
    + destruct keys as [|k keys]; [done|].
      apply Forall_cons in Hbig as [Hbig _]. apply Forall_cons in Hall as [Hall _].
      simpl in Hbig. lia.
    + fold (getSmallestKey keys) in Hk, Hn. rewrite Hn in Hpre, Hpost.
      fold (getSmallestKey keys) in Hpre, Hpost.
      simpl. remember (getSmallestKey keys) as r eqn:Hr. clear Hr Hn.
      subst keys.
      rewrite bool_decide_eq_true_2 by (apply elem_of_app; right; by left).
      apply NoDup_app in Hnd as (Hnd1 & Hdisj & Hnd2).
      apply NoDup_cons in Hnd2 as [Hrpost Hnd2].
      assert (r ∉ pre) as Hrpre.
      { intros Hr. apply (Hdisj r Hr). by left. }
      rewrite filter_out_key by done.
      destruct (IH (pre ++ post)) as (out & -> & Hperm & Hasc).
      * rewrite length_app in *. simpl in Hlen. lia.
      * apply NoDup_app. repeat split; [done | | done].
        intros x Hx Hx'. apply (Hdisj x Hx). by right.
      * apply Forall_app in Hall as [H1 H2].
        apply Forall_cons in H2 as [_ H2]. apply Forall_app. by split.
      * exists (r :: out). split; [done|]. split.
        -- rewrite Hperm. apply Permutation_middle.
        -- simpl. split; [|done]. apply Forall_forall. intros k Hkin.
           rewrite Hperm in Hkin. apply elem_of_app in Hkin as [Hkin|Hkin].
           ++ rewrite Forall_forall in Hpre. specialize (Hpre k Hkin). lia.
           ++ rewrite Forall_forall in Hpost. by apply Hpost.
Qed.

(** X23. For a map whose labels all have numbers below [INT_MAX] the
    loop that empties the map by its smallest key ends with every label
    taken exactly once, in ascending order of the numbers. *)
Theorem orderLabels_ascending (keys : list QString) :
  NoDup keys ->
  Forall (fun k => labelNumber k < INT_MAX) keys ->
  exists out, orderLabels keys = Ok out /\ out ≡ₚ keys /\ ascending out.
Proof. intros Hnd Hall. by apply takeSmallest_sorted. Qed.

Lemma orderLabels_ascending_witness :
  exists out,
    orderLabels [qs "16x16"; qs "4x8"; qs "8x8"] = Ok out
    /\ out ≡ₚ [qs "16x16"; qs "4x8"; qs "8x8"] /\ ascending out.
Proof.
  apply (orderLabels_ascending [qs "16x16"; qs "4x8"; qs "8x8"]).
  - repeat (constructor; [rewrite ?elem_of_cons, elem_of_nil; intros H;
                          repeat destruct H as [H|H]; done|]).
    constructor.
  - repeat (constructor; [vm_compute; reflexivity|]). constructor.
Defined.

(* ================================================================== *)
(** ** Further properties: reload *)
(* ================================================================== *)

(** X24. Whatever the object held and whatever header the reopened file
    has, a reload that returns hands the indexer an empty index, a
    cleared layout flag, [maxPOC] 0, no warning, no error message and an
    empty live-render cache; the chart handler is not touched and keeps
    what it held until the indexer copies the live handler. *)
Theorem reload_restarts_from_scratch (positiveDouble : QString -> bool)
    (fileOk : bool) (file : list ascii) (it it' : item) :
  reloadItemSource positiveDouble fileOk file it = Ok it' ->
  pocTypeStartList it' = ∅
  /\ fileSortedByPOC it' = false
  /\ maxPOC it' = 0
  /\ blockOutsideOfFrame_idx it' = -1
  /\ parsingError it' = []
  /\ statsCache (statSource it') = ∅
  /\ chartStatSource it' = chartStatSource it.
Proof.
  unfold reloadItemSource. cbv zeta. destruct fileOk; cbn [negb].
  - unfold readHeaderFromFile. cbn [negb].
    pose proof (headerLoop_members positiveDouble (readLines file)
                  (mkHeader (setStatSource (resetForReload it)
                               (clearStatTypes (statSource (resetForReload it))))
                     false newType)) as H.
    destruct (headerLoop positiveDouble (readLines file) _) as [st| |];
      [|done..].
    intros [= <-]. simpl in H.
    destruct H as (H1 & H2 & H3 & H4 & H5 & H6 & H7). by repeat split.
  - intros [= <-]. by repeat split.
Qed.

Lemma reload_restarts_from_scratch_witness :
  exists it',
    reloadItemSource (fun _ => true) true
      (fileOfLines [qs "%;type;1;MV;vector"; qs "0;0;0;8;8;1;3;4"]) loaderItem = Ok it'
    /\ pocTypeStartList it' = ∅
    /\ chartStatSource it' = chartStatSource loaderItem.
Proof.
  eexists. split; [vm_compute; reflexivity|].
  destruct (reload_restarts_from_scratch (fun _ => true) true
              (fileOfLines [qs "%;type;1;MV;vector"; qs "0;0;0;8;8;1;3;4"])
              loaderItem _ ltac:(vm_compute; reflexivity))
    as (H1 & _ & _ & _ & _ & _ & H7).
  split; [exact H1 | exact H7].
Defined.

(* ================================================================== *)
(** ** Further properties: what a load decodes *)
(* ================================================================== *)

Lemma decodedRecord_registry (h h' : statisticHandler) (l : QString) :
  statsTypeList h' = statsTypeList h -> decodedRecord h' l = decodedRecord h l.
Proof.
  intros Hreg. unfold decodedRecord, getStatisticsType. by rewrite Hreg.
Qed.

Lemma loadRecord_stops (frameIdx typeID : Z) (it it1 : item) (l : QString) :
  stops frameIdx typeID it l ->
  fileSortedByPOC it1 = fileSortedByPOC it ->
  loadRecord frameIdx typeID l it1 = Ok (true, it1).
Proof.
  intros (f0 & f5 & H0 & H5 & Hne & Hstop) Hs.
  unfold loadRecord, field. cbv zeta. rewrite H0, Hne, H5.
  destruct Hstop as [Hpoc|[Hseq Hty]].
  - by rewrite (proj2 (Z.eqb_neq _ _) Hpoc).
  - rewrite Hs, Hseq, (proj2 (Z.eqb_neq _ _) Hty).
    by destruct (toInt f0 =? frameIdx).
Qed.

Lemma loadRecord_decodes (frameIdx typeID : Z) (it it1 : item) (l : QString)
    (r : Z * statItem) :
  decodes frameIdx typeID it l r ->
  statsTypeList (statSource it1) = statsTypeList (statSource it) ->
  fileSortedByPOC it1 = fileSortedByPOC it ->
  exists it2,
    loadRecord frameIdx typeID l it1 = Ok (false, it2)
    /\ appended it1 it2 r.1 r.2
    /\ statsTypeList (statSource it2) = statsTypeList (statSource it).
Proof.
  intros (Hdec & (f0 & H0 & Hne & Hpoc) & Hty) Hreg Hs.
  unfold decodedRecord in Hdec.
  destruct (parseCSVLine l ";"%char)
    as [|g0 [|f1 [|f2 [|f3 [|f4 [|f5 [|f6 vs]]]]]]] eqn:Hrow; try done.
  simpl in H0. injection H0 as ->.
  destruct (getStatisticsType (statSource it) (toInt f5)) as [sty|] eqn:Hsty; [|done].
  destruct (bool_decide (length vs = 2%nat)) eqn:Hlen; [done|].
  apply bool_decide_eq_false in Hlen. injection Hdec as <-. simpl in Hty.
  destruct (loadRecord_stores frameIdx typeID l it1 f0 f1 f2 f3 f4 f5 f6 vs sty)
    as (it2 & Hr & Ha); try done.
  { by rewrite Hs. }
  { unfold getStatisticsType in *. by rewrite Hreg. }
  exists it2. split; [exact Hr|]. split; [exact Ha|].
  pose proof (loadRecord_rel frameIdx typeID (loaderKeeps frameIdx)
                (loaderKeeps_refl frameIdx) (loaderKeeps_trans frameIdx)) as HR.
  assert (loaderKeeps frameIdx it1 it2) as (_ & _ & _ & _ & _ & K & _).
  { refine (_ (HR _ _ l it1)).
    - rewrite Hr. tauto.
    - intros i Hi. repeat split. simpl. by right.
    - intros i t x _. repeat split. by left. }
  congruence.
Qed.

Lemma itemsOf_cons (t : Z) (r : Z * statItem) (recs : list (Z * statItem)) :
  itemsOf t (r :: recs) = (if r.1 =? t then [r.2] else []) ++ itemsOf t recs.
Proof. unfold itemsOf. simpl. by destruct (r.1 =? t). Qed.

Lemma loadLoop_decodes (frameIdx typeID : Z) (it : item) (tail : list QString) :
  tail = [] \/ (exists stop rest, tail = stop :: rest /\ stops frameIdx typeID it stop) ->
  forall (run : list QString) (recs : list (Z * statItem)),
    Forall2 (decodes frameIdx typeID it) run recs ->
    forall it1 : item,
      statsTypeList (statSource it1) = statsTypeList (statSource it) ->
      fileSortedByPOC it1 = fileSortedByPOC it ->
      exists it',
        loadLoop frameIdx typeID (run ++ tail) it1 = Ok it'
        /\ forall t,
             entry (statsCache (statSource it')) t
             = entry (statsCache (statSource it1)) t ++ itemsOf t recs
             /\ entry (statsCache (chartStatSource it')) t
                = entry (statsCache (chartStatSource it1)) t ++ itemsOf t recs.
Proof.
  intros Htail run recs Hrun.
  induction Hrun as [|l r run recs Hl Hrun IH]; intros it1 Hreg Hs.
  - exists it1. split.
    + destruct Htail as [->|(stop & rest & -> & Hstop)]; [done|].
      simpl. by rewrite (loadRecord_stops frameIdx typeID it it1 stop Hstop Hs).
    + intros t. unfold itemsOf. simpl. by rewrite !app_nil_r.
  - destruct (loadRecord_decodes frameIdx typeID it it1 l r Hl Hreg Hs)
      as (it2 & Hr & Ha & Hreg2).
    destruct Ha as (Hc1 & Hc2 & _ & _ & Hs2).
    destruct (IH it2 Hreg2 ltac:(congruence)) as (it' & Hloop & Hent).
    exists it'. split.
    + simpl. by rewrite Hr.
    + intros t. destruct (Hent t) as [-> ->].
      rewrite Hc1, Hc2, !entry_insert, itemsOf_cons.
      destruct (decide (t = r.1)) as [->|Hne].
      * rewrite Z.eqb_refl. by rewrite <- !app_assoc.
      * rewrite (proj2 (Z.eqb_neq r.1 t)) by done. done.
Qed.

(** X25. What a load decodes.  When the lines from the seek position on
    begin with a run of decodable records of the requested frame (in a
    file not sorted by POC: of the requested type) that ends with the
    file or at a record of another frame (or, not sorted by POC, of
    another type), the load returns, and every entry of both caches has
    grown by exactly the items of its type in the run, in the order of
    the lines; what follows the run is not decoded. *)
Theorem load_decodes_run (file : list ascii) (frameIdx typeID : Z) (it : item)
    (run tail : list QString) (recs : list (Z * statItem)) :
  is_Some (lookupPos (pocTypeStartList it) frameIdx typeID) ->
  textLinesFrom file (scanStartPos it frameIdx typeID) = run ++ tail ->
  Forall2 (decodes frameIdx typeID it) run recs ->
  tail = [] \/ (exists stop rest, tail = stop :: rest /\ stops frameIdx typeID it stop) ->
  exists it',
    loadStatisticToCache true file frameIdx typeID it = Ok it'
    /\ forall t,
         entry (statsCache (statSource it')) t
         = entry (statsCache (statSource it)) t ++ itemsOf t recs
         /\ entry (statsCache (chartStatSource it')) t
            = entry (statsCache (chartStatSource it)) t ++ itemsOf t recs.
Proof.
  intros [o Ho] Hlines Hrun Htail.
  destruct (loadLoop_decodes frameIdx typeID it tail Htail run recs Hrun it
              eq_refl eq_refl) as (it' & Hloop & Hent).
  exists it'. split; [|exact Hent].
  unfold loadStatisticToCache. cbn [negb].
  by rewrite (present_guard _ _ _ _ Ho), Hlines, Hloop.
Qed.

Lemma load_decodes_run_witness :
  exists it',
    loadStatisticToCache true loaderFile 0 1 loaderItem = Ok it'
    /\ entry (statsCache (statSource it')) 1 = [BlockVector 0 0 8 8 3 4]
    /\ entry (statsCache (statSource it')) 2 = [BlockValue 0 0 8 8 7].
Proof.
  destruct (load_decodes_run loaderFile 0 1 loaderItem
              [qs "0;0;0;8;8;1;3;4"; qs "0;0;0;8;8;2;7;9"] [qs "1;0;0;8;8;1;5;5"]
              [(1, BlockVector 0 0 8 8 3 4); (2, BlockValue 0 0 8 8 7)])
    as (it' & Hload & Hent).
  - vm_compute. eauto.
  - vm_compute. reflexivity.
  - assert (forall l r,
               decodedRecord (statSource loaderItem) l = Some r ->
               parseCSVLine l ";"%char !! 0%nat = Some (qs "0") ->
               decodes 0 1 loaderItem l r) as Hdec.
    { intros l r H1 H2. split; [exact H1|]. split; [|by left].
      exists (qs "0"). split; [exact H2|]. split; vm_compute; reflexivity. }
    constructor; [apply Hdec; vm_compute; reflexivity|].
    constructor; [apply Hdec; vm_compute; reflexivity|].
    constructor.
  - right. exists (qs "1;0;0;8;8;1;5;5"), []. split; [reflexivity|].
    exists (qs "1"), (qs "1").
    split; [vm_compute; reflexivity|]. split; [vm_compute; reflexivity|].
    split; [vm_compute; reflexivity|]. left. vm_compute. discriminate.
  - exists it'. split; [exact Hload|].
    split; [exact (proj1 (Hent 1)) | exact (proj1 (Hent 2))].
Defined.
